(** * ftclient: a shallow embedding of [ftclient.py]

    The client of a two-channel file-transfer protocol.  The program is a
    straight-line script over sockets, the console and the local file
    system; it is embedded here as a computation in a small state-and-outcome
    monad over an explicit model of that environment.

    - Python [str] values are sequences of Unicode code points: [pystr].
    - Python [bytes] values are [list byte].
    - [sys.argv] is a [list pystr]; an index out of range raises.
    - Every effect appends an event to a trace, so that the order of the
      effects of a run can be stated and proved. *)

From Stdlib.Strings Require Import Ascii String Byte.
From stdpp Require Import gmap list strings pretty.

Local Open Scope N_scope.

#[local] Set Warnings "-clear-no-such-hyp,-notation-for-abbreviation".

(** ** Text *)

(** A Python [str]: the sequence of its code points. *)
Notation pystr := (list N).

(** A Python [bytes] value. *)
Notation bytes := (list byte).

#[global] Instance byte_eq_dec : EqDecision byte := Byte.byte_eq_dec.

(** An ASCII literal of the source, as a [pystr]. *)
Definition lit (s : string) : pystr :=
  (λ a, N_of_ascii a) <$> list_ascii_of_string s.

(** ['\n'] and ['\0']. *)
Definition NL : N := 10.
Definition NUL : N := 0.

(** [str(n)] for a Python [int]. *)
Definition str (n : Z) : pystr := lit (pretty n).

(** [s.startswith(p)] *)
Fixpoint startswith (p s : pystr) : bool :=
  match p, s with
  | [], _ => true
  | _ :: _, [] => false
  | a :: p', b :: s' => (a =? b) && startswith p' s'
  end.

(** [needle in hay], Python's substring test on [str]. *)
Fixpoint contains (needle hay : pystr) : bool :=
  startswith needle hay ||
  match hay with
  | [] => false
  | _ :: t => contains needle t
  end.

(** [s.lstrip('\n')], [s.rstrip('\n')] and [s.strip('\n')]. *)
Fixpoint lstrip (c : N) (s : pystr) : pystr :=
  match s with
  | [] => []
  | x :: t => if x =? c then lstrip c t else s
  end.

Definition rstrip (c : N) (s : pystr) : pystr :=
  reverse (lstrip c (reverse s)).

Definition strip (c : N) (s : pystr) : pystr := rstrip c (lstrip c s).

(** [s.lower()].  Only the ASCII letters are mapped; every other code point
    is left alone.  The source compares the result with ['n'] only, and
    ['N'] is the one code point other than ['n'] itself that Unicode
    lowercases to ['n']. *)
Definition lower_cp (c : N) : N :=
  if (65 <=? c) && (c <=? 90) then c + 32 else c.

Definition lower (s : pystr) : pystr := lower_cp <$> s.

(** ** UTF-8 *)

Definition is_cont (b : N) : bool := (128 <=? b) && (b <=? 191).

Definition cont_bits (b : N) : N := b - 128.

(** [b.decode("utf-8")] in strict mode: [None] is [UnicodeDecodeError].
    Overlong forms, surrogates and code points above U+10FFFF are
    rejected, as CPython does. *)
Fixpoint utf8_decode (bs : bytes) : option pystr :=
  match bs with
  | [] => Some []
  | b0 :: r0 =>
    let x0 := Byte.to_N b0 in
    if x0 <? 128 then cons x0 <$> utf8_decode r0
    else match r0 with
    | [] => None
    | b1 :: r1 =>
      let x1 := Byte.to_N b1 in
      if (194 <=? x0) && (x0 <=? 223) then
        if is_cont x1
        then cons ((x0 - 192) * 64 + cont_bits x1) <$> utf8_decode r1
        else None
      else match r1 with
      | [] => None
      | b2 :: r2 =>
        let x2 := Byte.to_N b2 in
        if (224 <=? x0) && (x0 <=? 239) then
          if is_cont x1 && is_cont x2
             && negb ((x0 =? 224) && (x1 <? 160))
             && negb ((x0 =? 237) && (160 <=? x1))
          then cons ((x0 - 224) * 4096 + cont_bits x1 * 64 + cont_bits x2)
                 <$> utf8_decode r2
          else None
        else match r2 with
        | [] => None
        | b3 :: r3 =>
          let x3 := Byte.to_N b3 in
          if (240 <=? x0) && (x0 <=? 244) then
            if is_cont x1 && is_cont x2 && is_cont x3
               && negb ((x0 =? 240) && (x1 <? 144))
               && negb ((x0 =? 244) && (144 <=? x1))
            then cons ((x0 - 240) * 262144 + cont_bits x1 * 4096
                       + cont_bits x2 * 64 + cont_bits x3)
                   <$> utf8_decode r3
            else None
          else None
        end
      end
    end
  end.

Definition byte_of (n : N) : byte :=
  default Byte.x00 (Byte.of_N n).

(** The UTF-8 encoding of one code point; [None] for a surrogate or a
    value that is no code point. *)
Definition utf8_encode_cp (c : N) : option bytes :=
  if c <? 128 then Some [byte_of c]
  else if c <? 2048 then
    Some [byte_of (192 + c / 64); byte_of (128 + c mod 64)]
  else if (55296 <=? c) && (c <=? 57343) then None
  else if c <? 65536 then
    Some [byte_of (224 + c / 4096); byte_of (128 + (c / 64) mod 64);
          byte_of (128 + c mod 64)]
  else if c <? 1114112 then
    Some [byte_of (240 + c / 262144); byte_of (128 + (c / 4096) mod 64);
          byte_of (128 + (c / 64) mod 64); byte_of (128 + c mod 64)]
  else None.

(** [bytes(s, "utf8")]: [None] is [UnicodeEncodeError]. *)
Fixpoint utf8_encode (s : pystr) : option bytes :=
  match s with
  | [] => Some []
  | c :: t =>
    match utf8_encode_cp c, utf8_encode t with
    | Some b, Some bt => Some (b ++ bt)
    | _, _ => None
    end
  end.

(** ** The request string *)

(** The padding loop of [makeRequest]:
    [while len(startString) < 99: startString += "#"].
    The loop runs [99 - len] times when [len < 99] and not at all
    otherwise; [fuel] bounds the iterations. *)
Fixpoint pad_loop (fuel : nat) (startString : pystr) : pystr :=
  match fuel with
  | O => startString
  | S fuel' =>
    if bool_decide (length startString < 99)%nat
    then pad_loop fuel' (startString ++ lit "#")
    else startString
  end.

(** [sys.argv[i]]: [None] is [IndexError]. *)
Definition arg (argv : list pystr) (i : nat) : option pystr := argv !! i.

(** The text [makeRequest] has built when it reaches the padding loop
    (lines 94 to 107).  [sys.argv[4]] is read in the ["-g"] branch only. *)
Definition request_fields (argv : list pystr) (dataPort : Z)
  : option pystr :=
  let startString := lit "PORTSTART:" ++ str dataPort in
  let startString := startString ++ lit "PORTEND" in
  let startString := startString ++ lit "CMD:" in
  cmd ← arg argv 3;
  if bool_decide (cmd = lit "-l") then Some (startString ++ lit "LIST")
  else if bool_decide (cmd = lit "-g") then
    let startString := startString ++ lit "GET" in
    let startString := startString ++ lit "FILENAME:" in
    filename ← arg argv 4;
    let startString := startString ++ filename in
    Some (startString ++ lit "FILENAMEEND")
  else Some (startString ++ lit "UNKNOWN").

(** [makeRequest(dataPort)]: the fields, the padding, the terminator. *)
Definition makeRequest (argv : list pystr) (dataPort : Z) : option pystr :=
  startString ← request_fields argv dataPort;
  let startString := pad_loop 99 startString in
  Some (startString ++ [NUL]).

(** [int(s)] for a [str]: an optional sign and one or more ASCII decimal
    digits.  [None] is [ValueError].  Python accepts more spellings of a
    number (surrounding blanks, [_] between digits, other decimal digit
    characters); those are outside this model and no result below depends
    on how they convert. *)
Definition digit_val (c : N) : option Z :=
  if (48 <=? c) && (c <=? 57) then Some (Z.of_N (c - 48)) else None.

Fixpoint int_digits (acc : Z) (s : pystr) : option Z :=
  match s with
  | [] => Some acc
  | c :: t => d ← digit_val c; int_digits (acc * 10 + d)%Z t
  end.

Definition py_int (s : pystr) : option Z :=
  match s with
  | [] => None
  | c :: t =>
    if c =? 45 then (if t is [] then None else Z.opp <$> int_digits 0 t)
    else if c =? 43 then (if t is [] then None else int_digits 0 t)
    else int_digits 0 s
  end.

(** ** The environment *)

(** The three sockets of a run, by the variable that holds them:
    [s2] the data-port listener, [s] the control connection,
    [dpConnection] the accepted data connection. *)
Inductive sock := Listener | Control | DataConn.

#[global] Instance sock_eq_dec : EqDecision sock.
Proof. solve_decision. Defined.

#[global] Instance sock_countable : Countable sock.
Proof.
  refine (inj_countable'
    (λ k, match k with Listener => 0%nat | Control => 1%nat | DataConn => 2%nat end)
    (λ n, match n with O => Listener | 1%nat => Control | _ => DataConn end) _).
  by intros [].
Defined.

Inductive exn :=
| IndexError | ValueError | OSError
| UnicodeDecodeError | UnicodeEncodeError | EOFError.

(** What a run does, in order. *)
Inductive event :=
| EPrint (line : pystr)
| ESocket (k : sock)
| ESetReuseAddr
| EBind (host : pystr) (port : Z)
| EListen
| EConnect (host : pystr) (port : Z)
| ESleep (seconds : Z)
| ESend (data : bytes)
| ERecv (k : sock) (data : bytes)
| EAccept
| EClose (k : sock)
| EInput (prompt : pystr)
| EOpenWB (name : pystr)
| EWrite (name : pystr) (data : bytes)
| ECloseFile (name : pystr).

#[global] Instance event_eq_dec : EqDecision event.
Proof. solve_decision. Defined.

(** The environment of a run and what the run has done to it.

    - [control_in], [data_in]: what the server sends on each connection,
      in the segments in which it arrives, followed by the server closing
      the connection;
    - [stdin]: the lines the user will type;
    - [fs]: the regular files of the working directory, by name;
    - [bind_ok], [connect_ok]: whether the data port can be bound and
      whether the server accepts the control connection;
    - [open_socks]: the sockets created and not yet closed;
    - [trace]: the events so far, oldest first.

    Of the failures of the environment the model has a data port that
    cannot be bound, a control connection that is refused, bytes that are
    no UTF-8, arguments that are no numbers and the end of [stdin].
    [listen], [accept], [send], [recv], [open] and [write] succeed, and a
    wait on the network always ends: what the server will send is there
    from the start. *)
Record state := mkState {
  control_in : list bytes;
  data_in : list bytes;
  stdin : list pystr;
  fs : gmap pystr bytes;
  bind_ok : bool;
  connect_ok : bool;
  open_socks : gset sock;
  trace : list event
}.

(** How a computation stops short: in [sys.exit(code)], in an uncaught
    exception, or, for the model of a loop, beyond its bound. *)
Inductive halt :=
| HExit (code : Z)
| HRaise (e : exn)
| HDiverge.

(** A computation ends with a value or stops short. *)
Inductive result (A : Type) :=
| Ret (a : A)
| Halt (h : halt).
Arguments Ret {A} a.
Arguments Halt {A} h.

Definition M (A : Type) : Type := state → result A * state.

Definition ret {A} (a : A) : M A := λ st, (Ret a, st).

Definition bind {A B} (m : M A) (k : A → M B) : M B := λ st,
  match m st with
  | (Ret a, st') => k a st'
  | (Halt h, st') => (Halt h, st')
  end.

Declare Scope prog_scope.
Delimit Scope prog_scope with prog.
Notation "x <- m ;; k" := (bind m (λ x, k))
  (at level 100, m at next level, right associativity) : prog_scope.
Notation "m ;; k" := (bind m (λ _, k))
  (at level 100, right associativity) : prog_scope.
Local Open Scope prog_scope.

Definition raise {A} (e : exn) : M A := λ st, (Halt (HRaise e), st).
Definition sys_exit {A} (code : Z) : M A := λ st, (Halt (HExit code), st).
Definition diverge {A} : M A := λ st, (Halt HDiverge, st).

(** An operation that raises [e] when it has no result. *)
Definition or_raise {A} (e : exn) (o : option A) : M A :=
  match o with Some a => ret a | None => raise e end.

(** The changes a step makes to the state. *)
Definition log (e : event) (st : state) : state :=
  mkState (control_in st) (data_in st) (stdin st) (fs st)
    (bind_ok st) (connect_ok st) (open_socks st) (trace st ++ [e]).
Definition put_control_in (q : list bytes) (st : state) : state :=
  mkState q (data_in st) (stdin st) (fs st)
    (bind_ok st) (connect_ok st) (open_socks st) (trace st).
Definition put_data_in (q : list bytes) (st : state) : state :=
  mkState (control_in st) q (stdin st) (fs st)
    (bind_ok st) (connect_ok st) (open_socks st) (trace st).
Definition put_stdin (l : list pystr) (st : state) : state :=
  mkState (control_in st) (data_in st) l (fs st)
    (bind_ok st) (connect_ok st) (open_socks st) (trace st).
Definition put_fs (m : gmap pystr bytes) (st : state) : state :=
  mkState (control_in st) (data_in st) (stdin st) m
    (bind_ok st) (connect_ok st) (open_socks st) (trace st).
Definition put_open_socks (o : gset sock) (st : state) : state :=
  mkState (control_in st) (data_in st) (stdin st) (fs st)
    (bind_ok st) (connect_ok st) o (trace st).

Definition modify (f : state → state) : M unit := λ st, (Ret tt, f st).
Definition get {A} (f : state → A) : M A := λ st, (Ret (f st), st).

Definition emit (e : event) : M unit := modify (log e).

(** *** Console *)

Definition print (line : pystr) : M unit := emit (EPrint line).

(** [input(prompt)]: the next line of [stdin]; [EOFError] at its end. *)
Definition input (prompt : pystr) : M pystr :=
  emit (EInput prompt);;
  l <- get stdin;;
  match l with
  | [] => raise EOFError
  | answer :: rest => modify (put_stdin rest);; ret answer
  end.

(** *** Sockets *)

(** [socket.socket(AF_INET, SOCK_STREAM)], bound to the variable [k]. *)
Definition socket_new (k : sock) : M unit :=
  emit (ESocket k);;
  o <- get open_socks;;
  modify (put_open_socks ({[k]} ∪ o)).

(** [k.close()].  Closing a socket that is closed already does nothing. *)
Definition sock_close (k : sock) : M unit :=
  emit (EClose k);;
  o <- get open_socks;;
  modify (put_open_socks (o ∖ {[k]})).

(** What [recv(n)] takes from the segments that are to arrive: at most [n]
    bytes of the first segment that is not empty, the rest of it staying
    in front; nothing when no segment is left, which is how the peer's
    closing the connection is read. *)
Fixpoint recv_queue (n : nat) (q : list bytes) : bytes * list bytes :=
  match q with
  | [] => ([], [])
  | c :: rest =>
    match c with
    | [] => recv_queue n rest
    | _ :: _ =>
      (take n c, match drop n c with [] => rest | r => r :: rest end)
    end
  end.

(** [listener.accept()]: the server connects back; the socket returned
    is the data connection. *)
Definition sock_accept (listener : sock) : M sock :=
  emit EAccept;;
  socket_new DataConn;;
  ret DataConn.

(** What is to arrive on a socket. *)
Definition inbound (k : sock) (st : state) : list bytes :=
  match k with
  | Listener => []
  | Control => control_in st
  | DataConn => data_in st
  end.

Definition put_inbound (k : sock) (q : list bytes) (st : state) : state :=
  match k with
  | Listener => st
  | Control => put_control_in q st
  | DataConn => put_data_in q st
  end.

(** [k.recv(n)].  The listener carries no stream. *)
Definition sock_recv (k : sock) (n : nat) : M bytes :=
  if bool_decide (k = Listener) then raise OSError
  else
    q <- get (inbound k);;
    let '(data, q') := recv_queue n q in
    modify (put_inbound k q');;
    emit (ERecv k data);;
    ret data.

(** *** Files *)

(** [os.path.isfile(name)] *)
Definition isfile (name : pystr) : M bool :=
  m <- get fs;; ret (bool_decide (is_Some (m !! name))).

(** [open(name, 'wb')]: the file is created, or emptied when it exists.
    What is written reaches the file at once: buffering is not modelled. *)
Definition open_wb (name : pystr) : M unit :=
  emit (EOpenWB name);;
  m <- get fs;; modify (put_fs (<[name := []]> m)).

(** [f.write(data)] on the file opened under [name]. *)
Definition file_write (name : pystr) (data : bytes) : M unit :=
  emit (EWrite name data);;
  m <- get fs;;
  modify (put_fs (<[name := default [] (m !! name) ++ data]> m)).

Definition file_close (name : pystr) : M unit := emit (ECloseFile name).

(** ** The program *)

(** Maximum transmission size *)
Definition MAX_LIMIT : nat := 1024.

(** [getMsg(connection)] *)
Definition getMsg (connection : sock) : M pystr :=
  data <- sock_recv connection MAX_LIMIT;;
  data <- or_raise UnicodeDecodeError (utf8_decode data);;
  let data := strip NL data in
  ret data.

(** [badSyntaxExit()] *)
Definition badSyntaxExit : M unit :=
  print (lit "USAGE: python3 ftclient.py [server host] [server port] [command] [filename] [data port]");;
  print (lit "Available commands: List: -l or Get: -g [filename]");;
  sys_exit 1.

(** [syntaxCheck(args)] *)
Definition syntaxCheck (args : list pystr) : M unit :=
  (if bool_decide (length args < 5)%nat || bool_decide (6 < length args)%nat
   then badSyntaxExit else ret tt);;
  a3 <- or_raise IndexError (arg args 3);;
  if bool_decide (a3 = lit "-g") && bool_decide (length args < 6)%nat
  then badSyntaxExit else ret tt.

(** [initiateContact()]; the socket it returns is the control
    connection. *)
Definition initiateContact (argv : list pystr) : M sock :=
  host <- or_raise IndexError (arg argv 1);;
  port <- or_raise IndexError (arg argv 2);;
  socket_new Control;;
  p <- or_raise ValueError (py_int port);;
  ok <- get connect_ok;;
  (if ok then emit (EConnect host p) else raise OSError);;
  ret Control.

(** [getDataPort()] *)
Definition getDataPort (argv : list pystr) : M Z :=
  dataPort <- (if bool_decide (length argv = 5%nat)
               then or_raise IndexError (arg argv 4)
               else or_raise IndexError (arg argv 5));;
  or_raise ValueError (py_int dataPort).

(** The loop of [receiveData] that copies the data connection into the
    open file:
    [while True: data = dataFD.recv(1024); if not data: break; f.write(data)].
    [fuel] bounds the number of reads. *)
Fixpoint copy_loop (fuel : nat) (dataFD : sock) (name : pystr) : M unit :=
  match fuel with
  | O => diverge
  | S fuel' =>
    data <- sock_recv dataFD 1024;;
    match data with
    | [] => ret tt
    | _ :: _ => file_write name data;; copy_loop fuel' dataFD name
    end
  end.

(** A bound on the reads that empty a queue of segments: each read takes
    a byte at least, or finds the queue empty. *)
Fixpoint pending (q : list bytes) : nat :=
  match q with
  | [] => 0
  | c :: rest => S (length c + pending rest)
  end.

(** The test of line 154 on the message read in [receiveData]:
    ["ERROR" in status]. *)
Definition status_is_error (status : pystr) : bool :=
  contains (lit "ERROR") status.

(** The test of line 225 on the first reply: ["ERROR:" in confirm]. *)
Definition confirm_is_error (confirm : pystr) : bool :=
  contains (lit "ERROR:") confirm.

(** The question of line 161. *)
Definition overwrite_prompt (name : pystr) : pystr :=
  name ++ lit " already exists. Overwrite? N = no, anything else = yes"
  ++ [NL].

(** [receiveData(controlFD, dataFD)] *)
Definition receiveData (argv : list pystr) (controlFD dataFD : sock)
  : M unit :=
  a3 <- or_raise IndexError (arg argv 3);;
  if bool_decide (a3 = lit "-l") then
    dirListing <- getMsg dataFD;;
    print (lit "Directory contents:");;
    print dirListing;;
    ret tt
  else if bool_decide (a3 = lit "-g") then
    status <- getMsg controlFD;;
    if status_is_error status then
      print (lit "Message from server: " ++ status);;
      sock_close controlFD;;
      sock_close dataFD;;
      ret tt
    else
    name <- or_raise IndexError (arg argv 4);;
    exists_ <- isfile name;;
    abort <-
      (if exists_ : bool then
         overwrite <- input (overwrite_prompt name);;
         ret (bool_decide (lower overwrite = lit "n"))
       else ret false);;
    if abort : bool then
      print (lit "Transfer aborted.");;
      ret tt
    else
    open_wb name;;
    print (lit "Transferring " ++ name ++ lit ".");;
    q <- get data_in;;
    copy_loop (S (pending q)) dataFD name;;
    file_close name;;
    print (lit "Transfer complete.");;
    file_close name;;
    ret tt
  else ret tt.

(** [socketStart(HOST, PORT)]; the socket it returns is the listener. *)
Definition socketStart (HOST : pystr) (PORT : Z) : M sock :=
  socket_new Listener;;
  emit ESetReuseAddr;;
  ok <- get bind_ok;;
  (if ok then emit (EBind HOST PORT) else raise OSError);;
  ret Listener.

(** The main program up to the sending of the request, lines 203 to 221.
    It leaves [s2] the listener and [s] the control connection, and hands
    on [port] and [dataPort]. *)
Definition send_request (argv : list pystr) : M (pystr * Z) :=
  syntaxCheck argv;;
  host <- or_raise IndexError (arg argv 1);;
  port <- or_raise IndexError (arg argv 2);;
  dataPort <- getDataPort argv;;
  startString <- or_raise IndexError (makeRequest argv dataPort);;
  s2 <- socketStart (lit "") dataPort;;
  emit EListen;;
  print (lit "Listening on data port " ++ str dataPort);;
  s <- initiateContact argv;;
  emit (ESleep 1);;
  req <- or_raise UnicodeEncodeError (utf8_encode startString);;
  emit (ESend req);;
  ret (port, dataPort).

(** The main program from the accepting of the data connection on, lines
    233 to 245. *)
Definition transfer (argv : list pystr) (dataPort : Z) : M unit :=
  dpConnection <- sock_accept Listener;;
  print (lit "ftserver connected on data port " ++ str dataPort);;
  emit (ESleep 1);;
  receiveData argv Control dpConnection;;
  sock_close Control;;
  sock_close Listener;;
  sock_close dpConnection;;
  print (lit "** Operations complete. Closing connections. **");;
  sys_exit 0.

(** The main program, lines 203 to 245. *)
Definition main (argv : list pystr) : M unit :=
  pd <- send_request argv;;
  let '(port, dataPort) := pd in
  confirm <- getMsg Control;;
  (if confirm_is_error confirm then
     print confirm;;
     sock_close Control;;
     sock_close Listener;;
     sys_exit 0
   else print (lit "Connected to ftserver on control port " ++ port));;
  transfer argv dataPort.

(** The state in which a run starts: no socket, no event. *)
Definition initial (control data : list bytes) (lines : list pystr)
    (files : gmap pystr bytes) (bind connect : bool) : state :=
  mkState control data lines files bind connect ∅ [].

(** The exit status of the process: that of [sys.exit], 1 after an
    uncaught exception, 0 when the script runs off its end. *)
Definition exit_code {A} (r : result A) : option Z :=
  match r with
  | Ret _ => Some 0%Z
  | Halt (HExit c) => Some c
  | Halt (HRaise _) => Some 1%Z
  | Halt HDiverge => None
  end.

(** The bytes of an ASCII literal. *)
Definition ascii_bytes (s : string) : bytes := list_byte_of_string s.

(** The command body of the wire format as the specification lays it
    out: ["LIST"], or ["GET" "FILENAME:" <filename> "FILENAMEEND"], or
    ["UNKNOWN"], by the command token [sys.argv[3]]. *)
Definition cmd_body (argv : list pystr) : option pystr :=
  cmd ← arg argv 3;
  if bool_decide (cmd = lit "-l") then Some (lit "LIST")
  else if bool_decide (cmd = lit "-g") then
    filename ← arg argv 4;
    Some (lit "GET" ++ lit "FILENAME:" ++ filename ++ lit "FILENAMEEND")
  else Some (lit "UNKNOWN").

(** The reply decoder as the specification words it: the decoded text
    with its trailing newline removed, and nothing else. *)
Definition strip_trailing_newline (text : pystr) : pystr :=
  match reverse text with
  | c :: r => if c =? NL then reverse r else text
  | [] => text
  end.

(** What the copying loop of [receiveData] does when its reads return
    [reads] and then nothing: each segment read is written, and the empty
    read ends the loop. *)
Definition copy_trace (name : pystr) (reads : list bytes) : list event :=
  (reads ≫= λ c, [ERecv DataConn c; EWrite name c]) ++ [ERecv DataConn []].

(** The state in which [main] calls [receiveData], from the state [st1]
    in which the request has been sent: the first reply has been read and
    was no error, and the server has connected back. *)
Definition accepted (port : pystr) (dataPort : Z) (reply : bytes)
    (q1 : list bytes) (st1 : state) : state :=
  mkState q1 (data_in st1) (stdin st1) (fs st1) (bind_ok st1)
    (connect_ok st1) ({[DataConn]} ∪ open_socks st1)
    (trace st1
     ++ [ERecv Control reply;
         EPrint (lit "Connected to ftserver on control port " ++ port);
         EAccept; ESocket DataConn;
         EPrint (lit "ftserver connected on data port " ++ str dataPort);
         ESleep 1]).

(** What [main] does to the state after [receiveData] has returned, lines
    241 to 244. *)
Definition closing (st : state) : state :=
  mkState (control_in st) (data_in st) (stdin st) (fs st) (bind_ok st)
    (connect_ok st)
    (open_socks st ∖ {[Control]} ∖ {[Listener]} ∖ {[DataConn]})
    (trace st
     ++ [EClose Control; EClose Listener; EClose DataConn;
         EPrint (lit "** Operations complete. Closing connections. **")]).

(** The lines a run has printed, in order. *)
Definition printed (tr : list event) : list pystr :=
  omap (λ e, match e with EPrint line => Some line | _ => None end) tr.

(** The state after the two lines of [badSyntaxExit]. *)
Definition usage_shown (st : state) : state :=
  mkState (control_in st) (data_in st) (stdin st) (fs st) (bind_ok st)
    (connect_ok st) (open_socks st)
    (trace st
     ++ [EPrint (lit "USAGE: python3 ftclient.py [server host] [server port] [command] [filename] [data port]");
         EPrint (lit "Available commands: List: -l or Get: -g [filename]")]).

(** What the main program has done when it has connected to the server
    and is about to send the request (line 221), from the state [st] in
    which it started. *)
Definition request_ready (host : pystr) (p dataPort : Z) (st : state)
  : state :=
  mkState (control_in st) (data_in st) (stdin st) (fs st) (bind_ok st)
    (connect_ok st) ({[Control]} ∪ ({[Listener]} ∪ open_socks st))
    (trace st
     ++ [ESocket Listener; ESetReuseAddr; EBind (lit "") dataPort; EListen;
         EPrint (lit "Listening on data port " ++ str dataPort);
         ESocket Control; EConnect host p; ESleep 1]).


(** The last argument of the command line. *)
Definition last_arg (argv : list pystr) : option pystr := last argv.

(** An ASCII decimal digit. *)
Definition is_digit (c : N) : Prop := 48 ≤ c ∧ c ≤ 57.

(** An ASCII letter. *)
Definition is_letter (c : N) : Prop := (65 ≤ c ∧ c ≤ 90) ∨ (97 ≤ c ∧ c ≤ 122).

(** Text of characters below 128 only. *)
Definition is_ascii (s : pystr) : Prop := Forall (λ c, c < 128) s.

(** A code point that is a surrogate: what an argument that is no UTF-8
    is turned into on the command line. *)
Definition surrogate (c : N) : Prop := 55296 ≤ c ∧ c ≤ 57343.

(** An event of the part of the program that runs before the control
    connection is opened. *)
Definition before_contact (e : event) : Prop :=
  match e with
  | EPrint _ | ESocket Listener | ESetReuseAddr => True
  | _ => False
  end.

(** ** Statements about runs *)

(** [wp m Q H st]: run from [st], [m] ends in a value and a state that
    satisfy [Q], or stops short in a way and a state that satisfy [H]. *)
Definition wp {A} (m : M A) (Q : A → state → Prop)
    (H : halt → state → Prop) (st : state) : Prop :=
  match m st with
  | (Ret a, st') => Q a st'
  | (Halt h, st') => H h st'
  end.

(** No socket has been closed. *)
Definition no_close (tr : list event) : Prop := ∀ k, EClose k ∉ tr.

(** [keeps I m]: [m] preserves [I], whether it returns or raises, and it
    does one or the other. *)
Definition keeps {A} (I : state → Prop) (m : M A) : Prop :=
  ∀ st, I st →
    wp m (λ _, I) (λ h st', match h with HRaise _ => I st' | _ => False end)
      st.

(** A property of states that only closing a socket or changing the set
    of open sockets can break. *)
Class Stable (I : state → Prop) : Prop := {
  I_log : ∀ e st, (∀ k, e ≠ EClose k) → I st → I (log e st);
  I_control_in : ∀ q st, I st → I (put_control_in q st);
  I_data_in : ∀ q st, I st → I (put_data_in q st);
  I_stdin : ∀ l st, I st → I (put_stdin l st);
  I_fs : ∀ m st, I st → I (put_fs m st)
}.

(** No socket has been closed so far. *)
Definition quiet (st : state) : Prop := no_close (trace st).

(** No socket has been closed and the data connection does not exist. *)
Definition before_accept (st : state) : Prop :=
  (DataConn ∉ open_socks st) ∧ no_close (trace st).

(** How a run of the whole program may end: in [sys.exit] with every
    socket closed, or in an exception with no socket closed by the
    client. *)
Definition clean_end (h : halt) (st : state) : Prop :=
  match h with
  | HExit _ => open_socks st = ∅
  | HRaise _ => no_close (trace st)
  | HDiverge => False
  end.

(** [always I m]: [m] preserves [I], however it ends. *)
Definition always {A} (I : state → Prop) (m : M A) : Prop :=
  ∀ st, I st → wp m (λ _, I) (λ _, I) st.

(** [ends P m]: when [m] stops short, it does so in a way that satisfies
    [P]. *)
Definition ends {A} (P : halt → Prop) (m : M A) : Prop :=
  ∀ st, wp m (λ _ _, True) (λ h _, P h) st.

(** Not the exception [e]. *)
Definition other_than (e : exn) (h : halt) : Prop := h ≠ HRaise e.



(** A property of states that does not depend on the files: no step but a
    change of the file system can break it. *)
Class Framed (I : state → Prop) : Prop := {
  F_log : ∀ e st, I st → I (log e st);
  F_control_in : ∀ q st, I st → I (put_control_in q st);
  F_data_in : ∀ q st, I st → I (put_data_in q st);
  F_stdin : ∀ l st, I st → I (put_stdin l st);
  F_open_socks : ∀ o st, I st → I (put_open_socks o st)
}.

(** [I] survives the writing of the file [name]. *)
Definition writes_keep (I : state → Prop) (name : pystr) : Prop :=
  ∀ data st, I st → I (put_fs (<[name := data]> (fs st)) st).

(** The file [f] holds what it held in [m0], or is missing as it was. *)
Definition file_as_in (m0 : gmap pystr bytes) (f : pystr) (st : state)
  : Prop :=
  fs st !! f = m0 !! f.

(** The trace starts with [tr0]. *)
Definition trace_from (tr0 : list event) (st : state) : Prop :=
  tr0 `prefix_of` trace st.

(** ** Runs used as examples *)

(** [python3 ftclient.py flip 30021 -l 50000] *)
Definition list_argv : list pystr :=
  [lit "ftclient.py"; lit "flip"; lit "30021"; lit "-l"; lit "50000"].

(** [python3 ftclient.py flip 30021 -g report.csv 50000] *)
Definition get_argv : list pystr :=
  [lit "ftclient.py"; lit "flip"; lit "30021"; lit "-g"; lit "report.csv";
   lit "50000"].

(** A file name of sixty letters. *)
Definition long_name : pystr := replicate 60 97.

(** [python3 ftclient.py flip 30021 -g aaa...a 50000] *)
Definition get_long_argv : list pystr :=
  [lit "ftclient.py"; lit "flip"; lit "30021"; lit "-g"; long_name;
   lit "50000"].

(** A control connection on which the server's reply starts with a
    newline. *)
Definition newline_first_st : state :=
  initial [Byte.x0a :: ascii_bytes "OK"] [] [] ∅ true true.

(** The state in which [receiveData] starts when the server has
    connected back: the three sockets are open; [control] and [data] are
    still to arrive. *)
Definition connected (control data : list bytes) (lines : list pystr)
    (files : gmap pystr bytes) : state :=
  mkState control data lines files true true
    ({[Listener]} ∪ {[Control]} ∪ {[DataConn]}) [].

(** The server announces the file and sends [1,2,3] and a newline; no
    file of that name exists here. *)
Definition report_fresh_st : state :=
  connected [ascii_bytes "SENDING"] [ascii_bytes "1,2,3" ++ [Byte.x0a]]
    [] ∅.

(** [report.csv] exists here, the user agrees to overwrite it, and the
    server closes the data connection without sending a byte. *)
Definition report_empty_st : state :=
  connected [ascii_bytes "SENDING"] [] [lit "y"]
    {[lit "report.csv" := ascii_bytes "old"]}.

(** The server reports after its acknowledgement that the file is
    missing. *)
Definition report_missing_st : state :=
  connected [ascii_bytes "ERROR: file not found"] [] []
    {[lit "other.txt" := ascii_bytes "kept"]}.

(** The start of a run in which the server acknowledges a GET of
    [report.csv], announces the file and sends it, [report.csv] exists
    here, and the user answers [answer]. *)
Definition report_run_st (answer : pystr) : state :=
  initial [ascii_bytes "OK"; ascii_bytes "SENDING"]
    [ascii_bytes "1,2,3" ++ [Byte.x0a]] [answer]
    {[lit "report.csv" := ascii_bytes "old"]} true true.

(** The start of a run in which the server acknowledges a LIST and sends
    two names. *)
Definition listing_run_st : state :=
  initial [ascii_bytes "OK"]
    [ascii_bytes "a.txt" ++ [Byte.x0a] ++ ascii_bytes "b.txt" ++ [Byte.x0a]]
    [] ∅ true true.

(** The start of a run in which the server acknowledges a GET of
    [report.csv], announces the file and sends it, and no file of that
    name exists here. *)
Definition report_new_st : state :=
  initial [ascii_bytes "OK"; ascii_bytes "SENDING"]
    [ascii_bytes "1,2,3" ++ [Byte.x0a]] [] ∅ true true.

(** The start of a run in which the first reply has ["ERROR"] in it and no
    colon after it. *)
Definition noerrorhere_st : state :=
  initial [ascii_bytes "NOERRORHERE"] [ascii_bytes "a.txt"] [] ∅ true true.

(** The start of a run in which the server answers the request with an
    error. *)
Definition error_reply_st : state :=
  initial [ascii_bytes "ERROR: invalid command"] [] [] ∅ true true.

(** The start of a run in which the server does not accept the control
    connection. *)
Definition refused_st : state := initial [] [] [] ∅ true false.

(** [python3 ftclient.py flip 30021 -x 50000] *)
Definition unknown_argv : list pystr :=
  [lit "ftclient.py"; lit "flip"; lit "30021"; lit "-x"; lit "50000"].

(** [python3 ftclient.py flip 30021 -l extra 50000] *)
Definition list_extra_argv : list pystr :=
  [lit "ftclient.py"; lit "flip"; lit "30021"; lit "-l"; lit "extra";
   lit "50000"].

(** A file name that starts with U+00E9, an e with an acute accent. *)
Definition accent_name : pystr := 233 :: lit ".txt".

Definition get_accent_argv : list pystr :=
  [lit "ftclient.py"; lit "flip"; lit "30021"; lit "-g"; accent_name;
   lit "50000"].

(** A file name that starts with the surrogate U+DC80: what the byte 0x80
    in an argument becomes. *)
Definition broken_name : pystr := 56448 :: lit ".txt".

Definition get_broken_argv : list pystr :=
  [lit "ftclient.py"; lit "flip"; lit "30021"; lit "-g"; broken_name;
   lit "50000"].

(** The start of a run in which the server acknowledges and then says and
    sends nothing more. *)
Definition ack_st : state := initial [ascii_bytes "OK"] [] [] ∅ true true.

(** The start of a run in which the server acknowledges a GET and then
    reports that the file is missing. *)
Definition deferred_error_st : state :=
  initial [ascii_bytes "OK"; ascii_bytes "ERROR: file not found"] [] [] ∅
    true true.

(** [report.csv] exists here, the server announces the file, and the
    console input is at its end. *)
Definition report_noinput_st : state :=
  connected [ascii_bytes "SENDING"] [ascii_bytes "1,2,3"] []
    {[lit "report.csv" := ascii_bytes "old"]}.

(** The start of a run in which the server accepts the connection and
    closes it without a word. *)
Definition silent_st : state := initial [] [] [] ∅ true true.

(** The start of a run in which the data port is taken. *)
Definition unbound_st : state := initial [] [] [] ∅ false true.

(** The server has connected back and sends two names. *)
Definition listing_st : state :=
  connected []
    [ascii_bytes "a.txt" ++ [Byte.x0a] ++ ascii_bytes "b.txt" ++ [Byte.x0a]]
    [] ∅.

(** [python3 ftclient.py flip 30021 -l data] *)
Definition word_port_argv : list pystr :=
  [lit "ftclient.py"; lit "flip"; lit "30021"; lit "-l"; lit "data"].


(** What a server says that announces a file with a character of three
    bytes in its name, U+20AC, and the bytes of it. *)
Definition euro_reply : pystr :=
  lit "SENDING " ++ [8364] ++ lit ".txt" ++ [NL].

Definition euro_bytes : bytes :=
  ascii_bytes "SENDING " ++ [Byte.xe2; Byte.x82; Byte.xac]
  ++ ascii_bytes ".txt" ++ [Byte.x0a].

(** The server has connected back and sends [euro_reply] on the control
    connection. *)
Definition euro_st : state := connected [euro_bytes] [] [] ∅.

(** [python3 client.py rose 2121 -g report.csv 50000] *)
Definition other_get_argv : list pystr :=
  [lit "client.py"; lit "rose"; lit "2121"; lit "-g"; lit "report.csv";
   lit "50000"].

(** 1023 letters and then U+00E9, which takes two bytes: 1025 bytes. *)
Definition long_listing : bytes :=
  replicate 1023 Byte.x61 ++ [Byte.xc3; Byte.xa9].

(** The server has connected back and sends [long_listing] in one
    piece. *)
Definition long_listing_st : state := connected [] [long_listing] [] ∅.

(** * Properties *)

(** ** Text *)

Section text.
Implicit Types (s t p : pystr) (c : N).

Lemma lit_length (x : string) : length (lit x) = String.length x.
Proof.
  unfold lit. rewrite length_fmap.
  induction x as [|a x IH]; simpl; [done | by rewrite IH].
Qed.

Lemma startswith_spec p s : startswith p s = true ↔ ∃ t, s = p ++ t.
Proof.
  revert s. induction p as [|a p IH]; intros s; simpl.
  - split; [intros _; by exists s | done].
  - destruct s as [|b s].
    + split; [done | intros [t Ht]; discriminate].
    + rewrite andb_true_iff, N.eqb_eq, IH. split.
      * intros [-> [t ->]]. by exists t.
      * intros [t Ht]. injection Ht as -> ->. eauto.
Qed.

(** Python's [in] on strings: the needle occurs somewhere in the
    haystack. *)
Lemma contains_spec p s :
  contains p s = true ↔ ∃ pre post, s = pre ++ p ++ post.
Proof.
  induction s as [|b s IH]; simpl.
  - rewrite orb_false_r, startswith_spec. split.
    + intros [t Ht]. by exists [], t.
    + intros (pre & post & H). symmetry in H.
      apply app_eq_nil in H as [-> H]. apply app_eq_nil in H as [-> ->].
      by exists [].
  - rewrite orb_true_iff, startswith_spec, IH. split.
    + intros [[t Ht] | (pre & post & ->)].
      * by exists [], t.
      * by exists (b :: pre), post.
    + intros (pre & post & H). destruct pre as [|b' pre]; simpl in H.
      * left. by exists post.
      * right. injection H as -> ->. by exists pre, post.
Qed.

Lemma lstrip_spec c s :
  ∃ n, s = replicate n c ++ lstrip c s ∧ head (lstrip c s) ≠ Some c.
Proof.
  induction s as [|x s (n & Hs & Hh)]; simpl.
  - by exists 0%nat.
  - destruct (N.eqb_spec x c) as [-> | Hne].
    + exists (S n). simpl. by rewrite <- Hs.
    + exists 0%nat. simpl. split; [done | congruence].
Qed.

Lemma rstrip_spec c s :
  ∃ m, s = rstrip c s ++ replicate m c ∧ last (rstrip c s) ≠ Some c.
Proof.
  unfold rstrip. destruct (lstrip_spec c (reverse s)) as (m & Hs & Hh).
  exists m. split.
  - rewrite <- (reverse_involutive s), Hs at 1.
    by rewrite reverse_app, reverse_replicate.
  - by rewrite last_reverse.
Qed.

(** [s.strip(c)] takes every [c] off both ends of [s], and nothing
    else. *)
Lemma strip_spec c s :
  ∃ n m, s = replicate n c ++ strip c s ++ replicate m c
         ∧ head (strip c s) ≠ Some c ∧ last (strip c s) ≠ Some c.
Proof.
  unfold strip. destruct (lstrip_spec c s) as (n & Hs & Hh).
  destruct (rstrip_spec c (lstrip c s)) as (m & Ht & Hl).
  exists n, m. split; [by rewrite <- Ht | split; [|done]].
  destruct (rstrip c (lstrip c s)) as [|x r] eqn:E; [done|].
  rewrite Ht in Hh. by simpl in *.
Qed.

Lemma lower_is_n s : lower s = lit "n" ↔ s = lit "n" ∨ s = lit "N".
Proof.
  split.
  - destruct s as [|c [|??]]; try discriminate.
    unfold lower, lit; simpl. intros [= H]. unfold lower_cp in H.
    destruct (_ && _) eqn:E.
    + right. f_equal. lia.
    + left. by f_equal.
  - by intros [-> | ->].
Qed.

Lemma str_length_N (k : nat) (x : N) (acc : string) :
  x < 10 ^ N.of_nat k →
  (String.length (pretty_N_go x acc) ≤ k + String.length acc)%nat.
Proof.
  revert x acc. induction k as [|k IH]; intros x acc Hx.
  - assert (x = 0) as -> by (simpl in Hx; lia).
    rewrite pretty_N_go_0. lia.
  - destruct (decide (x = 0)) as [-> | Hne].
    + rewrite pretty_N_go_0. lia.
    + rewrite pretty_N_go_step by lia.
      etrans; [apply IH | simpl; lia].
      rewrite Nat2N.inj_succ, N.pow_succ_r' in Hx.
      apply N.Div0.div_lt_upper_bound. lia.
Qed.

(** A port number has at most five decimal digits. *)
Lemma str_port_length (p : Z) :
  (0 ≤ p < 100000)%Z → (length (str p) ≤ 5)%nat.
Proof.
  intros Hp. unfold str. rewrite lit_length.
  destruct p as [|x|x]; [simpl; lia | | lia].
  change (pretty (Z.pos x)) with (pretty_N_go (N.pos x) "").
  etrans; [apply (str_length_N 5) | simpl; lia].
  change (10 ^ N.of_nat 5) with 100000. lia.
Qed.
End text.

(** ** The request string *)

Lemma pad_loop_spec (fuel : nat) (s : pystr) :
  (99 - length s ≤ fuel)%nat →
  pad_loop fuel s = s ++ replicate (99 - length s) 35.
Proof.
  revert s. induction fuel as [|fuel IH]; intros s Hf; simpl.
  - replace (99 - length s)%nat with 0%nat by lia. by rewrite app_nil_r.
  - case_bool_decide as Hlt.
    + rewrite IH by (rewrite length_app; simpl; lia).
      rewrite length_app, <- app_assoc. simpl.
      replace (99 - length s)%nat with (S (99 - (length s + 1))) by lia.
      done.
    + replace (99 - length s)%nat with 0%nat by lia. by rewrite app_nil_r.
Qed.

(** The fields of the request are the fixed prefix, the port and the
    command body. *)
Lemma request_fields_body (argv : list pystr) (dataPort : Z) :
  request_fields argv dataPort =
  (λ body, lit "PORTSTART:" ++ str dataPort ++ lit "PORTEND" ++ lit "CMD:"
           ++ body) <$> cmd_body argv.
Proof.
  unfold request_fields, cmd_body.
  destruct (arg argv 3) as [cmd|]; simpl; [|done].
  repeat case_bool_decide; simpl; rewrite <- ?app_assoc; try done.
  destruct (arg argv 4) as [f|]; simpl; [|done].
  by rewrite <- !app_assoc.
Qed.

Lemma makeRequest_padded (argv : list pystr) (dataPort : Z) :
  makeRequest argv dataPort =
  (λ fields, fields ++ replicate (99 - length fields) 35 ++ [NUL])
    <$> request_fields argv dataPort.
Proof.
  unfold makeRequest.
  destruct (request_fields argv dataPort) as [f|]; [|reflexivity].
  change (Some (pad_loop 99 f ++ [NUL]) =
          Some (f ++ replicate (99 - length f) 35 ++ [NUL])).
  rewrite pad_loop_spec by lia. by rewrite <- app_assoc.
Qed.

Lemma snoc_not_nul (pre : pystr) (c : N) (x : pystr) :
  c ≠ NUL → ∃ pre' c', x ++ pre ++ [c] = pre' ++ [c'] ∧ c' ≠ NUL.
Proof. intros Hc. exists (x ++ pre), c. by rewrite app_assoc. Qed.

(** The fields never end in a null character: they end in the last letter
    of the command body. *)
Lemma request_fields_last (argv : list pystr) (dataPort : Z) fields :
  request_fields argv dataPort = Some fields →
  ∃ pre c, fields = pre ++ [c] ∧ c ≠ NUL.
Proof.
  unfold request_fields.
  destruct (arg argv 3) as [cmd|]; [|discriminate].
  cbn [mbind option_bind].
  destruct (bool_decide (cmd = lit "-l")).
  { intros H. apply (inj Some) in H. subst fields.
    change (lit "LIST") with ([76; 73; 83] ++ [84]).
    by apply snoc_not_nul. }
  destruct (bool_decide (cmd = lit "-g")).
  - destruct (arg argv 4) as [f|]; [|discriminate].
    cbn [mbind option_bind]. intros H. apply (inj Some) in H. subst fields.
    change (lit "FILENAMEEND")
      with ([70; 73; 76; 69; 78; 65; 77; 69; 69; 78] ++ [68]).
    by apply snoc_not_nul.
  - intros H. apply (inj Some) in H. subst fields.
    change (lit "UNKNOWN") with ([85; 78; 75; 78; 79; 87] ++ [78]).
    by apply snoc_not_nul.
Qed.

Lemma utf8_encode_cp_length (c : N) (b : bytes) :
  utf8_encode_cp c = Some b → (1 ≤ length b)%nat.
Proof.
  unfold utf8_encode_cp.
  repeat (case_match; try discriminate); intros [= <-]; cbn [length]; lia.
Qed.

(** Encoding never shortens: a code point takes a byte at least. *)
Lemma utf8_encode_length (s : pystr) (bs : bytes) :
  utf8_encode s = Some bs → (length s ≤ length bs)%nat.
Proof.
  revert bs. induction s as [|c s IH]; intros bs; cbn [utf8_encode].
  - by intros [= <-].
  - destruct (utf8_encode_cp c) as [b|] eqn:Ec; [|discriminate].
    destruct (utf8_encode s) as [bt|]; [|discriminate].
    intros [= <-]. rewrite length_app. specialize (IH bt eq_refl).
    apply utf8_encode_cp_length in Ec. cbn [length]. lia.
Qed.

(** ** Reply classification *)

(** C1, as the code has it: the check on the first reply (line 225) looks
    for ["ERROR:"], colon included; the check on the message read before a
    file transfer (line 154) looks for ["ERROR"].  Each holds exactly when
    its needle occurs somewhere in the text.  So ["NOERRORHERE"] passes the
    first check and fails the second, and ["OK"] passes both. *)
Theorem reply_classification (text : pystr) :
  (confirm_is_error text = true
     ↔ ∃ pre post, text = pre ++ lit "ERROR:" ++ post)
  ∧ (status_is_error text = true
     ↔ ∃ pre post, text = pre ++ lit "ERROR" ++ post)
  ∧ confirm_is_error (lit "NOERRORHERE") = false
  ∧ status_is_error (lit "NOERRORHERE") = true
  ∧ confirm_is_error (lit "OK") = false
  ∧ status_is_error (lit "OK") = false.
Proof.
  unfold confirm_is_error, status_is_error.
  split; [apply contains_spec|]. split; [apply contains_spec|].
  by vm_compute.
Qed.

(** C1 as stated fails for the check on the first reply: ["NOERRORHERE"]
    contains ["ERROR"] and is not taken for an error there. *)
Lemma confirm_check_is_not_ERROR_substring :
  ¬ (∀ text, confirm_is_error text = true
             ↔ ∃ pre post, text = pre ++ lit "ERROR" ++ post).
Proof.
  intros H. specialize (H (lit "NOERRORHERE")).
  assert (confirm_is_error (lit "NOERRORHERE") = true) as E.
  { apply H. by exists (lit "NO"), (lit "HERE"). }
  vm_compute in E. discriminate.
Qed.

(** ** The length and layout of the request *)

(** C9: [makeRequest] returns the fields, padded with [#] up to 99
    characters when they are shorter, and one null character after them:
    [max(L, 99) + 1] characters for fields of [L] characters.  The
    character before the final null is never null.  The result is never
    shorter than 100, as text and as bytes, and fields of more than 99
    characters are kept whole, which gives more than 100. *)
Theorem makeRequest_length (argv : list pystr) (dataPort : Z)
    (fields : pystr) :
  request_fields argv dataPort = Some fields →
  ∃ r body c,
    makeRequest argv dataPort = Some r
    ∧ r = body ++ [c; NUL] ∧ c ≠ NUL
    ∧ length r = (length fields `max` 99 + 1)%nat
    ∧ (100 ≤ length r)%nat
    ∧ fields `prefix_of` r
    ∧ ((99 < length fields)%nat → (100 < length r)%nat)
    ∧ (∀ bs, utf8_encode r = Some bs → (100 ≤ length bs)%nat).
Proof.
  intros Hf. rewrite makeRequest_padded, Hf. cbn [fmap option_fmap option_map].
  set (k := (99 - length fields)%nat).
  assert (length (fields ++ replicate k 35 ++ [NUL])
          = (length fields `max` 99 + 1)%nat) as Hlen.
  { rewrite !length_app, length_replicate. cbn [length]. lia. }
  assert (∃ body c, fields ++ replicate k 35 = body ++ [c] ∧ c ≠ NUL)
    as (body & c & Hb & Hc).
  { destruct k as [|k'].
    - rewrite app_nil_r. by apply (request_fields_last argv dataPort).
    - exists (fields ++ replicate k' 35), 35.
      by rewrite replicate_S_end, app_assoc. }
  exists (fields ++ replicate k 35 ++ [NUL]), body, c.
  split; [done|]. split.
  { by rewrite app_assoc, Hb, <- app_assoc. }
  split; [done|]. split; [done|]. split; [lia|]. split.
  { by eexists. }
  split; [lia|].
  intros bs Hbs. apply utf8_encode_length in Hbs. lia.
Qed.

(** A GET of a file with a name of sixty letters: fields of 109 characters,
    a request of 110. *)
Lemma makeRequest_length_witness :
  ∃ fields, request_fields get_long_argv 50000 = Some fields
    ∧ (length fields = 109)%nat
    ∧ ∃ r body c,
        makeRequest get_long_argv 50000 = Some r
        ∧ r = body ++ [c; NUL] ∧ c ≠ NUL
        ∧ length r = (length fields `max` 99 + 1)%nat
        ∧ (100 ≤ length r)%nat
        ∧ fields `prefix_of` r
        ∧ ((99 < length fields)%nat → (100 < length r)%nat)
        ∧ (∀ bs, utf8_encode r = Some bs → (100 ≤ length bs)%nat).
Proof.
  eexists. split; [vm_compute; reflexivity|]. split; [reflexivity|].
  apply (makeRequest_length get_long_argv 50000). vm_compute. reflexivity.
Defined.

Lemma cmd_body_length (argv : list pystr) (body : pystr) :
  cmd_body argv = Some body →
  (∀ f, arg argv 3 = Some (lit "-g") → arg argv 4 = Some f →
        (length f ≤ 50)%nat) →
  (length body ≤ 73)%nat.
Proof.
  unfold cmd_body. destruct (arg argv 3) as [cmd|]; [|discriminate].
  cbn [mbind option_bind].
  destruct (bool_decide (cmd = lit "-l")).
  { intros H _. apply (inj Some) in H. subst body.
    rewrite lit_length. cbn [String.length]. lia. }
  case_bool_decide as Hg.
  - subst cmd. destruct (arg argv 4) as [f|]; [|discriminate].
    cbn [mbind option_bind]. intros H Hf. apply (inj Some) in H. subst body.
    specialize (Hf f eq_refl eq_refl).
    rewrite !length_app, !lit_length. cbn [String.length]. lia.
  - intros H _. apply (inj Some) in H. subst body.
    rewrite lit_length. cbn [String.length]. lia.
Qed.

(** C2, as the code has it: for a data port of at most five decimal
    digits and, for a GET, a file name of at most fifty characters,
    [makeRequest] returns a string of exactly 100 characters:
    ["PORTSTART:"], the port, ["PORTEND"], ["CMD:"], the command body
    (["LIST"], or ["GET" "FILENAME:" name "FILENAMEEND"], or ["UNKNOWN"]),
    [#] up to 99 characters, and one null character. *)
Theorem makeRequest_wire (argv : list pystr) (dataPort : Z) (body : pystr) :
  (length (str dataPort) ≤ 5)%nat →
  cmd_body argv = Some body →
  (∀ f, arg argv 3 = Some (lit "-g") → arg argv 4 = Some f →
        (length f ≤ 50)%nat) →
  ∃ k r,
    r = lit "PORTSTART:" ++ str dataPort ++ lit "PORTEND" ++ lit "CMD:"
        ++ body ++ replicate k 35
    ∧ makeRequest argv dataPort = Some (r ++ [NUL])
    ∧ length r = 99%nat
    ∧ length (r ++ [NUL]) = 100%nat.
Proof.
  intros Hp Hb Hf. pose proof (cmd_body_length argv body Hb Hf) as Hlen.
  rewrite makeRequest_padded, request_fields_body, Hb.
  cbn [fmap option_fmap option_map].
  set (fields := lit "PORTSTART:" ++ str dataPort ++ lit "PORTEND"
                 ++ lit "CMD:" ++ body).
  assert (length fields ≤ 99)%nat as Hfl.
  { unfold fields. rewrite !length_app, !lit_length in *.
    cbn [String.length]. lia. }
  exists (99 - length fields)%nat, (fields ++ replicate (99 - length fields) 35).
  split; [unfold fields; by rewrite <- !app_assoc|].
  split; [by rewrite <- app_assoc|].
  rewrite !length_app, length_replicate. cbn [length]. lia.
Qed.

(** A GET of [report.csv] on data port 50000. *)
Lemma makeRequest_wire_witness :
  ∃ body, cmd_body get_argv = Some body
    ∧ ∃ k r,
        r = lit "PORTSTART:" ++ str 50000 ++ lit "PORTEND" ++ lit "CMD:"
            ++ body ++ replicate k 35
        ∧ makeRequest get_argv 50000 = Some (r ++ [NUL])
        ∧ length r = 99%nat
        ∧ length (r ++ [NUL]) = 100%nat.
Proof.
  exists (lit "GETFILENAME:report.csvFILENAMEEND"). split; [reflexivity|].
  apply (makeRequest_wire get_argv 50000).
  - vm_compute. lia.
  - reflexivity.
  - intros f _ H. apply (inj Some) in H. subst f. vm_compute. lia.
Defined.

(** C2 as stated fails for a GET with a long file name: with a port of five
    digits and a name of sixty letters the request has 110 characters. *)
Lemma makeRequest_not_100 :
  (length (str 50000) ≤ 5)%nat
  ∧ ∃ r, makeRequest get_long_argv 50000 = Some r
         ∧ length r = 110%nat ∧ length r ≠ 100%nat.
Proof.
  split; [vm_compute; lia|].
  eexists. split; [vm_compute; reflexivity|]. split; [reflexivity|].
  vm_compute. lia.
Qed.

(** ** Reading a message *)

(** [getMsg] in one step: a read, the decoding, the stripping. *)
Lemma getMsg_run (k : sock) (st : state) :
  k ≠ Listener →
  getMsg k st =
  let '(data, q') := recv_queue MAX_LIMIT (inbound k st) in
  let st' := log (ERecv k data) (put_inbound k q' st) in
  match utf8_decode data with
  | Some text => (Ret (strip NL text), st')
  | None => (Halt (HRaise UnicodeDecodeError), st')
  end.
Proof.
  intros Hk. unfold getMsg, sock_recv, bind, get.
  rewrite bool_decide_eq_false_2 by done.
  destruct (recv_queue MAX_LIMIT (inbound k st)) as [data q'].
  cbn [modify emit ret]. by destruct (utf8_decode data).
Qed.

(** C8, as the code has it: [getMsg] reads up to 1024 bytes, decodes them
    as UTF-8 and returns the text without the newlines at its start and at
    its end, every one of them; what lies between is returned as it is. *)
Theorem getMsg_strips (k : sock) (st : state) (data : bytes)
    (q' : list bytes) (text : pystr) :
  k ≠ Listener →
  recv_queue MAX_LIMIT (inbound k st) = (data, q') →
  utf8_decode data = Some text →
  ∃ msg n m,
    getMsg k st = (Ret msg, log (ERecv k data) (put_inbound k q' st))
    ∧ text = replicate n NL ++ msg ++ replicate m NL
    ∧ head msg ≠ Some NL ∧ last msg ≠ Some NL.
Proof.
  intros Hk Hq Hd. rewrite getMsg_run, Hq, Hd by done.
  destruct (strip_spec NL text) as (n & m & ? & ? & ?).
  by exists (strip NL text), n, m.
Qed.

(** A reply that starts with a newline. *)
Lemma getMsg_strips_witness :
  ∃ msg n m,
    getMsg Control newline_first_st
    = (Ret msg, log (ERecv Control (Byte.x0a :: ascii_bytes "OK"))
                  (put_inbound Control [] newline_first_st))
    ∧ NL :: lit "OK" = replicate n NL ++ msg ++ replicate m NL
    ∧ head msg ≠ Some NL ∧ last msg ≠ Some NL.
Proof.
  apply (getMsg_strips Control newline_first_st); [discriminate | |];
    reflexivity.
Defined.

(** C8 as stated fails on a reply that starts with a newline: the text
    decoded is ["\nOK"], it has no trailing newline to remove, and [getMsg]
    returns ["OK"]. *)
Lemma getMsg_strips_leading_newline :
  ∃ data q' text,
    recv_queue MAX_LIMIT (inbound Control newline_first_st) = (data, q')
    ∧ utf8_decode data = Some text
    ∧ strip_trailing_newline text = NL :: lit "OK"
    ∧ (getMsg Control newline_first_st).1 = Ret (lit "OK")
    ∧ (getMsg Control newline_first_st).1
      ≠ Ret (strip_trailing_newline text).
Proof.
  exists (Byte.x0a :: ascii_bytes "OK"), [], (NL :: lit "OK").
  repeat split; try reflexivity. vm_compute. discriminate.
Qed.

(** ** The copying loop *)

Lemma recv_queue_spec (n : nat) (q : list bytes) :
  (0 < n)%nat →
  ∀ data q', recv_queue n q = (data, q') →
    data ++ concat q' = concat q
    ∧ (length data ≤ n)%nat
    ∧ (data = [] → q' = [])
    ∧ (data ≠ [] → (pending q' < pending q)%nat).
Proof.
  intros Hn. induction q as [|c rest IH]; intros data q' H.
  - injection H as <- <-. cbn [length]. repeat split; try done; lia.
  - destruct c as [|b c'].
    + cbn [recv_queue] in H. destruct (IH _ _ H) as (? & ? & ? & Hp).
      repeat split; try done. intros Hd. specialize (Hp Hd).
      cbn [pending length]. lia.
    + cbn [recv_queue] in H. injection H as <- <-.
      remember (b :: c') as l eqn:El.
      pose proof (take_drop n l) as Htd.
      assert (length l = S (length c')) as Hl by by subst l.
      assert (length (drop n l) < length l)%nat as Hdl.
      { rewrite length_drop. lia. }
      split; [|split; [|split]].
      * destruct (drop n l) as [|d r] eqn:E; cbn [concat].
        -- rewrite app_nil_r in Htd. by rewrite Htd.
        -- by rewrite app_assoc, Htd.
      * rewrite length_take. lia.
      * subst l. destruct n; [lia | discriminate].
      * intros _. destruct (drop n l) as [|d r] eqn:E;
          cbn [pending length] in *; lia.
Qed.

Lemma sock_recv_run (k : sock) (n : nat) (st : state) :
  k ≠ Listener →
  sock_recv k n st =
  let '(data, q') := recv_queue n (inbound k st) in
  (Ret data, log (ERecv k data) (put_inbound k q' st)).
Proof.
  intros Hk. unfold sock_recv, bind, get.
  rewrite bool_decide_eq_false_2 by done.
  by destruct (recv_queue n (inbound k st)) as [data q'].
Qed.

(** The copying loop ends: with the bound that [receiveData] gives it, it
    reads the data connection to its end, in reads of at most 1024 bytes,
    and the file holds what it held followed by all that was read. *)
Lemma copy_loop_run (fuel : nat) (name : pystr) (st : state) (acc : bytes) :
  (pending (data_in st) < fuel)%nat →
  fs st !! name = Some acc →
  ∃ reads,
    Forall (λ c, c ≠ [] ∧ (length c ≤ 1024)%nat) reads
    ∧ concat reads = concat (data_in st)
    ∧ copy_loop fuel DataConn name st
      = (Ret tt,
         mkState (control_in st) [] (stdin st)
           (<[name := acc ++ concat (data_in st)]> (fs st))
           (bind_ok st) (connect_ok st) (open_socks st)
           (trace st ++ copy_trace name reads)).
Proof.
  revert st acc. induction fuel as [|fuel IH]; intros st acc Hfuel Hacc;
    [lia|].
  cbn [copy_loop]. unfold bind at 1. rewrite sock_recv_run by done.
  destruct (recv_queue 1024 (inbound DataConn st)) as [data q'] eqn:Hq.
  apply recv_queue_spec in Hq as (Hcat & Hlen & Hnil & Hpend); [|lia].
  destruct st as [ci di si fsi bo co os tr]. cbn in *.
  destruct data as [|b d].
  - exists []. rewrite Hnil in * by done. cbn in Hcat. rewrite <- Hcat.
    split; [done|]. split; [done|].
    unfold ret, log, put_data_in. cbn.
    by rewrite app_nil_r, insert_id.
  - set (st2 := mkState ci q' si (<[name := acc ++ b :: d]> fsi) bo co os
                  ((tr ++ [ERecv DataConn (b :: d)])
                   ++ [EWrite name (b :: d)])).
    destruct (IH st2 (acc ++ b :: d)) as (reads & Hall & Hcr & Hrun).
    { cbn. specialize (Hpend ltac:(done)). lia. }
    { cbn. apply lookup_insert_eq. }
    exists ((b :: d) :: reads). split.
    { constructor; [split; [done | cbn in *; lia] | done]. }
    split.
    { cbn in *. by rewrite Hcr. }
    unfold file_write, bind, emit, modify, get, log, put_data_in, put_fs.
    cbn. rewrite Hacc. cbn. fold st2. rewrite Hrun. cbn.
    rewrite insert_insert_eq, <- Hcat.
    unfold copy_trace. cbn. by rewrite <- !app_assoc.
Qed.

(** ** Receiving a file *)

(** Lines 166 to 175 of [receiveData], from the opening of the file on:
    the file ends up holding exactly what the data connection carried. *)
Lemma store_run (name : pystr) (st : state) :
  ∃ reads,
    Forall (λ c, c ≠ [] ∧ (length c ≤ 1024)%nat) reads
    ∧ concat reads = concat (data_in st)
    ∧ (open_wb name;;
       print (lit "Transferring " ++ name ++ lit ".");;
       q <- get data_in;;
       copy_loop (S (pending q)) DataConn name;;
       file_close name;;
       print (lit "Transfer complete.");;
       file_close name;;
       ret tt) st
      = (Ret tt,
         mkState (control_in st) [] (stdin st)
           (<[name := concat (data_in st)]> (fs st))
           (bind_ok st) (connect_ok st) (open_socks st)
           (trace st
            ++ [EOpenWB name; EPrint (lit "Transferring " ++ name ++ lit ".")]
            ++ copy_trace name reads
            ++ [ECloseFile name; EPrint (lit "Transfer complete.");
                ECloseFile name])).
Proof.
  destruct st as [ci di si fsi bo co os tr].
  set (st2 := mkState ci di si (<[name := []]> fsi) bo co os
                ((tr ++ [EOpenWB name])
                 ++ [EPrint (lit "Transferring " ++ name ++ lit ".")])).
  destruct (copy_loop_run (S (pending di)) name st2 [])
    as (reads & Hall & Hcat & Hrun).
  { cbn. lia. }
  { cbn. apply lookup_insert_eq. }
  exists reads. split; [done|]. split; [done|].
  unfold open_wb, print, file_close, bind, emit, modify, get, ret, log,
    put_fs.
  cbn [control_in data_in stdin fs bind_ok connect_ok open_socks trace].
  fold st2. rewrite Hrun.
  cbn [control_in data_in stdin fs bind_ok connect_ok open_socks trace st2].
  rewrite insert_insert_eq. cbn [app]. by rewrite <- !app_assoc.
Qed.

(** Unfolds the primitive steps at the head of a run. *)
Ltac run_prims :=
  unfold print, sock_close, socket_new, sock_accept, file_close, open_wb,
    isfile, input, bind, emit, modify, get, ret, raise, sys_exit, log,
    put_open_socks, put_inbound, put_control_in, put_data_in, put_stdin,
    put_fs;
  cbn [control_in data_in stdin fs bind_ok connect_ok open_socks trace].

(** The same on a state given by its fields: the steps are run by value,
    so that the state is rebuilt once a step. *)
Ltac run_steps :=
  cbv beta iota zeta delta
    [print sock_close socket_new sock_accept file_close open_wb isfile input
     bind emit modify get ret raise sys_exit log put_open_socks put_inbound
     put_control_in put_data_in put_stdin put_fs
     control_in data_in stdin fs bind_ok connect_ok open_socks trace].

(** *** GET: the message on the control connection, then the file *)

Section get.
Context (argv : list pystr) (name : pystr) (st : state).
Context (data : bytes) (q' : list bytes) (text : pystr).
Hypothesis Hcmd : arg argv 3 = Some (lit "-g").
Hypothesis Hrecv : recv_queue MAX_LIMIT (control_in st) = (data, q').
Hypothesis Hdec : utf8_decode data = Some text.

Lemma receiveData_get_read :
  receiveData argv Control DataConn st
  = (let status := strip NL text in
     if status_is_error status then
       print (lit "Message from server: " ++ status);;
       sock_close Control;;
       sock_close DataConn;;
       ret tt
     else
       name <- or_raise IndexError (arg argv 4);;
       exists_ <- isfile name;;
       abort <-
         (if exists_ : bool then
            overwrite <- input (overwrite_prompt name);;
            ret (bool_decide (lower overwrite = lit "n"))
          else ret false);;
       if abort : bool then
         print (lit "Transfer aborted.");;
         ret tt
       else
         open_wb name;;
         print (lit "Transferring " ++ name ++ lit ".");;
         q <- get data_in;;
         copy_loop (S (pending q)) DataConn name;;
         file_close name;;
         print (lit "Transfer complete.");;
         file_close name;;
         ret tt)
      (log (ERecv Control data) (put_control_in q' st)).
Proof.
  unfold receiveData. unfold bind at 1. rewrite Hcmd.
  cbn [or_raise ret].
  rewrite bool_decide_eq_false_2 by discriminate.
  rewrite bool_decide_eq_true_2 by done.
  unfold bind at 1. rewrite getMsg_run by done.
  cbn [inbound]. rewrite Hrecv, Hdec. reflexivity.
Qed.

Lemma receiveData_get_error :
  status_is_error (strip NL text) = true →
  receiveData argv Control DataConn st
  = (Ret tt,
     mkState q' (data_in st) (stdin st) (fs st) (bind_ok st) (connect_ok st)
       (open_socks st ∖ {[Control]} ∖ {[DataConn]})
       (trace st
        ++ [ERecv Control data;
            EPrint (lit "Message from server: " ++ strip NL text);
            EClose Control; EClose DataConn])).
Proof.
  intros Herr. rewrite receiveData_get_read. cbn zeta. rewrite Herr.
  destruct st as [ci di si fsi bo co os tr]. run_steps.
  by rewrite <- !app_assoc.
Qed.

Hypothesis Hname : arg argv 4 = Some name.
Hypothesis Hok : status_is_error (strip NL text) = false.

Lemma receiveData_get_abort (old : bytes) (ans : pystr) (rest : list pystr) :
  fs st !! name = Some old →
  stdin st = ans :: rest →
  lower ans = lit "n" →
  receiveData argv Control DataConn st
  = (Ret tt,
     mkState q' (data_in st) rest (fs st) (bind_ok st) (connect_ok st)
       (open_socks st)
       (trace st
        ++ [ERecv Control data; EInput (overwrite_prompt name);
            EPrint (lit "Transfer aborted.")])).
Proof.
  intros Hfs Hin Hans. rewrite receiveData_get_read. cbn zeta.
  rewrite Hok, Hname. cbn [or_raise].
  unfold bind at 1. cbn [ret]. unfold bind at 1, isfile at 1.
  run_prims. rewrite Hfs, Hin.
  rewrite (bool_decide_eq_true_2 (is_Some (Some old))) by eauto.
  run_prims. rewrite bool_decide_eq_true_2 by done.
  run_prims. by rewrite <- !app_assoc.
Qed.

Lemma receiveData_get_fresh :
  fs st !! name = None →
  ∃ reads,
    Forall (λ c, c ≠ [] ∧ (length c ≤ 1024)%nat) reads
    ∧ concat reads = concat (data_in st)
    ∧ receiveData argv Control DataConn st
      = (Ret tt,
         mkState q' [] (stdin st)
           (<[name := concat (data_in st)]> (fs st))
           (bind_ok st) (connect_ok st) (open_socks st)
           (trace st
            ++ [ERecv Control data; EOpenWB name;
                EPrint (lit "Transferring " ++ name ++ lit ".")]
            ++ copy_trace name reads
            ++ [ECloseFile name; EPrint (lit "Transfer complete.");
                ECloseFile name])).
Proof.
  intros Hfs. rewrite receiveData_get_read. cbn zeta.
  rewrite Hok, Hname. cbn [or_raise].
  unfold bind at 1. cbn [ret]. unfold bind at 1, isfile at 1.
  unfold bind at 1, get at 1, ret at 1. 
  set (st1 := log (ERecv Control data) (put_control_in q' st)).
  assert (fs st1 = fs st) as -> by done. rewrite Hfs.
  rewrite bool_decide_eq_false_2 by (by intros [? ?]).
  unfold bind at 1. cbn [ret].
  destruct (store_run name st1) as (reads & Hall & Hcat & ->).
  exists reads. split; [done|]. split; [done|].
  unfold st1. run_prims. by rewrite <- !app_assoc.
Qed.

Lemma receiveData_get_overwrite (old : bytes) (ans : pystr)
    (rest : list pystr) :
  fs st !! name = Some old →
  stdin st = ans :: rest →
  lower ans ≠ lit "n" →
  ∃ reads,
    Forall (λ c, c ≠ [] ∧ (length c ≤ 1024)%nat) reads
    ∧ concat reads = concat (data_in st)
    ∧ receiveData argv Control DataConn st
      = (Ret tt,
         mkState q' [] rest
           (<[name := concat (data_in st)]> (fs st))
           (bind_ok st) (connect_ok st) (open_socks st)
           (trace st
            ++ [ERecv Control data; EInput (overwrite_prompt name);
                EOpenWB name;
                EPrint (lit "Transferring " ++ name ++ lit ".")]
            ++ copy_trace name reads
            ++ [ECloseFile name; EPrint (lit "Transfer complete.");
                ECloseFile name])).
Proof.
  intros Hfs Hin Hans. rewrite receiveData_get_read. cbn zeta.
  rewrite Hok, Hname. cbn [or_raise].
  unfold bind at 1. cbn [ret]. unfold bind at 1, isfile at 1.
  unfold bind at 1, get at 1, ret at 1.
  set (st1 := log (ERecv Control data) (put_control_in q' st)).
  assert (fs st1 = fs st) as -> by done. rewrite Hfs.
  rewrite bool_decide_eq_true_2 by eauto.
  unfold bind at 1. cbn [ret]. unfold bind at 1, input at 1.
  unfold bind at 1, emit at 1, modify at 1.
  unfold bind at 1, get at 1.
  assert (stdin (log (EInput (overwrite_prompt name)) st1) = ans :: rest)
    as -> by done.
  unfold bind at 1, modify at 1. cbn [ret].
  rewrite bool_decide_eq_false_2 by done.
  set (st2 := put_stdin rest (log (EInput (overwrite_prompt name)) st1)).
  destruct (store_run name st2) as (reads & Hall & Hcat & ->).
  exists reads. split; [done|]. split; [done|].
  unfold st2, st1. run_prims. by rewrite <- !app_assoc.
Qed.

End get.

(** ** The GET path of [receiveData] *)

(** C6: for a GET, [receiveData] first reads one message from the control
    connection.  When that message contains ["ERROR"], it prints it, closes
    the control and the data connection and returns: nothing was read from
    the data connection and no file was created or changed. *)
Theorem receiveData_deferred_error (argv : list pystr) (st : state)
    (data : bytes) (q' : list bytes) (text : pystr) :
  arg argv 3 = Some (lit "-g") →
  recv_queue MAX_LIMIT (control_in st) = (data, q') →
  utf8_decode data = Some text →
  status_is_error (strip NL text) = true →
  ∃ st',
    receiveData argv Control DataConn st = (Ret tt, st')
    ∧ trace st' = trace st
        ++ [ERecv Control data;
            EPrint (lit "Message from server: " ++ strip NL text);
            EClose Control; EClose DataConn]
    ∧ fs st' = fs st
    ∧ data_in st' = data_in st
    ∧ control_in st' = q'
    ∧ open_socks st' = open_socks st ∖ {[Control]} ∖ {[DataConn]}.
Proof.
  intros Hcmd Hrecv Hdec Herr.
  rewrite (receiveData_get_error argv st data q' text) by done.
  by eexists.
Qed.

(** The server reports a missing file after its acknowledgement. *)
Lemma receiveData_deferred_error_witness :
  ∃ st',
    receiveData get_argv Control DataConn report_missing_st = (Ret tt, st')
    ∧ trace st' = trace report_missing_st
        ++ [ERecv Control (ascii_bytes "ERROR: file not found");
            EPrint (lit "Message from server: "
                    ++ strip NL (lit "ERROR: file not found"));
            EClose Control; EClose DataConn]
    ∧ fs st' = fs report_missing_st
    ∧ data_in st' = data_in report_missing_st
    ∧ control_in st' = []
    ∧ open_socks st'
      = open_socks report_missing_st ∖ {[Control]} ∖ {[DataConn]}.
Proof.
  apply (receiveData_deferred_error get_argv report_missing_st
           (ascii_bytes "ERROR: file not found") []
           (lit "ERROR: file not found")); reflexivity.
Defined.

(** The GET path when it gets as far as the file: what [receiveData] returns
    and what it has done by then. *)
Lemma receiveData_get_proceeds (argv : list pystr) (name : pystr)
    (st : state) (data : bytes) (q' : list bytes) (text : pystr) :
  arg argv 3 = Some (lit "-g") →
  arg argv 4 = Some name →
  recv_queue MAX_LIMIT (control_in st) = (data, q') →
  utf8_decode data = Some text →
  status_is_error (strip NL text) = false →
  (fs st !! name = None
   ∨ ∃ old ans rest, fs st !! name = Some old ∧ stdin st = ans :: rest
                     ∧ ans ≠ lit "n" ∧ ans ≠ lit "N") →
  ∃ reads st' asked,
    receiveData argv Control DataConn st = (Ret tt, st')
    ∧ Forall (λ c, c ≠ [] ∧ (length c ≤ 1024)%nat) reads
    ∧ concat reads = concat (data_in st)
    ∧ fs st' = <[name := concat reads]> (fs st)
    ∧ data_in st' = []
    ∧ trace st' = trace st
        ++ [ERecv Control data] ++ asked
        ++ [EOpenWB name; EPrint (lit "Transferring " ++ name ++ lit ".")]
        ++ copy_trace name reads
        ++ [ECloseFile name; EPrint (lit "Transfer complete.");
            ECloseFile name]
    ∧ (asked = [] ∨ asked = [EInput (overwrite_prompt name)]).
Proof.
  intros Hcmd Hname Hrecv Hdec Hok [Hfs | (old & ans & rest & Hfs & Hin & Hn1 & Hn2)].
  - destruct (receiveData_get_fresh argv name st data q' text)
      as (reads & Hall & Hcat & Hrun); try done.
    exists reads, (mkState q' [] (stdin st)
                     (<[name := concat (data_in st)]> (fs st))
                     (bind_ok st) (connect_ok st) (open_socks st)
                     (trace st
                      ++ [ERecv Control data; EOpenWB name;
                          EPrint (lit "Transferring " ++ name ++ lit ".")]
                      ++ copy_trace name reads
                      ++ [ECloseFile name; EPrint (lit "Transfer complete.");
                          ECloseFile name])), [].
    rewrite Hcat. repeat split; try done. by left.
  - destruct (receiveData_get_overwrite argv name st data q' text Hcmd Hrecv
                Hdec Hname Hok old ans rest)
      as (reads & Hall & Hcat & Hrun); try done.
    { rewrite lower_is_n. tauto. }
    exists reads, (mkState q' [] rest
                     (<[name := concat (data_in st)]> (fs st))
                     (bind_ok st) (connect_ok st) (open_socks st)
                     (trace st
                      ++ [ERecv Control data; EInput (overwrite_prompt name);
                          EOpenWB name;
                          EPrint (lit "Transferring " ++ name ++ lit ".")]
                      ++ copy_trace name reads
                      ++ [ECloseFile name; EPrint (lit "Transfer complete.");
                          ECloseFile name])),
      [EInput (overwrite_prompt name)].
    rewrite Hcat. repeat split; try done. by right.
Qed.

(** C4: for a GET whose control message is no error and whose transfer
    the user does not decline, [receiveData] reads the data connection in
    reads of at most 1024 bytes until a read returns nothing, writes each
    read to the file named by the request, so that the file holds exactly
    the bytes received, and then prints ["Transfer complete."]. *)
Theorem receiveData_get_writes_stream (argv : list pystr) (name : pystr)
    (st : state) (data : bytes) (q' : list bytes) (text : pystr) :
  arg argv 3 = Some (lit "-g") →
  arg argv 4 = Some name →
  recv_queue MAX_LIMIT (control_in st) = (data, q') →
  utf8_decode data = Some text →
  status_is_error (strip NL text) = false →
  (fs st !! name = None
   ∨ ∃ old ans rest, fs st !! name = Some old ∧ stdin st = ans :: rest
                     ∧ ans ≠ lit "n" ∧ ans ≠ lit "N") →
  ∃ reads st' asked,
    receiveData argv Control DataConn st = (Ret tt, st')
    ∧ Forall (λ c, c ≠ [] ∧ (length c ≤ 1024)%nat) reads
    ∧ concat reads = concat (data_in st)
    ∧ fs st' = <[name := concat reads]> (fs st)
    ∧ data_in st' = []
    ∧ trace st' = trace st
        ++ [ERecv Control data] ++ asked
        ++ [EOpenWB name; EPrint (lit "Transferring " ++ name ++ lit ".")]
        ++ copy_trace name reads
        ++ [ECloseFile name; EPrint (lit "Transfer complete.");
            ECloseFile name]
    ∧ (asked = [] ∨ asked = [EInput (overwrite_prompt name)]).
Proof.
  intros Hcmd Hname Hrecv Hdec Hok Hgo.
  by apply (receiveData_get_proceeds argv name st data q' text).
Qed.

(** [report.csv] does not exist here and the server sends six bytes. *)
Lemma receiveData_get_writes_stream_witness :
  ∃ reads st' asked,
    receiveData get_argv Control DataConn report_fresh_st = (Ret tt, st')
    ∧ Forall (λ c, c ≠ [] ∧ (length c ≤ 1024)%nat) reads
    ∧ concat reads = concat (data_in report_fresh_st)
    ∧ fs st' = <[lit "report.csv" := concat reads]> (fs report_fresh_st)
    ∧ data_in st' = []
    ∧ trace st' = trace report_fresh_st
        ++ [ERecv Control (ascii_bytes "SENDING")] ++ asked
        ++ [EOpenWB (lit "report.csv");
            EPrint (lit "Transferring " ++ lit "report.csv" ++ lit ".")]
        ++ copy_trace (lit "report.csv") reads
        ++ [ECloseFile (lit "report.csv"); EPrint (lit "Transfer complete.");
            ECloseFile (lit "report.csv")]
    ∧ (asked = [] ∨ asked = [EInput (overwrite_prompt (lit "report.csv"))]).
Proof.
  apply (receiveData_get_writes_stream get_argv (lit "report.csv")
           report_fresh_st (ascii_bytes "SENDING") [] (lit "SENDING"));
    try reflexivity.
  left. reflexivity.
Defined.

(** C10: for a GET that passes the check of the control message and the
    question to the user, the file is opened for writing, which empties
    it, before anything is read from the data connection; it ends up
    holding exactly what the data connection carried.  So when the server
    closes the data connection without sending a byte, a file that existed
    is left empty. *)
Theorem receiveData_truncates_first (argv : list pystr) (name : pystr)
    (st : state) (data : bytes) (q' : list bytes) (text : pystr) :
  arg argv 3 = Some (lit "-g") →
  arg argv 4 = Some name →
  recv_queue MAX_LIMIT (control_in st) = (data, q') →
  utf8_decode data = Some text →
  status_is_error (strip NL text) = false →
  (fs st !! name = None
   ∨ ∃ old ans rest, fs st !! name = Some old ∧ stdin st = ans :: rest
                     ∧ ans ≠ lit "n" ∧ ans ≠ lit "N") →
  ∃ st' pre post,
    receiveData argv Control DataConn st = (Ret tt, st')
    ∧ trace st' = trace st ++ pre ++ [EOpenWB name] ++ post
    ∧ (∀ c, ERecv DataConn c ∉ pre)
    ∧ (∀ c, EWrite name c ∉ pre)
    ∧ fs st' !! name = Some (concat (data_in st))
    ∧ (concat (data_in st) = [] → fs st' !! name = Some []).
Proof.
  intros Hcmd Hname Hrecv Hdec Hok Hgo.
  destruct (receiveData_get_proceeds argv name st data q' text)
    as (reads & st' & asked & Hrun & _ & Hcat & Hfs & _ & Htr & Hasked);
    try done.
  exists st', ([ERecv Control data] ++ asked),
    ([EPrint (lit "Transferring " ++ name ++ lit ".")]
     ++ copy_trace name reads
     ++ [ECloseFile name; EPrint (lit "Transfer complete.");
         ECloseFile name]).
  split; [done|]. split.
  { rewrite Htr. by rewrite <- !app_assoc. }
  assert (fs st' !! name = Some (concat (data_in st))) as Hlook.
  { rewrite Hfs, Hcat. apply lookup_insert_eq. }
  repeat split; [| |done|by intros <-].
  - intros c Hc. destruct Hasked as [-> | ->]; cbn [app] in Hc;
      repeat (apply elem_of_cons in Hc as [Hc | Hc]; [discriminate|]);
      by apply elem_of_nil in Hc.
  - intros c Hc. destruct Hasked as [-> | ->]; cbn [app] in Hc;
      repeat (apply elem_of_cons in Hc as [Hc | Hc]; [discriminate|]);
      by apply elem_of_nil in Hc.
Qed.

(** [report.csv] exists here, the user agrees, and the server sends
    nothing. *)
Lemma receiveData_truncates_first_witness :
  ∃ st' pre post,
    receiveData get_argv Control DataConn report_empty_st = (Ret tt, st')
    ∧ trace st'
      = trace report_empty_st ++ pre ++ [EOpenWB (lit "report.csv")] ++ post
    ∧ (∀ c, ERecv DataConn c ∉ pre)
    ∧ (∀ c, EWrite (lit "report.csv") c ∉ pre)
    ∧ fs st' !! lit "report.csv" = Some (concat (data_in report_empty_st))
    ∧ (concat (data_in report_empty_st) = []
       → fs st' !! lit "report.csv" = Some []).
Proof.
  apply (receiveData_truncates_first get_argv (lit "report.csv")
           report_empty_st (ascii_bytes "SENDING") [] (lit "SENDING"));
    try reflexivity.
  right. exists (ascii_bytes "old"), (lit "y"), [].
  repeat split; try reflexivity; discriminate.
Defined.

(** ** How a run can end *)

Lemma wp_bind {A B} (m : M A) (k : A → M B) Q H st :
  wp m (λ a, wp (k a) Q H) H st → wp (bind m k) Q H st.
Proof. unfold wp, bind. by destruct (m st) as [[a|h] st']. Qed.

Lemma wp_mono {A} (m : M A) (Q Q' : A → state → Prop)
    (H H' : halt → state → Prop) st :
  wp m Q H st →
  (∀ a st', Q a st' → Q' a st') →
  (∀ h st', H h st' → H' h st') →
  wp m Q' H' st.
Proof. unfold wp. destruct (m st) as [[a|h] st']; eauto. Qed.

Lemma no_close_snoc (tr : list event) (e : event) :
  (∀ k, e ≠ EClose k) → no_close tr → no_close (tr ++ [e]).
Proof.
  intros He Htr k. rewrite elem_of_app, list_elem_of_singleton.
  intros [? | ?]; [by eapply Htr | by eapply He].
Qed.

Lemma keeps_wp {A} (I : state → Prop) (m : M A) Q H st :
  keeps I m → I st →
  (∀ a st', I st' → Q a st') →
  (∀ e st', I st' → H (HRaise e) st') →
  wp m Q H st.
Proof.
  intros Hk HI HQ HH. eapply wp_mono; [by apply Hk | done |].
  intros [c|e|] st'; [done | apply HH | done].
Qed.

Section keeps.
Context (I : state → Prop) `{!Stable I}.

Lemma keeps_bind {A B} (m : M A) (k : A → M B) :
  keeps I m → (∀ a, keeps I (k a)) → keeps I (bind m k).
Proof.
  intros Hm Hk st HI. apply wp_bind. eapply wp_mono; [by apply Hm | |done].
  intros a st' HI'. by apply Hk.
Qed.

Lemma keeps_ret {A} (a : A) : keeps I (ret a).
Proof. by intros st HI. Qed.

Lemma keeps_raise {A} (e : exn) : keeps I (raise e : M A).
Proof. by intros st HI. Qed.

Lemma keeps_or_raise {A} (e : exn) (o : option A) : keeps I (or_raise e o).
Proof. destruct o; [apply keeps_ret | apply keeps_raise]. Qed.

Lemma keeps_get {A} (f : state → A) : keeps I (get f).
Proof. by intros st HI. Qed.

Lemma keeps_emit (e : event) : (∀ k, e ≠ EClose k) → keeps I (emit e).
Proof. intros He st HI. by apply I_log. Qed.

Lemma keeps_print (line : pystr) : keeps I (print line).
Proof. by apply keeps_emit. Qed.

Lemma keeps_file_close (name : pystr) : keeps I (file_close name).
Proof. by apply keeps_emit. Qed.

Lemma keeps_put_fs (m : gmap pystr bytes) : keeps I (modify (put_fs m)).
Proof. intros st HI. by apply I_fs. Qed.

Lemma keeps_input (prompt : pystr) : keeps I (input prompt).
Proof.
  unfold input. apply keeps_bind; [by apply keeps_emit | intros _].
  apply keeps_bind; [apply keeps_get | intros [|a l]].
  - apply keeps_raise.
  - apply keeps_bind; [|intros _; apply keeps_ret].
    intros st HI. by apply I_stdin.
Qed.

Lemma keeps_isfile (name : pystr) : keeps I (isfile name).
Proof.
  unfold isfile. apply keeps_bind; [apply keeps_get | intros m].
  apply keeps_ret.
Qed.

Lemma keeps_open_wb (name : pystr) : keeps I (open_wb name).
Proof.
  unfold open_wb. apply keeps_bind; [by apply keeps_emit | intros _].
  apply keeps_bind; [apply keeps_get | intros m]. apply keeps_put_fs.
Qed.

Lemma keeps_file_write (name : pystr) (data : bytes) :
  keeps I (file_write name data).
Proof.
  unfold file_write. apply keeps_bind; [by apply keeps_emit | intros _].
  apply keeps_bind; [apply keeps_get | intros m]. apply keeps_put_fs.
Qed.

Lemma keeps_sock_recv (k : sock) (n : nat) : keeps I (sock_recv k n).
Proof.
  unfold sock_recv. case_bool_decide; [apply keeps_raise|].
  apply keeps_bind; [apply keeps_get | intros q].
  destruct (recv_queue n q) as [data q'].
  apply keeps_bind; [|intros _].
  { intros st HI. destruct k; [done | by apply I_control_in
                                     | by apply I_data_in]. }
  apply keeps_bind; [by apply keeps_emit | intros _]. apply keeps_ret.
Qed.

Lemma keeps_getMsg (k : sock) : keeps I (getMsg k).
Proof.
  unfold getMsg. apply keeps_bind; [apply keeps_sock_recv | intros data].
  apply keeps_bind; [apply keeps_or_raise | intros text]. apply keeps_ret.
Qed.

(** The copying loop within its bound: it returns. *)
Lemma copy_loop_keeps (fuel : nat) (name : pystr) (st : state) :
  (pending (data_in st) < fuel)%nat → I st →
  wp (copy_loop fuel DataConn name) (λ _, I) (λ _ _, False) st.
Proof.
  revert st. induction fuel as [|fuel IH]; intros st Hfuel HI; [lia|].
  cbn [copy_loop]. apply wp_bind. unfold wp at 1.
  rewrite sock_recv_run by done.
  destruct (recv_queue 1024 (inbound DataConn st)) as [data q'] eqn:Hq.
  apply recv_queue_spec in Hq as (_ & _ & _ & Hpend); [|lia].
  assert (I (log (ERecv DataConn data) (put_inbound DataConn q' st))) as HI'.
  { apply I_log; [done|]. by apply I_data_in. }
  destruct data as [|b d]; [done|].
  apply wp_bind. unfold wp at 1, file_write, bind, emit, modify, get.
  apply IH.
  - specialize (Hpend ltac:(done)). cbn in *. lia.
  - apply I_fs. by apply I_log.
Qed.

Lemma keeps_copy {B} (name : pystr) (k : M B) :
  keeps I k →
  keeps I (q <- get data_in;; copy_loop (S (pending q)) DataConn name;; k).
Proof.
  intros Hk st HI. apply wp_bind. unfold wp at 1, get. apply wp_bind.
  eapply wp_mono; [apply copy_loop_keeps; [lia | done] | | done].
  intros ? st' HI'. by apply Hk.
Qed.

End keeps.

(** Proves that a computation made of steps that keep [I] keeps [I]. *)
Ltac keeps_steps :=
  repeat match goal with
  | |- keeps _ (bind (get data_in) _) => apply keeps_copy
  | |- keeps _ (bind _ _) => apply keeps_bind; [|intros ?]
  | |- keeps _ (ret _) => apply keeps_ret
  | |- keeps _ (raise _) => apply keeps_raise
  | |- keeps _ (or_raise _ _) => apply keeps_or_raise
  | |- keeps _ (get _) => apply keeps_get
  | |- keeps _ (print _) => apply keeps_print
  | |- keeps _ (emit _) =>
    apply keeps_emit; first [solve [apply _] | done]
  | |- keeps _ (input _) => apply keeps_input
  | |- keeps _ (isfile _) => apply keeps_isfile
  | |- keeps _ (open_wb _) => apply keeps_open_wb
  | |- keeps _ (file_close _) => apply keeps_file_close
  | |- keeps _ (getMsg _) => apply keeps_getMsg
  | |- keeps _ (if ?b then _ else _) => destruct b
  | |- Stable _ => solve [apply _]
  end.

#[global] Instance quiet_stable : Stable quiet.
Proof.
  split; try done. intros e st He Hq. by apply no_close_snoc.
Qed.

#[global] Instance before_accept_stable : Stable before_accept.
Proof.
  split; try done. intros e st He [? Hq]. split; [done|].
  by apply no_close_snoc.
Qed.

Lemma keeps_socket_new_quiet (k : sock) : keeps quiet (socket_new k).
Proof.
  intros st Hq. unfold wp, quiet. run_prims. by apply no_close_snoc.
Qed.

Lemma keeps_socket_new_before (k : sock) :
  k ≠ DataConn → keeps before_accept (socket_new k).
Proof.
  intros Hk st [Hd Hq]. unfold wp, before_accept. run_prims.
  split; [set_solver | by apply no_close_snoc].
Qed.

Lemma all_closed (o : gset sock) :
  o ∖ {[Control]} ∖ {[Listener]} ∖ {[DataConn]} = ∅.
Proof. apply leibniz_equiv. intros []; set_solver. Qed.

Lemma both_closed (o : gset sock) :
  DataConn ∉ o → o ∖ {[Control]} ∖ {[Listener]} = ∅.
Proof. intros Hd. apply leibniz_equiv. intros []; set_solver. Qed.

(** [syntaxCheck] returns without an effect, or prints the usage and
    exits with status 1. *)
Lemma badSyntaxExit_wp (st : state) :
  wp (badSyntaxExit;; ret tt) (λ _ _, False)
    (λ h st', h = HExit 1 ∧ open_socks st' = open_socks st
              ∧ (no_close (trace st) → no_close (trace st'))) st.
Proof.
  unfold wp, badSyntaxExit. run_prims. repeat split. intros Hq.
  apply no_close_snoc; [done|]. by apply no_close_snoc.
Qed.

Lemma syntaxCheck_wp (args : list pystr) (st : state) :
  wp (syntaxCheck args) (λ _ st', st' = st)
    (λ h st', h = HExit 1 ∧ open_socks st' = open_socks st
              ∧ (no_close (trace st) → no_close (trace st'))) st.
Proof.
  pose proof (badSyntaxExit_wp st) as Hbad.
  unfold wp, bind in Hbad.
  destruct (badSyntaxExit st) as [[[]|h] st'] eqn:Ebad; [done|].
  unfold syntaxCheck, wp, bind.
  destruct (bool_decide (length args < 5)%nat
            || bool_decide (6 < length args)%nat) eqn:Hlen.
  { by rewrite Ebad. }
  apply orb_false_iff in Hlen as [Hl1 Hl2].
  apply bool_decide_eq_false_1 in Hl1, Hl2.
  destruct (lookup_lt_is_Some_2 args 3 ltac:(lia)) as [a3 Ha3].
  unfold arg. rewrite Ha3. unfold or_raise, ret.
  destruct (_ && _); [by rewrite Ebad | done].
Qed.

(** [receiveData] returns or raises; when it raises, no socket has been
    closed. *)
Lemma receiveData_wp (argv : list pystr) (st : state) :
  quiet st →
  wp (receiveData argv Control DataConn) (λ _ _, True)
    (λ h st', match h with HRaise _ => quiet st' | _ => False end) st.
Proof.
  intros Hq. unfold receiveData. apply wp_bind.
  eapply (keeps_wp quiet); [keeps_steps | done | | done].
  clear st Hq. intros a3 st Hq.
  destruct (bool_decide (a3 = lit "-l")).
  { eapply (keeps_wp quiet); [keeps_steps | done | done | done]. }
  destruct (bool_decide (a3 = lit "-g")); [|done].
  apply wp_bind. eapply (keeps_wp quiet); [keeps_steps | done | | done].
  clear st Hq. intros status st Hq.
  destruct (status_is_error status).
  { unfold wp. by run_prims. }
  eapply (keeps_wp quiet); [keeps_steps | done | done | done].
Qed.

(** The program up to the sending of the request: it returns with the
    data connection not yet there and nothing closed, or ends cleanly. *)
Lemma send_request_wp (argv : list pystr) (st : state) :
  open_socks st = ∅ → quiet st →
  wp (send_request argv) (λ _, before_accept) clean_end st.
Proof.
  intros Ho Hq. unfold send_request. apply wp_bind.
  eapply wp_mono; [apply syntaxCheck_wp | |].
  2:{ intros h st' (-> & Ho' & Hq'). cbn. by rewrite Ho', Ho. }
  intros _ st' ->.
  eapply (keeps_wp before_accept); [| | done |].
  - unfold getDataPort, socketStart, initiateContact. keeps_steps;
      by apply keeps_socket_new_before.
  - split; [|done]. rewrite Ho. set_solver.
  - by intros e st' [_ ?].
Qed.

Lemma sock_accept_wp (listener : sock) H (st : state) :
  quiet st →
  wp (sock_accept listener) (λ dp st', dp = DataConn ∧ quiet st') H st.
Proof.
  intros Hq. unfold wp, sock_accept, quiet. run_prims. split; [done|].
  apply no_close_snoc; [done|]. by apply no_close_snoc.
Qed.

(** The program from the accepting of the data connection on: it ends
    cleanly. *)
Lemma transfer_wp (argv : list pystr) (dataPort : Z) (st : state) :
  quiet st →
  wp (transfer argv dataPort) (λ _ _, False) clean_end st.
Proof.
  intros Hq. unfold transfer. apply wp_bind.
  eapply wp_mono; [by apply sock_accept_wp | | done].
  clear st Hq. intros dp st [-> Hq].
  apply wp_bind. eapply (keeps_wp quiet); [keeps_steps | done | | done].
  clear st Hq. intros _ st Hq.
  apply wp_bind. eapply (keeps_wp quiet); [keeps_steps | done | | done].
  clear st Hq. intros _ st Hq.
  apply wp_bind. eapply wp_mono; [by apply receiveData_wp | |].
  2:{ by intros [| |] st'. }
  intros _ [ci di si fsi bo co os tr] _. unfold wp. run_steps.
  apply all_closed.
Qed.

(** Every run of the program ends, and ends cleanly. *)
Lemma main_wp (argv : list pystr) (st : state) :
  open_socks st = ∅ → quiet st →
  wp (main argv) (λ _ _, False) clean_end st.
Proof.
  intros Ho Hq. unfold main. apply wp_bind.
  eapply wp_mono; [by apply send_request_wp | | done].
  clear st Ho Hq. intros [port dataPort] st [Hd Hq].
  apply wp_bind.
  eapply (keeps_wp before_accept); [keeps_steps | done | |].
  2:{ by intros e st' [_ ?]. }
  clear st Hd Hq. intros confirm st [Hd Hq].
  apply wp_bind. destruct (confirm_is_error confirm).
  - destruct st as [ci di si fsi bo co os tr]. unfold wp at 1. run_steps.
    by apply both_closed.
  - eapply (keeps_wp quiet); [keeps_steps | done | | done].
    intros _ st' Hq'. by apply transfer_wp.
Qed.

(** ** The whole program *)

Lemma bind_Ret_inv {A B} (m : M A) (k : A → M B) st b st2 :
  bind m k st = (Ret b, st2) →
  ∃ a st1, m st = (Ret a, st1) ∧ k a st1 = (Ret b, st2).
Proof.
  unfold bind. destruct (m st) as [[a|h] st1]; [eauto | discriminate].
Qed.

Lemma or_raise_Ret_inv {A} (e : exn) (o : option A) st a st1 :
  or_raise e o st = (Ret a, st1) → o = Some a ∧ st1 = st.
Proof. destruct o; cbn; [by intros [= -> ->] | discriminate]. Qed.

Lemma syntaxCheck_Ret_inv (args : list pystr) st a st1 :
  syntaxCheck args st = (Ret a, st1) → st1 = st.
Proof.
  intros H. pose proof (syntaxCheck_wp args st) as Hwp.
  unfold wp in Hwp. by rewrite H in Hwp.
Qed.

Lemma getDataPort_Ret_inv (argv : list pystr) st dp st1 :
  getDataPort argv st = (Ret dp, st1) → st1 = st.
Proof.
  unfold getDataPort. intros H.
  apply bind_Ret_inv in H as (a & st' & H1 & H).
  apply or_raise_Ret_inv in H as [_ ->].
  destruct (bool_decide _); by apply or_raise_Ret_inv in H1 as [_ ->].
Qed.

(** When the program gets as far as sending the request, it has opened
    the listener and the control connection, in this order, and has not
    accepted or closed anything. *)
Lemma send_request_Ret_inv (argv : list pystr) st port dataPort st1 :
  send_request argv st = (Ret (port, dataPort), st1) →
  ∃ host p req,
    st1 = mkState (control_in st) (data_in st) (stdin st) (fs st)
            (bind_ok st) (connect_ok st)
            ({[Control]} ∪ ({[Listener]} ∪ open_socks st))
            (trace st
             ++ [ESocket Listener; ESetReuseAddr; EBind (lit "") dataPort;
                 EListen;
                 EPrint (lit "Listening on data port " ++ str dataPort);
                 ESocket Control; EConnect host p; ESleep 1; ESend req]).
Proof.
  unfold send_request. intros H.
  apply bind_Ret_inv in H as (? & st' & H1 & H).
  apply syntaxCheck_Ret_inv in H1 as ->.
  apply bind_Ret_inv in H as (host & st' & H1 & H).
  apply or_raise_Ret_inv in H1 as [_ ->].
  apply bind_Ret_inv in H as (port' & st' & H1 & H).
  apply or_raise_Ret_inv in H1 as [_ ->].
  apply bind_Ret_inv in H as (dp & st' & H1 & H).
  apply getDataPort_Ret_inv in H1 as ->.
  apply bind_Ret_inv in H as (startString & st' & H1 & H).
  apply or_raise_Ret_inv in H1 as [_ ->].
  unfold socketStart, initiateContact in H.
  revert H. run_prims. destruct (bind_ok st); [|discriminate].
  run_prims.
  destruct (arg argv 1) as [host'|]; [|discriminate].
  destruct (arg argv 2) as [port''|]; [|discriminate].
  unfold or_raise. run_prims.
  destruct (py_int port'') as [p|]; [|discriminate].
  destruct (connect_ok st); [|discriminate]. run_prims.
  destruct (utf8_encode startString) as [req|]; [|discriminate].
  intros [= <- <- <-]. exists host', p, req.
  by rewrite <- !app_assoc.
Qed.

(** C3: when the first reply after the request is taken for an error by
    the check of line 225, the program prints the reply, closes the control
    connection and the listener, and exits with status 0; it has not
    called [accept], and no socket is left open. *)
Theorem main_error_reply (argv : list pystr) (control data : list bytes)
    (lines : list pystr) (files : gmap pystr bytes) (bind_ connect : bool)
    (port : pystr) (dataPort : Z) (st1 : state) (reply : bytes)
    (q' : list bytes) (text : pystr) :
  send_request argv (initial control data lines files bind_ connect)
  = (Ret (port, dataPort), st1) →
  recv_queue MAX_LIMIT (control_in st1) = (reply, q') →
  utf8_decode reply = Some text →
  confirm_is_error (strip NL text) = true →
  ∃ st',
    main argv (initial control data lines files bind_ connect)
    = (Halt (HExit 0), st')
    ∧ exit_code (main argv (initial control data lines files bind_ connect)).1
      = Some 0%Z
    ∧ trace st' = trace st1
        ++ [ERecv Control reply; EPrint (strip NL text);
            EClose Control; EClose Listener]
    ∧ (EAccept ∉ trace st')
    ∧ open_socks st' = ∅.
Proof.
  intros Hsend Hrecv Hdec Herr.
  assert (main argv (initial control data lines files bind_ connect)
          = (Halt (HExit 0),
             mkState q' (data_in st1) (stdin st1) (fs st1) (bind_ok st1)
               (connect_ok st1)
               (open_socks st1 ∖ {[Control]} ∖ {[Listener]})
               (trace st1
                ++ [ERecv Control reply; EPrint (strip NL text);
                    EClose Control; EClose Listener]))) as Hmain.
  { unfold main. unfold bind at 1. rewrite Hsend.
    unfold bind at 1. rewrite getMsg_run by done.
    cbn [inbound]. rewrite Hrecv, Hdec. cbn zeta.
    unfold bind at 1. rewrite Herr.
    destruct st1 as [ci di si fsi bo co os tr]. run_steps.
    by rewrite <- !app_assoc. }
  eexists. split; [exact Hmain|]. rewrite Hmain.
  split; [done|]. split; [done|].
  apply send_request_Ret_inv in Hsend as (host & p & req & ->).
  cbn [trace open_socks initial]. split.
  - rewrite app_nil_l. intros Hin. cbn [app] in Hin.
    repeat (apply elem_of_cons in Hin as [Hin | Hin]; [discriminate|]).
    by apply elem_of_nil in Hin.
  - apply both_closed. set_solver.
Qed.

(** The server answers a LIST with [ERROR: invalid command]. *)
Lemma main_error_reply_witness :
  ∃ st1 st',
    send_request list_argv error_reply_st = (Ret (lit "30021", 50000%Z), st1)
    ∧ main list_argv error_reply_st = (Halt (HExit 0), st')
    ∧ exit_code (main list_argv error_reply_st).1 = Some 0%Z
    ∧ trace st' = trace st1
        ++ [ERecv Control (ascii_bytes "ERROR: invalid command");
            EPrint (strip NL (lit "ERROR: invalid command"));
            EClose Control; EClose Listener]
    ∧ (EAccept ∉ trace st')
    ∧ open_socks st' = ∅.
Proof.
  eexists.
  assert (∀ (P : state → Prop) x, (x ∧ ∃ st', P st') → ∃ st', x ∧ P st')
    as Hsw by naive_solver.
  apply Hsw. clear Hsw. split; [vm_compute; reflexivity|].
  apply (main_error_reply list_argv [ascii_bytes "ERROR: invalid command"]
           [] [] ∅ true true (lit "30021") 50000%Z _
           (ascii_bytes "ERROR: invalid command") []
           (lit "ERROR: invalid command")).
  - vm_compute. reflexivity.
  - reflexivity.
  - reflexivity.
  - reflexivity.
Defined.

(** ** Cleanup *)

(** C7, as the code has it: every run of the program ends, in [sys.exit]
    or in an uncaught exception.  When it ends in [sys.exit] (after the
    usage message, after an error reply, or after [receiveData] has
    returned), every socket that was created has been closed.  When it
    ends in an exception, the client has closed no socket at all.  Closing
    a socket twice leaves the same sockets open as closing it once. *)
Theorem main_cleanup (argv : list pystr) (control data : list bytes)
    (lines : list pystr) (files : gmap pystr bytes) (bind_ connect : bool) :
  match main argv (initial control data lines files bind_ connect) with
  | (Halt (HExit _), st') => open_socks st' = ∅
  | (Halt (HRaise _), st') => ∀ k, EClose k ∉ trace st'
  | (Halt HDiverge, _) => False
  | (Ret _, _) => False
  end
  ∧ ∀ k st,
      open_socks (sock_close k (sock_close k st).2).2
      = open_socks (sock_close k st).2.
Proof.
  split.
  - pose proof (main_wp argv (initial control data lines files bind_ connect))
      as Hwp.
    unfold wp in Hwp.
    destruct (main argv _) as [[a|[c|e|]] st']; apply Hwp; try done;
      intros k; apply not_elem_of_nil.
  - intros k st. unfold sock_close. run_prims. set_solver.
Qed.

(** C7 as stated fails when the server refuses the control connection:
    the listener and the socket of the control connection have been
    created, the run ends in [OSError], and neither socket is closed. *)
Lemma main_refused_leaves_sockets_open :
  ∃ st',
    main list_argv refused_st = (Halt (HRaise OSError), st')
    ∧ trace st'
      = [ESocket Listener; ESetReuseAddr; EBind (lit "") 50000; EListen;
         EPrint (lit "Listening on data port 50000"); ESocket Control]
    ∧ (EClose Listener ∉ trace st')
    ∧ Listener ∈ open_socks st'
    ∧ open_socks st' ≠ ∅.
Proof.
  exists (mkState [] [] [] ∅ true false ({[Control]} ∪ ({[Listener]} ∪ ∅))
            [ESocket Listener; ESetReuseAddr; EBind (lit "") 50000; EListen;
             EPrint (lit "Listening on data port 50000"); ESocket Control]).
  split; [vm_compute; reflexivity|].
  cbn [trace open_socks].
  split; [done|]. split; [|split].
  - intros Hin.
    repeat (apply elem_of_cons in Hin as [Hin | Hin]; [discriminate|]).
    by apply elem_of_nil in Hin.
  - set_solver.
  - set_solver.
Qed.

(** ** The session after the acknowledgement *)

(** When the first reply is no error, [main] accepts the data connection,
    calls [receiveData], and, when that returns, closes the three sockets
    and exits with status 0. *)
Lemma main_ack (argv : list pystr) (st0 st1 : state) (port : pystr)
    (dataPort : Z) (reply : bytes) (q1 : list bytes) (text1 : pystr) :
  send_request argv st0 = (Ret (port, dataPort), st1) →
  recv_queue MAX_LIMIT (control_in st1) = (reply, q1) →
  utf8_decode reply = Some text1 →
  confirm_is_error (strip NL text1) = false →
  main argv st0
  = match receiveData argv Control DataConn
            (accepted port dataPort reply q1 st1) with
    | (Ret _, st) => (Halt (HExit 0), closing st)
    | (Halt h, st) => (Halt h, st)
    end.
Proof.
  intros Hsend Hrecv Hdec Hok.
  unfold main. unfold bind at 1. rewrite Hsend.
  unfold bind at 1. rewrite getMsg_run by done.
  cbn [inbound]. rewrite Hrecv, Hdec. cbn zeta.
  unfold bind at 1. rewrite Hok.
  unfold print at 1, emit at 1, modify at 1.
  unfold transfer. unfold bind at 1.
  unfold sock_accept at 1, socket_new at 1.
  unfold bind at 1, emit at 1, modify at 1.
  unfold bind at 1, bind at 1, emit at 1, modify at 1.
  unfold bind at 1, get at 1. unfold modify at 1, ret at 1.
  unfold bind at 1, print at 1, emit at 1, modify at 1.
  unfold bind at 1, emit at 1, modify at 1.
  unfold bind at 1.
  match goal with
  | |- context [receiveData argv Control DataConn ?s] =>
    replace s with (accepted port dataPort reply q1 st1)
  end.
  2:{ destruct st1 as [ci di si fsi bo co os tr]. unfold accepted.
      run_steps. by rewrite <- !app_assoc. }
  destruct (receiveData argv Control DataConn _) as [[[]|h] st]; [|done].
  destruct st as [ci di si fsi bo co os tr]. unfold closing. run_steps.
  by rewrite <- !app_assoc.
Qed.

(** C5: in a GET session whose target file exists here, the client, after
    it has accepted the data connection, asks the user.  On the answer
    ["n"] or ["N"], and on no other, it prints ["Transfer aborted."]: no
    file is changed, nothing is read from the data connection, and the
    session closes its sockets and exits.  On any other answer, the empty
    one included, the file is opened anew and ends up holding what the data
    connection carried. *)
Theorem main_overwrite_prompt (argv : list pystr) (st0 st1 : state)
    (port : pystr) (dataPort : Z) (reply : bytes) (q1 : list bytes)
    (text1 : pystr) (name : pystr) (data : bytes) (q2 : list bytes)
    (text : pystr) (old : bytes) (ans : pystr) (rest : list pystr) :
  send_request argv st0 = (Ret (port, dataPort), st1) →
  recv_queue MAX_LIMIT (control_in st1) = (reply, q1) →
  utf8_decode reply = Some text1 →
  confirm_is_error (strip NL text1) = false →
  arg argv 3 = Some (lit "-g") →
  arg argv 4 = Some name →
  recv_queue MAX_LIMIT q1 = (data, q2) →
  utf8_decode data = Some text →
  status_is_error (strip NL text) = false →
  fs st1 !! name = Some old →
  stdin st1 = ans :: rest →
  ∃ st',
    main argv st0 = (Halt (HExit 0), st')
    ∧ open_socks st' = ∅
    ∧ (((ans = lit "n" ∨ ans = lit "N")
        ∧ fs st' = fs st1
        ∧ data_in st' = data_in st1
        ∧ trace st' = trace (accepted port dataPort reply q1 st1)
            ++ [ERecv Control data; EInput (overwrite_prompt name);
                EPrint (lit "Transfer aborted.");
                EClose Control; EClose Listener; EClose DataConn;
                EPrint (lit "** Operations complete. Closing connections. **")])
       ∨ (ans ≠ lit "n" ∧ ans ≠ lit "N"
          ∧ fs st' = <[name := concat (data_in st1)]> (fs st1)
          ∧ data_in st' = []
          ∧ ∃ reads,
              concat reads = concat (data_in st1)
              ∧ trace st' = trace (accepted port dataPort reply q1 st1)
                  ++ [ERecv Control data; EInput (overwrite_prompt name);
                      EOpenWB name;
                      EPrint (lit "Transferring " ++ name ++ lit ".")]
                  ++ copy_trace name reads
                  ++ [ECloseFile name; EPrint (lit "Transfer complete.");
                      ECloseFile name;
                      EClose Control; EClose Listener; EClose DataConn;
                      EPrint (lit "** Operations complete. Closing connections. **")])).
Proof.
  intros Hsend Hrecv1 Hdec1 Hack Hcmd Hname Hrecv Hdec Hok Hfs Hin.
  rewrite (main_ack argv st0 st1 port dataPort reply q1 text1) by done.
  set (st2 := accepted port dataPort reply q1 st1).
  destruct (decide (lower ans = lit "n")) as [Hn | Hn].
  - rewrite (receiveData_get_abort argv name st2 data q2 text Hcmd Hrecv Hdec
               Hname Hok old ans rest Hfs Hin Hn).
    eexists. split; [done|]. split; [apply all_closed|].
    left. split; [by apply lower_is_n|].
    split; [done|]. split; [done|].
    cbn [closing trace]. by rewrite <- !app_assoc.
  - assert (ans ≠ lit "n" ∧ ans ≠ lit "N") as [? ?].
    { rewrite lower_is_n in Hn. tauto. }
    destruct (receiveData_get_overwrite argv name st2 data q2 text Hcmd Hrecv
                Hdec Hname Hok old ans rest Hfs Hin Hn)
      as (reads & _ & Hcat & ->).
    eexists. split; [done|]. split; [apply all_closed|].
    right. split; [done|]. split; [done|]. split; [done|]. split; [done|].
    exists reads. split; [done|].
    cbn [closing trace]. by rewrite <- !app_assoc.
Qed.

(** [report.csv] exists here and the user answers [n]. *)
Lemma main_overwrite_prompt_witness :
  ∃ st1 st',
    send_request get_argv (report_run_st (lit "n"))
    = (Ret (lit "30021", 50000%Z), st1)
    ∧ main get_argv (report_run_st (lit "n")) = (Halt (HExit 0), st')
    ∧ open_socks st' = ∅
    ∧ (((lit "n" = lit "n" ∨ lit "n" = lit "N")
        ∧ fs st' = fs st1
        ∧ data_in st' = data_in st1
        ∧ trace st'
          = trace (accepted (lit "30021") 50000 (ascii_bytes "OK")
                     [ascii_bytes "SENDING"] st1)
            ++ [ERecv Control (ascii_bytes "SENDING");
                EInput (overwrite_prompt (lit "report.csv"));
                EPrint (lit "Transfer aborted.");
                EClose Control; EClose Listener; EClose DataConn;
                EPrint (lit "** Operations complete. Closing connections. **")])
       ∨ (lit "n" ≠ lit "n" ∧ lit "n" ≠ lit "N"
          ∧ fs st' = <[lit "report.csv" := concat (data_in st1)]> (fs st1)
          ∧ data_in st' = []
          ∧ ∃ reads,
              concat reads = concat (data_in st1)
              ∧ trace st'
                = trace (accepted (lit "30021") 50000 (ascii_bytes "OK")
                           [ascii_bytes "SENDING"] st1)
                  ++ [ERecv Control (ascii_bytes "SENDING");
                      EInput (overwrite_prompt (lit "report.csv"));
                      EOpenWB (lit "report.csv");
                      EPrint (lit "Transferring " ++ lit "report.csv"
                              ++ lit ".")]
                  ++ copy_trace (lit "report.csv") reads
                  ++ [ECloseFile (lit "report.csv");
                      EPrint (lit "Transfer complete.");
                      ECloseFile (lit "report.csv");
                      EClose Control; EClose Listener; EClose DataConn;
                      EPrint (lit "** Operations complete. Closing connections. **")])).
Proof.
  eexists.
  assert (∀ (P : state → Prop) x, (x ∧ ∃ st', P st') → ∃ st', x ∧ P st')
    as Hsw by naive_solver.
  apply Hsw. clear Hsw. split; [vm_compute; reflexivity|].
  apply (main_overwrite_prompt get_argv (report_run_st (lit "n")) _
           (lit "30021") 50000%Z (ascii_bytes "OK") [ascii_bytes "SENDING"]
           (lit "OK") (lit "report.csv") (ascii_bytes "SENDING") []
           (lit "SENDING") (ascii_bytes "old") (lit "n") []).
  - vm_compute. reflexivity.
  - reflexivity.
  - reflexivity.
  - reflexivity.
  - reflexivity.
  - reflexivity.
  - reflexivity.
  - reflexivity.
  - reflexivity.
  - vm_compute. reflexivity.
  - reflexivity.
Defined.

(** ** Whole runs *)

(** A listing: the server acknowledges, connects back and sends two names;
    the client prints them under ["Directory contents:"] and exits with
    status 0. *)
Example listing_run :
  ∃ st',
    main list_argv listing_run_st = (Halt (HExit 0), st')
    ∧ printed (trace st')
      = [lit "Listening on data port 50000";
         lit "Connected to ftserver on control port 30021";
         lit "ftserver connected on data port 50000";
         lit "Directory contents:";
         lit "a.txt" ++ [NL] ++ lit "b.txt";
         lit "** Operations complete. Closing connections. **"]
    ∧ open_socks st' = ∅.
Proof.
  eexists. split; [vm_compute; reflexivity|]. split; [reflexivity|].
  cbn [open_socks]. set_solver.
Qed.

(** A GET with no file of that name here: the file is created with the
    bytes sent, and the completion message is printed. *)
Example report_new_run :
  ∃ st',
    main get_argv report_new_st = (Halt (HExit 0), st')
    ∧ fs st' = {[lit "report.csv" := ascii_bytes "1,2,3" ++ [Byte.x0a]]}
    ∧ printed (trace st')
      = [lit "Listening on data port 50000";
         lit "Connected to ftserver on control port 30021";
         lit "ftserver connected on data port 50000";
         lit "Transferring report.csv.";
         lit "Transfer complete.";
         lit "** Operations complete. Closing connections. **"].
Proof.
  eexists. split; [vm_compute; reflexivity|]. split; [|reflexivity].
  cbn [fs]. apply map_eq. intros k. by vm_compute.
Qed.

(** A first reply with ["ERROR"] and no colon is an acknowledgement to
    [main]: the run goes on to accept the data connection. *)
Example noerrorhere_run :
  ∃ st',
    main list_argv noerrorhere_st = (Halt (HExit 0), st')
    ∧ EAccept ∈ trace st'
    ∧ printed (trace st')
      = [lit "Listening on data port 50000";
         lit "Connected to ftserver on control port 30021";
         lit "ftserver connected on data port 50000";
         lit "Directory contents:";
         lit "a.txt";
         lit "** Operations complete. Closing connections. **"].
Proof.
  eexists. split; [vm_compute; reflexivity|]. split; [|reflexivity].
  cbn [trace].
  repeat (apply elem_of_cons; first [by left | right]).
Qed.

(** * Further properties of the program

    The rest of what the functions do: the checks of the command line,
    the start of a session and the ways in which it can fail, the LIST
    path and the unknown command, the session as a whole, and the request
    and the replies as bytes. *)

(** ** Numbers as text *)

Lemma lit_String (a : ascii) (s : string) :
  lit (String a s) = N_of_ascii a :: lit s.
Proof. reflexivity. Qed.

Lemma digit_val_char (d : N) :
  d < 10 →
  digit_val (N_of_ascii (pretty_N_char d)) = Some (Z.of_N d)
  ∧ is_digit (N_of_ascii (pretty_N_char d)).
Proof.
  intros Hd.
  assert (d = 0 ∨ d = 1 ∨ d = 2 ∨ d = 3 ∨ d = 4 ∨ d = 5 ∨ d = 6 ∨ d = 7
          ∨ d = 8 ∨ d = 9) as Hc by lia.
  unfold is_digit.
  repeat (destruct Hc as [-> | Hc];
          [vm_compute; split; [done | split; discriminate]|]).
  subst d. vm_compute. split; [done | split; discriminate].
Qed.

(** The digits that [pretty_N_go] puts in front of [acc] read back as the
    number. *)
Lemma int_digits_pretty (x : N) (acc : string) :
  ∃ ds,
    lit (pretty_N_go x acc) = ds ++ lit acc
    ∧ Forall is_digit ds
    ∧ (0 < x → ds ≠ [])
    ∧ ∀ a t,
        int_digits a (ds ++ t)
        = int_digits (a * 10 ^ Z.of_nat (length ds) + Z.of_N x)%Z t.
Proof.
  revert acc. induction (N.lt_wf_0 x) as [x _ IH]. intros acc.
  destruct (decide (x = 0)) as [-> | Hx].
  - exists []. rewrite pretty_N_go_0. split; [done|]. split; [done|].
    split; [lia|]. intros a t. cbn [app length]. f_equal. lia.
  - rewrite pretty_N_go_step by lia.
    destruct (IH (x `div` 10)) with
      (acc := String (pretty_N_char (x `mod` 10)) acc)
      as (ds & Hds & Hall & _ & Hint).
    { apply N.div_lt; lia. }
    destruct (digit_val_char (x `mod` 10)) as [Hval Hdig].
    { apply N.mod_lt. lia. }
    set (c := N_of_ascii (pretty_N_char (x `mod` 10))) in *.
    exists (ds ++ [c]). rewrite Hds, lit_String. fold c.
    split; [by rewrite <- app_assoc|]. split.
    { apply Forall_app. split; [done|]. by constructor. }
    split; [by destruct ds|].
    intros a t. rewrite <- app_assoc. cbn [app]. rewrite Hint.
    cbn [int_digits]. rewrite Hval. cbn [mbind option_bind].
    f_equal. rewrite length_app. cbn [length].
    rewrite Nat2Z.inj_add, Z.pow_add_r by lia.
    pose proof (N.div_mod x 10 ltac:(lia)) as Hdm.
    change (10 ^ Z.of_nat 1)%Z with 10%Z. lia.
Qed.

Lemma str_pos (p : positive) :
  ∃ c ds,
    lit (pretty (N.pos p)) = c :: ds ∧ Forall is_digit (c :: ds)
    ∧ int_digits 0 (c :: ds) = Some (Z.pos p).
Proof.
  destruct (int_digits_pretty (N.pos p) "") as (ds & Hds & Hall & Hne & Hint).
  change (lit "") with (@nil N) in Hds. rewrite app_nil_r in Hds.
  destruct ds as [|c ds]; [by destruct Hne|].
  exists c, ds. split; [done|]. split; [done|].
  specialize (Hint 0%Z []). rewrite app_nil_r in Hint. rewrite Hint.
  cbn [int_digits]. f_equal; lia.
Qed.

(** [int(str(n)) == n] *)
Lemma py_int_str (n : Z) : py_int (str n) = Some n.
Proof.
  destruct n as [|p|p]; [reflexivity | |].
  - destruct (str_pos p) as (c & ds & Hs & Hall & Hint).
    unfold str. change (pretty (Z.pos p)) with (pretty (N.pos p)).
    rewrite Hs. apply Forall_cons in Hall as [[Hc1 Hc2] _].
    unfold py_int.
    destruct (N.eqb_spec c 45) as [-> | _]; [lia|].
    destruct (N.eqb_spec c 43) as [-> | _]; [lia|]. done.
  - destruct (str_pos p) as (c & ds & Hs & Hall & Hint).
    unfold str.
    change (pretty (Z.neg p)) with (String "-" (pretty (N.pos p))).
    rewrite lit_String, Hs. change (N_of_ascii "-") with 45.
    unfold py_int. change (45 =? 45) with true. cbn iota.
    rewrite Hint. reflexivity.
Qed.

(** [str(n)] is a run of decimal digits, after a minus sign when [n] is
    negative. *)
Lemma str_chars (n : Z) :
  Forall (λ c, is_digit c ∨ c = 45) (str n).
Proof.
  assert (∀ p, Forall (λ c, is_digit c ∨ c = 45) (lit (pretty (N.pos p))))
    as Hpos.
  { intros p. destruct (str_pos p) as (c & ds & -> & Hall & _).
    eapply Forall_impl; [done|]. by left. }
  destruct n as [|p|p].
  - constructor; [|constructor]. left. vm_compute. split; discriminate.
  - apply Hpos.
  - unfold str.
    change (pretty (Z.neg p)) with (String "-" (pretty (N.pos p))).
    rewrite lit_String. constructor; [by right | apply Hpos].
Qed.

(** ** UTF-8 *)

Lemma to_N_byte_of (n : N) : n < 256 → Byte.to_N (byte_of n) = n.
Proof.
  intros Hn. unfold byte_of. destruct (Byte.of_N n) as [b|] eqn:E.
  - by apply Byte.to_of_N.
  - apply Byte.of_N_None_iff in E. lia.
Qed.

(** Decides a comparison of the goal by [lia]. *)
Ltac cmp_step :=
  match goal with
  | |- context [?a <? ?b] =>
    first [ rewrite (proj2 (N.ltb_lt a b)) by lia
          | rewrite (proj2 (N.ltb_ge a b)) by lia ]
  | |- context [?a <=? ?b] =>
    first [ rewrite (proj2 (N.leb_le a b)) by lia
          | rewrite (proj2 (N.leb_gt a b)) by lia ]
  | |- context [?a =? ?b] =>
    first [ rewrite (proj2 (N.eqb_eq a b)) by lia
          | rewrite (proj2 (N.eqb_neq a b)) by lia ]
  end.

Ltac cmp_cases :=
  repeat cmp_step;
  repeat (match goal with
          | |- context [?a =? ?b] => destruct (N.eqb_spec a b)
          end; repeat cmp_step);
  cbn [andb negb].

Lemma utf8_decode_encode_cp (c : N) (b r : bytes) :
  utf8_encode_cp c = Some b →
  utf8_decode (b ++ r) = cons c <$> utf8_decode r.
Proof.
  pose proof (N.div_mod c 64 ltac:(lia)) as H0.
  pose proof (N.mod_lt c 64 ltac:(lia)) as H0'.
  pose proof (N.div_mod (c / 64) 64 ltac:(lia)) as H1.
  pose proof (N.mod_lt (c / 64) 64 ltac:(lia)) as H1'.
  pose proof (N.div_mod (c / 64 / 64) 64 ltac:(lia)) as H2.
  pose proof (N.mod_lt (c / 64 / 64) 64 ltac:(lia)) as H2'.
  assert (c / 4096 = c / 64 / 64) as E2.
  { by rewrite N.Div0.div_div. }
  assert (c / 262144 = c / 64 / 64 / 64) as E3.
  { by rewrite !N.Div0.div_div. }
  unfold utf8_encode_cp. rewrite E2, E3.
  set (r0 := c mod 64) in *. set (q0 := c / 64) in *.
  set (r1 := q0 mod 64) in *. set (q1 := q0 / 64) in *.
  set (r2 := q1 mod 64) in *. set (q2 := q1 / 64) in *.
  clearbody r0 q0 r1 q1 r2 q2. clear E2 E3.
  destruct (N.ltb_spec c 128).
  { intros H'; apply (inj Some) in H'; subst b.
    cbn [app utf8_decode]. rewrite to_N_byte_of by lia.
    repeat cmp_step. reflexivity. }
  destruct (N.ltb_spec c 2048).
  { intros H'; apply (inj Some) in H'; subst b.
    cbn [app utf8_decode]. rewrite !to_N_byte_of by lia.
    unfold is_cont, cont_bits. repeat cmp_step. cbn [andb negb].
    f_equal. f_equal. lia. }
  destruct ((55296 <=? c) && (c <=? 57343)) eqn:Es; [discriminate|].
  apply andb_false_iff in Es.
  assert (c < 55296 ∨ 57343 < c) as Hs.
  { destruct Es as [Es | Es]; [left; by apply N.leb_gt in Es
                              | right; by apply N.leb_gt in Es]. }
  clear Es.
  destruct (N.ltb_spec c 65536).
  { intros H'; apply (inj Some) in H'; subst b.
    cbn [app utf8_decode]. rewrite !to_N_byte_of by lia.
    unfold is_cont, cont_bits. (cmp_cases; f_equal; f_equal; lia). }
  destruct (N.ltb_spec c 1114112); [|discriminate].
  intros H'; apply (inj Some) in H'; subst b.
  cbn [app utf8_decode]. rewrite !to_N_byte_of by lia.
  unfold is_cont, cont_bits. (cmp_cases; f_equal; f_equal; lia).
Qed.

(** What [bytes(s, "utf8")] gives decodes back to [s]. *)
Lemma utf8_decode_encode (s : pystr) (bs : bytes) :
  utf8_encode s = Some bs → utf8_decode bs = Some s.
Proof.
  revert bs. induction s as [|c s IH]; intros bs; cbn [utf8_encode].
  - by intros [= <-].
  - destruct (utf8_encode_cp c) as [b|] eqn:Ec; [|discriminate].
    destruct (utf8_encode s) as [bt|]; [|discriminate].
    intros [= <-]. rewrite (utf8_decode_encode_cp c b bt Ec).
    by rewrite (IH bt eq_refl).
Qed.

(** A code point below 128 is one byte; any other is two at least. *)
Lemma utf8_encode_cp_ascii (c : N) (b : bytes) :
  utf8_encode_cp c = Some b →
  (c < 128 → length b = 1%nat) ∧ (128 ≤ c → (2 ≤ length b)%nat).
Proof.
  unfold utf8_encode_cp.
  destruct (N.ltb_spec c 128).
  { intros H'. apply (inj Some) in H'. subst b. split; [done | lia]. }
  destruct (c <? 2048).
  { intros H'. apply (inj Some) in H'. subst b. cbn [length]. split; lia. }
  destruct (_ && _); [discriminate|].
  destruct (c <? 65536).
  { intros H'. apply (inj Some) in H'. subst b. cbn [length]. split; lia. }
  destruct (c <? 1114112); [|discriminate].
  intros H'. apply (inj Some) in H'. subst b. cbn [length]. split; lia.
Qed.

(** The encoding has as many bytes as the text has characters exactly when
    every character is below 128; it is longer otherwise. *)
Lemma utf8_encode_ascii_length (s : pystr) (bs : bytes) :
  utf8_encode s = Some bs →
  (Forall (λ c, c < 128) s → length bs = length s)
  ∧ (Exists (λ c, 128 ≤ c) s → (length s < length bs)%nat).
Proof.
  revert bs. induction s as [|c s IH]; intros bs; cbn [utf8_encode].
  - intros [= <-]. split; [done|]. by intros ?%Exists_nil.
  - destruct (utf8_encode_cp c) as [b|] eqn:Ec; [|discriminate].
    destruct (utf8_encode s) as [bt|] eqn:Et; [|discriminate].
    intros [= <-]. destruct (IH bt eq_refl) as [IH1 IH2].
    pose proof (utf8_encode_length s bt Et) as Hle.
    pose proof (utf8_encode_cp_length c b Ec) as Hb.
    destruct (utf8_encode_cp_ascii c b Ec) as [Ha Hn].
    rewrite length_app. cbn [length]. split.
    + intros [Hc Hs]%Forall_cons. rewrite Ha, IH1 by done. done.
    + intros [Hc | Hs]%Exists_cons.
      * specialize (Hn Hc). lia.
      * specialize (IH2 Hs). lia.
Qed.

(** A surrogate cannot be encoded. *)
Lemma utf8_encode_surrogate (s : pystr) :
  Exists (λ c, 55296 ≤ c ∧ c ≤ 57343) s → utf8_encode s = None.
Proof.
  induction 1 as [c s [Hc1 Hc2] | c s _ IH]; cbn [utf8_encode].
  - assert (utf8_encode_cp c = None) as ->; [|done].
    unfold utf8_encode_cp. by repeat cmp_step.
  - rewrite IH. by destruct (utf8_encode_cp c).
Qed.

Lemma byte_of_to_N (b : byte) : byte_of (Byte.to_N b) = b.
Proof. unfold byte_of. by rewrite Byte.of_to_N. Qed.

Lemma div_mod_64 (a d : N) :
  d < 64 → (64 * a + d) / 64 = a ∧ (64 * a + d) mod 64 = d.
Proof.
  intros Hd. split.
  - symmetry. by apply (N.div_unique _ 64 a d).
  - symmetry. by apply (N.mod_unique _ 64 a d).
Qed.

Lemma utf8_encode_cp_2 (x0 x1 : N) :
  194 ≤ x0 → x0 ≤ 223 → is_cont x1 = true →
  utf8_encode_cp ((x0 - 192) * 64 + cont_bits x1)
  = Some [byte_of x0; byte_of x1].
Proof.
  unfold is_cont, cont_bits. intros H0 H0' [H1 H1']%andb_true_iff.
  apply N.leb_le in H1, H1'.
  replace ((x0 - 192) * 64 + (x1 - 128)) with (64 * (x0 - 192) + (x1 - 128))
    by lia.
  destruct (div_mod_64 (x0 - 192) (x1 - 128) ltac:(lia)) as [Hq Hr].
  unfold utf8_encode_cp. rewrite Hq, Hr. repeat cmp_step.
  do 3 f_equal; f_equal; lia.
Qed.

Lemma utf8_encode_cp_3 (x0 x1 x2 : N) :
  224 ≤ x0 → x0 ≤ 239 → is_cont x1 = true → is_cont x2 = true →
  ¬ (x0 = 224 ∧ x1 < 160) → ¬ (x0 = 237 ∧ 160 ≤ x1) →
  utf8_encode_cp ((x0 - 224) * 4096 + cont_bits x1 * 64 + cont_bits x2)
  = Some [byte_of x0; byte_of x1; byte_of x2].
Proof.
  unfold is_cont, cont_bits.
  intros H0 H0' [H1 H1']%andb_true_iff [H2 H2']%andb_true_iff Hlow Hsur.
  apply N.leb_le in H1, H1', H2, H2'.
  remember (x0 - 224) as a eqn:Ea. remember (x1 - 128) as b eqn:Eb.
  remember (x2 - 128) as d eqn:Ed.
  assert (b < 64 ∧ d < 64 ∧ a < 16) as (Hb & Hd & Ha) by lia.
  replace (a * 4096 + b * 64 + d) with (64 * (64 * a + b) + d) by lia.
  destruct (div_mod_64 (64 * a + b) d Hd) as [Hq Hr].
  destruct (div_mod_64 a b Hb) as [Hq' Hr'].
  unfold utf8_encode_cp.
  replace ((64 * (64 * a + b) + d) / 4096) with a.
  2:{ change 4096 with (64 * 64). by rewrite <- N.Div0.div_div, Hq, Hq'. }
  rewrite Hq, Hr, Hr'.
  repeat cmp_step.
  destruct (N.leb_spec 55296 (64 * (64 * a + b) + d)); repeat cmp_step;
    cbn [andb]; repeat f_equal; lia.
Qed.

Lemma utf8_encode_cp_4 (x0 x1 x2 x3 : N) :
  240 ≤ x0 → x0 ≤ 244 →
  is_cont x1 = true → is_cont x2 = true → is_cont x3 = true →
  ¬ (x0 = 240 ∧ x1 < 144) → ¬ (x0 = 244 ∧ 144 ≤ x1) →
  utf8_encode_cp ((x0 - 240) * 262144 + cont_bits x1 * 4096
                  + cont_bits x2 * 64 + cont_bits x3)
  = Some [byte_of x0; byte_of x1; byte_of x2; byte_of x3].
Proof.
  unfold is_cont, cont_bits.
  intros H0 H0' [H1 H1']%andb_true_iff [H2 H2']%andb_true_iff
    [H3 H3']%andb_true_iff Hlow Hhigh.
  apply N.leb_le in H1, H1', H2, H2', H3, H3'.
  remember (x0 - 240) as a eqn:Ea. remember (x1 - 128) as b eqn:Eb.
  remember (x2 - 128) as d eqn:Ed. remember (x3 - 128) as f eqn:Ef.
  assert (b < 64 ∧ d < 64 ∧ f < 64 ∧ a < 5) as (Hb & Hd & Hf & Ha) by lia.
  replace (a * 262144 + b * 4096 + d * 64 + f)
    with (64 * (64 * (64 * a + b) + d) + f) by lia.
  destruct (div_mod_64 (64 * (64 * a + b) + d) f Hf) as [Hq Hr].
  destruct (div_mod_64 (64 * a + b) d Hd) as [Hq' Hr'].
  destruct (div_mod_64 a b Hb) as [Hq'' Hr''].
  unfold utf8_encode_cp.
  replace ((64 * (64 * (64 * a + b) + d) + f) / 262144) with a.
  2:{ change 262144 with (64 * (64 * 64)).
      by rewrite <- !N.Div0.div_div, Hq, Hq', Hq''. }
  replace ((64 * (64 * (64 * a + b) + d) + f) / 4096) with (64 * a + b).
  2:{ change 4096 with (64 * 64). by rewrite <- N.Div0.div_div, Hq, Hq'. }
  rewrite Hq, Hr, Hr', Hr''.
  repeat cmp_step. repeat f_equal; lia.
Qed.

(** What the decoder accepts is the encoding of what it returns. *)
Lemma utf8_encode_decode (bs : bytes) (s : pystr) :
  utf8_decode bs = Some s → utf8_encode s = Some bs.
Proof.
  revert s. induction (Nat.lt_wf_0_projected length bs) as [bs _ IH].
  intros s. destruct bs as [|b0 r0]; [by intros [= <-]|].
  cbn [utf8_decode].
  set (x0 := Byte.to_N b0).
  destruct (N.ltb_spec x0 128) as [Hx0 | Hx0].
  { destruct (utf8_decode r0) as [s'|] eqn:Hd; [|discriminate].
    intros [= <-]. cbn [utf8_encode].
    rewrite (IH r0 ltac:(cbn; lia) s' Hd).
    unfold utf8_encode_cp. cmp_step. unfold x0. by rewrite byte_of_to_N. }
  destruct r0 as [|b1 r1]; [discriminate|].
  set (x1 := Byte.to_N b1).
  destruct ((194 <=? x0) && (x0 <=? 223)) eqn:E2.
  { apply andb_true_iff in E2 as [?%N.leb_le ?%N.leb_le].
    destruct (is_cont x1) eqn:Hc1; [|discriminate].
    destruct (utf8_decode r1) as [s'|] eqn:Hd; [|discriminate].
    intros [= <-]. cbn [utf8_encode].
    rewrite (IH r1 ltac:(cbn; lia) s' Hd).
    rewrite utf8_encode_cp_2 by done. unfold x0, x1.
    by rewrite !byte_of_to_N. }
  destruct r1 as [|b2 r2]; [discriminate|].
  set (x2 := Byte.to_N b2).
  destruct ((224 <=? x0) && (x0 <=? 239)) eqn:E3.
  { apply andb_true_iff in E3 as [?%N.leb_le ?%N.leb_le].
    destruct (is_cont x1) eqn:Hc1; [|discriminate].
    destruct (is_cont x2) eqn:Hc2; [|discriminate].
    destruct (negb ((x0 =? 224) && (x1 <? 160))) eqn:Hlow; [|discriminate].
    destruct (negb ((x0 =? 237) && (160 <=? x1))) eqn:Hsur; [|discriminate].
    cbn [andb].
    destruct (utf8_decode r2) as [s'|] eqn:Hd; [|discriminate].
    intros [= <-]. cbn [utf8_encode].
    rewrite (IH r2 ltac:(cbn; lia) s' Hd).
    rewrite utf8_encode_cp_3; try done.
    - unfold x0, x1, x2. by rewrite !byte_of_to_N.
    - intros [E ?%N.ltb_lt]. rewrite E in Hlow. by rewrite H1 in Hlow.
    - intros [E ?%N.leb_le]. rewrite E in Hsur. by rewrite H1 in Hsur. }
  destruct r2 as [|b3 r3]; [discriminate|].
  set (x3 := Byte.to_N b3).
  destruct ((240 <=? x0) && (x0 <=? 244)) eqn:E4; [|discriminate].
  apply andb_true_iff in E4 as [?%N.leb_le ?%N.leb_le].
  destruct (is_cont x1) eqn:Hc1; [|discriminate].
  destruct (is_cont x2) eqn:Hc2; [|discriminate].
  destruct (is_cont x3) eqn:Hc3; [|discriminate].
  destruct (negb ((x0 =? 240) && (x1 <? 144))) eqn:Hlow; [|discriminate].
  destruct (negb ((x0 =? 244) && (144 <=? x1))) eqn:Hhigh; [|discriminate].
  cbn [andb].
  destruct (utf8_decode r3) as [s'|] eqn:Hd; [|discriminate].
  intros [= <-]. cbn [utf8_encode].
  rewrite (IH r3 ltac:(cbn; lia) s' Hd).
  rewrite utf8_encode_cp_4; try done.
  - unfold x0, x1, x2, x3. by rewrite !byte_of_to_N.
  - intros [E ?%N.ltb_lt]. rewrite E in Hlow. by rewrite H1 in Hlow.
  - intros [E ?%N.leb_le]. rewrite E in Hhigh. by rewrite H1 in Hhigh.
Qed.

(** X1: [bytes(s, "utf8")] and [decode("utf-8")] are inverse to each other:
    the bytes that decode to [s] are the encoding of [s] and no others.  So
    a server that decodes the request gets the text that [makeRequest]
    built, and [getMsg] accepts a reply exactly when it is the encoding of
    some text. *)
Theorem utf8_round_trip (s : pystr) (bs : bytes) :
  utf8_encode s = Some bs ↔ utf8_decode bs = Some s.
Proof. split; [apply utf8_decode_encode | apply utf8_encode_decode]. Qed.

(** ** The command line *)

Lemma badSyntaxExit_run (st : state) :
  badSyntaxExit st = (Halt (HExit 1), usage_shown st).
Proof.
  destruct st as [ci di si fsi bo co os tr]. unfold badSyntaxExit, usage_shown.
  run_steps. by rewrite <- app_assoc.
Qed.

Lemma syntaxCheck_run (args : list pystr) (st : state) :
  syntaxCheck args st =
  if bool_decide ((5 ≤ length args ≤ 6)%nat
                  ∧ (args !! 3%nat = Some (lit "-g") → length args = 6%nat))
  then (Ret tt, st) else (Halt (HExit 1), usage_shown st).
Proof.
  unfold syntaxCheck. unfold bind at 1.
  destruct (bool_decide (length args < 5)%nat
            || bool_decide (6 < length args)%nat) eqn:Hlen.
  { rewrite badSyntaxExit_run. rewrite bool_decide_eq_false_2; [done|].
    apply orb_true_iff in Hlen as [H | H]; apply bool_decide_eq_true_1 in H;
      lia. }
  apply orb_false_iff in Hlen as [Hl1 Hl2].
  apply bool_decide_eq_false_1 in Hl1, Hl2. cbn [ret].
  destruct (lookup_lt_is_Some_2 args 3 ltac:(lia)) as [a3 Ha3].
  unfold bind, arg. rewrite Ha3. cbn [or_raise ret].
  destruct (bool_decide (a3 = lit "-g") && bool_decide (length args < 6)%nat)
    eqn:Hg.
  - rewrite badSyntaxExit_run. rewrite bool_decide_eq_false_2; [done|].
    apply andb_true_iff in Hg as [H1 H2].
    apply bool_decide_eq_true_1 in H1, H2. subst a3. intros [_ H].
    specialize (H eq_refl). lia.
  - rewrite bool_decide_eq_true_2; [done|]. split; [lia|].
    intros [= ->]. apply andb_false_iff in Hg as [H | H];
      apply bool_decide_eq_false_1 in H; [done | lia].
Qed.

(** X2: [syntaxCheck] lets a command line pass when it has five or six
    arguments, and six when the command is [-g]; it then does nothing.  Any
    other command line, the empty one included, gets the two lines of usage
    and the exit status 1, from [syntaxCheck] and so from the program, which
    has done nothing else by then. *)
Theorem syntaxCheck_usage (args : list pystr) (st : state) :
  (syntaxCheck args st = (Ret tt, st)
   ↔ (5 ≤ length args ≤ 6)%nat
     ∧ (arg args 3 = Some (lit "-g") → length args = 6%nat))
  ∧ (syntaxCheck args st = (Ret tt, st)
     ∨ (syntaxCheck args st = (Halt (HExit 1), usage_shown st)
        ∧ main args st = (Halt (HExit 1), usage_shown st))).
Proof.
  rewrite syntaxCheck_run. unfold arg. case_bool_decide as Hok.
  - split; [done | by left].
  - split; [split; [discriminate | done]|]. right. split; [done|].
    unfold main, send_request. unfold bind at 1. unfold bind at 1.
    by rewrite syntaxCheck_run, bool_decide_eq_false_2.
Qed.

(** With five or six arguments every index up to 4 is there, and the last
    argument is the one [getDataPort] reads. *)
Lemma argv_shape (argv : list pystr) :
  (5 ≤ length argv ≤ 6)%nat →
  ∃ a0 a1 a2 a3 a4 rest,
    argv = a0 :: a1 :: a2 :: a3 :: a4 :: rest
    ∧ (rest = [] ∨ ∃ a5, rest = [a5]).
Proof.
  intros [H5 H6].
  destruct argv as [|a0 [|a1 [|a2 [|a3 [|a4 rest]]]]]; cbn in H5; try lia.
  exists a0, a1, a2, a3, a4, rest. split; [done|].
  destruct rest as [|a5 [|a6 rest]]; cbn in H6; [by left | right; eauto | lia].
Qed.

Lemma getDataPort_run (argv : list pystr) (st : state) :
  (5 ≤ length argv ≤ 6)%nat →
  ∃ text, last_arg argv = Some text
    ∧ getDataPort argv st = or_raise ValueError (py_int text) st.
Proof.
  intros Hlen.
  destruct (argv_shape argv Hlen) as (a0 & a1 & a2 & a3 & a4 & rest & -> & Hr).
  unfold getDataPort, last_arg, arg.
  destruct Hr as [-> | [a5 ->]].
  - exists a4. split; [done|]. by rewrite bool_decide_eq_true_2.
  - exists a5. split; [done|]. by rewrite bool_decide_eq_false_2.
Qed.

(** X3: on a command line that [syntaxCheck] lets pass, [getDataPort] reads
    the last argument, whichever the command: it returns the number that the
    argument spells, changes nothing, and raises no [IndexError]. *)
Theorem getDataPort_last (argv : list pystr) (st : state) :
  syntaxCheck argv st = (Ret tt, st) →
  ∃ text,
    last_arg argv = Some text
    ∧ (∀ dataPort, py_int text = Some dataPort →
         getDataPort argv st = (Ret dataPort, st))
    ∧ (getDataPort argv st).1 ≠ Halt (HRaise IndexError)
    ∧ (getDataPort argv st).2 = st.
Proof.
  rewrite syntaxCheck_run. case_bool_decide as Hok; [|discriminate].
  intros _. destruct Hok as [Hlen _].
  destruct (getDataPort_run argv st Hlen) as (text & Hlast & ->).
  exists text. split; [done|]. split; [by intros dataPort ->|].
  by destruct (py_int text).
Qed.

(** A LIST with an argument too many: the port is still the last one. *)
Lemma getDataPort_last_witness :
  ∃ text,
    last_arg list_extra_argv = Some text
    ∧ (∀ dataPort, py_int text = Some dataPort →
         getDataPort list_extra_argv silent_st = (Ret dataPort, silent_st))
    ∧ (getDataPort list_extra_argv silent_st).1 ≠ Halt (HRaise IndexError)
    ∧ (getDataPort list_extra_argv silent_st).2 = silent_st.
Proof.
  apply (getDataPort_last list_extra_argv silent_st). vm_compute. reflexivity.
Defined.

(** [makeRequest] raises only for want of an argument. *)
Lemma makeRequest_defined (argv : list pystr) (dataPort : Z) :
  (5 ≤ length argv)%nat → is_Some (makeRequest argv dataPort).
Proof.
  intros Hlen. rewrite makeRequest_padded, request_fields_body.
  destruct (lookup_lt_is_Some_2 argv 3 ltac:(lia)) as [a3 Ha3].
  destruct (lookup_lt_is_Some_2 argv 4 ltac:(lia)) as [a4 Ha4].
  unfold cmd_body, arg. rewrite Ha3. cbn [mbind option_bind].
  destruct (bool_decide (a3 = lit "-l")); [by eexists|].
  destruct (bool_decide (a3 = lit "-g")); [|by eexists].
  rewrite Ha4. by eexists.
Qed.

Lemma socketStart_run (HOST : pystr) (PORT : Z) (st : state) :
  socketStart HOST PORT st =
  if bind_ok st then
    (Ret Listener,
     mkState (control_in st) (data_in st) (stdin st) (fs st) (bind_ok st)
       (connect_ok st) ({[Listener]} ∪ open_socks st)
       (trace st ++ [ESocket Listener; ESetReuseAddr; EBind HOST PORT]))
  else
    (Halt (HRaise OSError),
     mkState (control_in st) (data_in st) (stdin st) (fs st) (bind_ok st)
       (connect_ok st) ({[Listener]} ∪ open_socks st)
       (trace st ++ [ESocket Listener; ESetReuseAddr])).
Proof.
  destruct st as [ci di si fsi [] co os tr]; unfold socketStart; run_steps;
    by rewrite <- !app_assoc.
Qed.

(** The main program up to the request, step by step, for a command line
    that passes [syntaxCheck] and ports that are numbers. *)
Lemma send_request_steps (argv : list pystr) (st : state)
    (host port text : pystr) (dataPort p : Z) :
  (5 ≤ length argv ≤ 6)%nat →
  (arg argv 3 = Some (lit "-g") → length argv = 6%nat) →
  arg argv 1 = Some host →
  arg argv 2 = Some port →
  last_arg argv = Some text →
  py_int text = Some dataPort →
  py_int port = Some p →
  bind_ok st = true →
  connect_ok st = true →
  ∃ r,
    makeRequest argv dataPort = Some r
    ∧ send_request argv st
      = match utf8_encode r with
        | Some req =>
          (Ret (port, dataPort),
           log (ESend req) (request_ready host p dataPort st))
        | None =>
          (Halt (HRaise UnicodeEncodeError),
           request_ready host p dataPort st)
        end.
Proof.
  intros Hlen Hg Hhost Hport Htext Hdp Hp Hbind Hconn.
  destruct (makeRequest_defined argv dataPort ltac:(lia)) as [r Hr].
  exists r. split; [done|].
  unfold send_request. unfold bind at 1.
  rewrite syntaxCheck_run, bool_decide_eq_true_2 by done.
  rewrite Hhost. cbn [or_raise]. unfold bind at 1. cbn [ret].
  rewrite Hport. cbn [or_raise]. unfold bind at 1. cbn [ret].
  destruct (getDataPort_run argv st Hlen) as (text' & Htext' & Hrun).
  rewrite Htext in Htext'. injection Htext' as <-.
  unfold bind at 1. rewrite Hrun, Hdp. cbn [or_raise ret].
  rewrite Hr. cbn [or_raise]. unfold bind at 1. cbn [ret].
  unfold bind at 1. rewrite socketStart_run, Hbind.
  unfold initiateContact. rewrite Hhost, Hport. cbn [or_raise].
  destruct st as [ci di si fsi bo co os tr].
  cbn [connect_ok bind_ok] in Hconn, Hbind. subst co bo.
  unfold request_ready. run_steps. rewrite Hp. cbn [or_raise]. run_steps.
  destruct (utf8_encode r) as [req|]; cbn [or_raise]; run_steps;
    by rewrite <- ?app_assoc.
Qed.

(** ** Properties kept by every step *)

Section always.
Context (I : state → Prop) `{!Framed I}.

Lemma always_bind {A B} (m : M A) (k : A → M B) :
  always I m → (∀ a, always I (k a)) → always I (bind m k).
Proof.
  intros Hm Hk st HI. apply wp_bind. eapply wp_mono; [by apply Hm | |done].
  intros a st' HI'. by apply Hk.
Qed.

Lemma always_ret {A} (a : A) : always I (ret a).
Proof. by intros st HI. Qed.

Lemma always_raise {A} (e : exn) : always I (raise e : M A).
Proof. by intros st HI. Qed.

Lemma always_sys_exit {A} (c : Z) : always I (sys_exit c : M A).
Proof. by intros st HI. Qed.

Lemma always_diverge {A} : always I (diverge : M A).
Proof. by intros st HI. Qed.

Lemma always_or_raise {A} (e : exn) (o : option A) : always I (or_raise e o).
Proof. destruct o; [apply always_ret | apply always_raise]. Qed.

(** The value that [or_raise] hands on is the one that was there. *)
Lemma always_bind_or_raise {A B} (e : exn) (o : option A) (k : A → M B) :
  (∀ a, o = Some a → always I (k a)) → always I (bind (or_raise e o) k).
Proof.
  intros Hk. destruct o as [a|]; [|by intros st HI].
  intros st HI. by apply (Hk a eq_refl).
Qed.

Lemma always_get {A} (f : state → A) : always I (get f).
Proof. by intros st HI. Qed.

Lemma always_emit (e : event) : always I (emit e).
Proof. intros st HI. by apply F_log. Qed.

Lemma always_print (line : pystr) : always I (print line).
Proof. apply always_emit. Qed.

Lemma always_file_close (name : pystr) : always I (file_close name).
Proof. apply always_emit. Qed.

Lemma always_input (prompt : pystr) : always I (input prompt).
Proof.
  unfold input. apply always_bind; [apply always_emit | intros _].
  apply always_bind; [apply always_get | intros [|a l]].
  - apply always_raise.
  - apply always_bind; [|intros _; apply always_ret].
    intros st HI. by apply F_stdin.
Qed.

Lemma always_isfile (name : pystr) : always I (isfile name).
Proof.
  unfold isfile. apply always_bind; [apply always_get | intros m].
  apply always_ret.
Qed.

Lemma always_socket_new (k : sock) : always I (socket_new k).
Proof.
  unfold socket_new. apply always_bind; [apply always_emit | intros _].
  apply always_bind; [apply always_get | intros o].
  intros st HI. by apply F_open_socks.
Qed.

Lemma always_sock_close (k : sock) : always I (sock_close k).
Proof.
  unfold sock_close. apply always_bind; [apply always_emit | intros _].
  apply always_bind; [apply always_get | intros o].
  intros st HI. by apply F_open_socks.
Qed.

Lemma always_sock_accept (k : sock) : always I (sock_accept k).
Proof.
  unfold sock_accept. apply always_bind; [apply always_emit | intros _].
  apply always_bind; [apply always_socket_new | intros _]. apply always_ret.
Qed.

Lemma always_sock_recv (k : sock) (n : nat) : always I (sock_recv k n).
Proof.
  unfold sock_recv. case_bool_decide; [apply always_raise|].
  apply always_bind; [apply always_get | intros q].
  destruct (recv_queue n q) as [data q'].
  apply always_bind; [|intros _].
  { intros st HI. destruct k; [done | by apply F_control_in
                                     | by apply F_data_in]. }
  apply always_bind; [apply always_emit | intros _]. apply always_ret.
Qed.

Lemma always_getMsg (k : sock) : always I (getMsg k).
Proof.
  unfold getMsg. apply always_bind; [apply always_sock_recv | intros data].
  apply always_bind; [apply always_or_raise | intros text]. apply always_ret.
Qed.

Lemma always_badSyntaxExit : always I badSyntaxExit.
Proof.
  unfold badSyntaxExit. apply always_bind; [apply always_print | intros _].
  apply always_bind; [apply always_print | intros _]. apply always_sys_exit.
Qed.

Lemma always_syntaxCheck (args : list pystr) : always I (syntaxCheck args).
Proof.
  unfold syntaxCheck. apply always_bind.
  { destruct (_ || _); [apply always_badSyntaxExit | apply always_ret]. }
  intros _. apply always_bind; [apply always_or_raise | intros a3].
  destruct (_ && _); [apply always_badSyntaxExit | apply always_ret].
Qed.

Lemma always_getDataPort (argv : list pystr) : always I (getDataPort argv).
Proof.
  unfold getDataPort. apply always_bind; [|intros ?; apply always_or_raise].
  destruct (bool_decide _); apply always_or_raise.
Qed.

Lemma always_socketStart (HOST : pystr) (PORT : Z) :
  always I (socketStart HOST PORT).
Proof.
  unfold socketStart. apply always_bind; [apply always_socket_new | intros _].
  apply always_bind; [apply always_emit | intros _].
  apply always_bind; [apply always_get | intros ok].
  apply always_bind; [|intros _; apply always_ret].
  destruct ok; [apply always_emit | apply always_raise].
Qed.

Lemma always_initiateContact (argv : list pystr) :
  always I (initiateContact argv).
Proof.
  unfold initiateContact.
  apply always_bind; [apply always_or_raise | intros host].
  apply always_bind; [apply always_or_raise | intros port].
  apply always_bind; [apply always_socket_new | intros _].
  apply always_bind; [apply always_or_raise | intros p].
  apply always_bind; [apply always_get | intros ok].
  apply always_bind; [|intros _; apply always_ret].
  destruct ok; [apply always_emit | apply always_raise].
Qed.

Lemma always_send_request (argv : list pystr) : always I (send_request argv).
Proof.
  unfold send_request.
  apply always_bind; [apply always_syntaxCheck | intros _].
  apply always_bind; [apply always_or_raise | intros host].
  apply always_bind; [apply always_or_raise | intros port].
  apply always_bind; [apply always_getDataPort | intros dataPort].
  apply always_bind; [apply always_or_raise | intros startString].
  apply always_bind; [apply always_socketStart | intros s2].
  apply always_bind; [apply always_emit | intros _].
  apply always_bind; [apply always_print | intros _].
  apply always_bind; [apply always_initiateContact | intros s].
  apply always_bind; [apply always_emit | intros _].
  apply always_bind; [apply always_or_raise | intros req].
  apply always_bind; [apply always_emit | intros _]. apply always_ret.
Qed.

(** *** Steps that change a file *)

Lemma always_open_wb (name : pystr) :
  writes_keep I name → always I (open_wb name).
Proof.
  intros Hw st HI. unfold wp, open_wb, bind, emit, get, modify.
  apply Hw. by apply F_log.
Qed.

Lemma always_file_write (name : pystr) (data : bytes) :
  writes_keep I name → always I (file_write name data).
Proof.
  intros Hw st HI. unfold wp, file_write, bind, emit, get, modify.
  apply Hw. by apply F_log.
Qed.

Lemma always_copy_loop (fuel : nat) (dataFD : sock) (name : pystr) :
  writes_keep I name → always I (copy_loop fuel dataFD name).
Proof.
  intros Hw. induction fuel as [|fuel IH]; cbn [copy_loop].
  - apply always_diverge.
  - apply always_bind; [apply always_sock_recv | intros [|b d]].
    + apply always_ret.
    + apply always_bind; [by apply always_file_write | by intros _].
Qed.

(** [receiveData] keeps what the writing of the file named on the command
    line of a GET keeps. *)
Lemma always_receiveData (argv : list pystr) (controlFD dataFD : sock) :
  (∀ name, arg argv 3 = Some (lit "-g") → arg argv 4 = Some name →
           writes_keep I name) →
  always I (receiveData argv controlFD dataFD).
Proof.
  intros Hw. unfold receiveData.
  apply always_bind_or_raise. intros a3 Ha3.
  destruct (bool_decide (a3 = lit "-l")).
  { apply always_bind; [apply always_getMsg | intros l].
    apply always_bind; [apply always_print | intros _].
    apply always_bind; [apply always_print | intros _]. apply always_ret. }
  case_bool_decide as Hg; [subst a3 | apply always_ret].
  apply always_bind; [apply always_getMsg | intros status].
  destruct (status_is_error status).
  { apply always_bind; [apply always_print | intros _].
    apply always_bind; [apply always_sock_close | intros _].
    apply always_bind; [apply always_sock_close | intros _]. apply always_ret. }
  apply always_bind_or_raise. intros name Hname.
  specialize (Hw name Ha3 Hname).
  apply always_bind; [apply always_isfile | intros exists_].
  apply always_bind.
  { destruct exists_; [|apply always_ret].
    apply always_bind; [apply always_input | intros ?]. apply always_ret. }
  intros [|].
  { apply always_bind; [apply always_print | intros _]. apply always_ret. }
  apply always_bind; [by apply always_open_wb | intros _].
  apply always_bind; [apply always_print | intros _].
  apply always_bind; [apply always_get | intros q].
  apply always_bind; [by apply always_copy_loop | intros _].
  apply always_bind; [apply always_file_close | intros _].
  apply always_bind; [apply always_print | intros _].
  apply always_bind; [apply always_file_close | intros _]. apply always_ret.
Qed.

Lemma always_transfer (argv : list pystr) (dataPort : Z) :
  (∀ name, arg argv 3 = Some (lit "-g") → arg argv 4 = Some name →
           writes_keep I name) →
  always I (transfer argv dataPort).
Proof.
  intros Hw. unfold transfer.
  apply always_bind; [apply always_sock_accept | intros dp].
  apply always_bind; [apply always_print | intros _].
  apply always_bind; [apply always_emit | intros _].
  apply always_bind; [by apply always_receiveData | intros _].
  apply always_bind; [apply always_sock_close | intros _].
  apply always_bind; [apply always_sock_close | intros _].
  apply always_bind; [apply always_sock_close | intros _].
  apply always_bind; [apply always_print | intros _]. apply always_sys_exit.
Qed.

Lemma always_main (argv : list pystr) :
  (∀ name, arg argv 3 = Some (lit "-g") → arg argv 4 = Some name →
           writes_keep I name) →
  always I (main argv).
Proof.
  intros Hw. unfold main.
  apply always_bind; [apply always_send_request | intros [port dataPort]].
  apply always_bind; [apply always_getMsg | intros confirm].
  apply always_bind; [|intros _; by apply always_transfer].
  destruct (confirm_is_error confirm); [|apply always_print].
  apply always_bind; [apply always_print | intros _].
  apply always_bind; [apply always_sock_close | intros _].
  apply always_bind; [apply always_sock_close | intros _].
  apply always_sys_exit.
Qed.

End always.

#[global] Instance file_as_in_framed m0 f : Framed (file_as_in m0 f).
Proof. by split. Qed.

#[global] Instance trace_from_framed tr0 : Framed (trace_from tr0).
Proof.
  split; try done. intros e st Hp. unfold trace_from, log. cbn [trace].
  by apply prefix_app_r.
Qed.

Lemma file_as_in_writes (m0 : gmap pystr bytes) (f name : pystr) :
  name ≠ f → writes_keep (file_as_in m0 f) name.
Proof.
  intros Hne data st HI. unfold file_as_in, put_fs in *. cbn [fs].
  by rewrite lookup_insert_ne.
Qed.

Lemma trace_from_writes (tr0 : list event) (name : pystr) :
  writes_keep (trace_from tr0) name.
Proof. by intros data st HI. Qed.

(** X4: the only file a run can change is the one that a GET names: at
    the end of any run, however it ends, every other file is as it was, and
    so is every file when the command is not [-g]. *)
Theorem main_changes_only_target (argv : list pystr) (st : state)
    (f : pystr) :
  fs (main argv st).2 !! f = fs st !! f
  ∨ (arg argv 3 = Some (lit "-g") ∧ arg argv 4 = Some f).
Proof.
  destruct (decide (arg argv 3 = Some (lit "-g") ∧ arg argv 4 = Some f))
    as [Hyes | Hno]; [by right | left].
  assert (always (file_as_in (fs st) f) (main argv)) as Hmain.
  { apply always_main; [apply _|]. intros name H3 H4.
    apply file_as_in_writes. intros ->. by apply Hno. }
  specialize (Hmain st eq_refl). unfold wp in Hmain.
  by destruct (main argv st) as [[a|h] st'].
Qed.

(** ** The ways in which a run can stop short *)

Section ends.
Context (P : halt → Prop).

Lemma ends_bind {A B} (m : M A) (k : A → M B) :
  ends P m → (∀ a, ends P (k a)) → ends P (bind m k).
Proof.
  intros Hm Hk st. apply wp_bind. eapply wp_mono; [apply Hm | |done].
  intros a st' _. apply Hk.
Qed.

Lemma ends_ret {A} (a : A) : ends P (ret a).
Proof. by intros st. Qed.

Lemma ends_raise {A} (e : exn) : P (HRaise e) → ends P (raise e : M A).
Proof. by intros HP st. Qed.

Lemma ends_sys_exit {A} (c : Z) : P (HExit c) → ends P (sys_exit c : M A).
Proof. by intros HP st. Qed.

Lemma ends_diverge {A} : P HDiverge → ends P (diverge : M A).
Proof. by intros HP st. Qed.

Lemma ends_or_raise {A} (e : exn) (o : option A) :
  P (HRaise e) ∨ is_Some o → ends P (or_raise e o).
Proof.
  intros [HP | [a ->]]; [|apply ends_ret].
  destruct o; [apply ends_ret | by apply ends_raise].
Qed.

Lemma ends_get {A} (f : state → A) : ends P (get f).
Proof. by intros st. Qed.

Lemma ends_emit (ev : event) : ends P (emit ev).
Proof. by intros st. Qed.

Lemma ends_print (line : pystr) : ends P (print line).
Proof. by intros st. Qed.

Lemma ends_file_close (name : pystr) : ends P (file_close name).
Proof. by intros st. Qed.

Lemma ends_socket_new (k : sock) : ends P (socket_new k).
Proof. by intros st. Qed.

Lemma ends_sock_close (k : sock) : ends P (sock_close k).
Proof. by intros st. Qed.

Lemma ends_sock_accept (k : sock) : ends P (sock_accept k).
Proof. by intros st. Qed.

Lemma ends_isfile (name : pystr) : ends P (isfile name).
Proof. by intros st. Qed.

Lemma ends_open_wb (name : pystr) : ends P (open_wb name).
Proof. by intros st. Qed.

Lemma ends_file_write (name : pystr) (data : bytes) :
  ends P (file_write name data).
Proof. by intros st. Qed.

Lemma ends_input (prompt : pystr) :
  P (HRaise EOFError) → ends P (input prompt).
Proof.
  intros HP st. unfold wp, input, bind, emit, modify, get.
  by destruct (stdin _).
Qed.

Lemma ends_sock_recv (k : sock) (n : nat) :
  P (HRaise OSError) → ends P (sock_recv k n).
Proof.
  intros HP st. unfold wp, sock_recv. case_bool_decide; [done|].
  unfold bind, get. by destruct (recv_queue _ _).
Qed.

Lemma ends_getMsg (k : sock) :
  P (HRaise OSError) → P (HRaise UnicodeDecodeError) → ends P (getMsg k).
Proof.
  intros HP1 HP2. unfold getMsg.
  apply ends_bind; [by apply ends_sock_recv | intros data].
  apply ends_bind; [apply ends_or_raise; by left | intros text].
  apply ends_ret.
Qed.

Lemma ends_copy_loop (fuel : nat) (dataFD : sock) (name : pystr) :
  P (HRaise OSError) → P HDiverge → ends P (copy_loop fuel dataFD name).
Proof.
  intros HP1 HP2.
  induction fuel as [|fuel IH]; cbn [copy_loop]; [by apply ends_diverge|].
  apply ends_bind; [by apply ends_sock_recv | intros [|b d]].
  - apply ends_ret.
  - apply ends_bind; [apply ends_file_write | by intros _].
Qed.

Lemma ends_badSyntaxExit : P (HExit 1) → ends P badSyntaxExit.
Proof. by intros HP st. Qed.

End ends.

(** Proves that a computation made of steps that stop short in [P] only
    stops short in [P] only; [tac] proves [P] of a way to stop. *)
Ltac ends_steps tac :=
  repeat match goal with
  | |- ends _ (bind _ _) => apply ends_bind; [|intros ?]
  | |- ends _ (ret _) => apply ends_ret
  | |- ends _ (sys_exit _) => apply ends_sys_exit; tac
  | |- ends _ (get _) => apply ends_get
  | |- ends _ (emit _) => apply ends_emit
  | |- ends _ (print _) => apply ends_print
  | |- ends _ (file_close _) => apply ends_file_close
  | |- ends _ (socket_new _) => apply ends_socket_new
  | |- ends _ (sock_close _) => apply ends_sock_close
  | |- ends _ (sock_accept _) => apply ends_sock_accept
  | |- ends _ (isfile _) => apply ends_isfile
  | |- ends _ (open_wb _) => apply ends_open_wb
  | |- ends _ (input _) => apply ends_input; tac
  | |- ends _ (getMsg _) => apply ends_getMsg; tac
  | |- ends _ (copy_loop _ _ _) => apply ends_copy_loop; tac
  | |- ends _ badSyntaxExit => apply ends_badSyntaxExit; tac
  | |- ends _ (raise _) => apply ends_raise; tac
  | |- ends _ (or_raise _ _) =>
    apply ends_or_raise; first [right; eassumption | left; tac]
  | |- ends _ (if ?b then _ else _) => destruct b
  | |- ends _ (let '(_, _) := ?p in _) => destruct p
  end.

Lemma ends_receiveData_IndexError (argv : list pystr)
    (controlFD dataFD : sock) :
  (5 ≤ length argv)%nat →
  ends (other_than IndexError) (receiveData argv controlFD dataFD).
Proof.
  intros Hlen.
  pose proof (lookup_lt_is_Some_2 argv 3 ltac:(lia)) as H3.
  pose proof (lookup_lt_is_Some_2 argv 4 ltac:(lia)) as H4.
  unfold receiveData, arg. ends_steps ltac:(discriminate).
Qed.

Lemma ends_send_request_IndexError (argv : list pystr) :
  (5 ≤ length argv ≤ 6)%nat →
  ends (other_than IndexError) (send_request argv).
Proof.
  intros Hlen.
  pose proof (lookup_lt_is_Some_2 argv 1 ltac:(lia)) as H1.
  pose proof (lookup_lt_is_Some_2 argv 2 ltac:(lia)) as H2.
  assert (ends (other_than IndexError) (syntaxCheck argv)) as Hsyn.
  { intros st. unfold wp. rewrite syntaxCheck_run. by case_bool_decide. }
  assert (ends (other_than IndexError) (getDataPort argv)) as Hdp.
  { intros st. unfold wp.
    destruct (getDataPort_run argv st Hlen) as (text & _ & ->).
    by destruct (py_int text). }
  assert (∀ dp, is_Some (makeRequest argv dp)) as Hreq.
  { intros dp. apply makeRequest_defined. lia. }
  unfold send_request, socketStart, initiateContact, arg.
  apply ends_bind; [done | intros _].
  apply ends_bind; [ends_steps ltac:(discriminate) | intros host].
  apply ends_bind; [ends_steps ltac:(discriminate) | intros port].
  apply ends_bind; [done | intros dataPort].
  apply ends_bind; [apply ends_or_raise; by right | intros startString].
  ends_steps ltac:(discriminate).
Qed.

(** X5: every read of [sys.argv] is covered by [syntaxCheck]: no run ends in
    [IndexError]. *)
Theorem main_no_IndexError (argv : list pystr) (st : state) :
  (main argv st).1 ≠ Halt (HRaise IndexError).
Proof.
  destruct (decide (5 ≤ length argv ≤ 6)%nat) as [Hlen | Hlen].
  - assert (ends (other_than IndexError) (main argv)) as Hmain.
    { unfold main, transfer.
      apply ends_bind; [by apply ends_send_request_IndexError
                       | intros [port dp]].
      apply ends_bind; [ends_steps ltac:(discriminate) | intros confirm].
      apply ends_bind; [ends_steps ltac:(discriminate) | intros _].
      apply ends_bind; [ends_steps ltac:(discriminate) | intros dpc].
      apply ends_bind; [ends_steps ltac:(discriminate) | intros _].
      apply ends_bind; [ends_steps ltac:(discriminate) | intros _].
      apply ends_bind; [apply ends_receiveData_IndexError; lia | intros _].
      ends_steps ltac:(discriminate). }
    specialize (Hmain st). unfold wp, other_than in Hmain.
    destruct (main argv st) as [[a|h] st']; cbn [fst]; congruence.
  - unfold main, send_request. unfold bind at 1. unfold bind at 1.
    rewrite syntaxCheck_run, bool_decide_eq_false_2 by tauto. done.
Qed.




(** ** The LIST path of [receiveData] *)

Lemma receiveData_list_run (argv : list pystr) (st : state) (data : bytes)
    (q' : list bytes) (text : pystr) :
  arg argv 3 = Some (lit "-l") →
  recv_queue MAX_LIMIT (data_in st) = (data, q') →
  utf8_decode data = Some text →
  receiveData argv Control DataConn st
  = (Ret tt,
     mkState (control_in st) q' (stdin st) (fs st) (bind_ok st)
       (connect_ok st) (open_socks st)
       (trace st
        ++ [ERecv DataConn data; EPrint (lit "Directory contents:");
            EPrint (strip NL text)])).
Proof.
  intros Hcmd Hrecv Hdec. unfold receiveData. unfold bind at 1.
  rewrite Hcmd. cbn [or_raise ret].
  rewrite bool_decide_eq_true_2 by done.
  unfold bind at 1. rewrite getMsg_run by done.
  cbn [inbound]. rewrite Hrecv, Hdec.
  destruct st as [ci di si fsi bo co os tr]. run_steps.
  by rewrite <- !app_assoc.
Qed.

(** X7: for a LIST, [receiveData] reads the data connection once, at most
    1024 bytes of it, and prints what it read under a heading.  What the
    server sends beyond that is never read.  The control connection, the
    files, the console input and the sockets are left alone. *)
Theorem receiveData_list (argv : list pystr) (st : state) (data : bytes)
    (q' : list bytes) (text : pystr) :
  arg argv 3 = Some (lit "-l") →
  recv_queue MAX_LIMIT (data_in st) = (data, q') →
  utf8_decode data = Some text →
  ∃ st',
    receiveData argv Control DataConn st = (Ret tt, st')
    ∧ trace st' = trace st
        ++ [ERecv DataConn data; EPrint (lit "Directory contents:");
            EPrint (strip NL text)]
    ∧ (length data ≤ 1024)%nat
    ∧ data_in st' = q'
    ∧ data ++ concat q' = concat (data_in st)
    ∧ control_in st' = control_in st
    ∧ fs st' = fs st
    ∧ stdin st' = stdin st
    ∧ open_socks st' = open_socks st.
Proof.
  intros Hcmd Hrecv Hdec.
  rewrite (receiveData_list_run argv st data q' text) by done.
  apply recv_queue_spec in Hrecv as (Hcat & Hlen & _); [|unfold MAX_LIMIT; lia].
  eexists. split; [done|]. by repeat split.
Qed.

(** The server sends two names. *)
Lemma receiveData_list_witness :
  ∃ st',
    receiveData list_argv Control DataConn listing_st = (Ret tt, st')
    ∧ trace st' = trace listing_st
        ++ [ERecv DataConn
              (ascii_bytes "a.txt" ++ [Byte.x0a] ++ ascii_bytes "b.txt"
               ++ [Byte.x0a]);
            EPrint (lit "Directory contents:");
            EPrint (strip NL (lit "a.txt" ++ [NL] ++ lit "b.txt" ++ [NL]))]
    ∧ (length (ascii_bytes "a.txt" ++ [Byte.x0a] ++ ascii_bytes "b.txt"
               ++ [Byte.x0a]) ≤ 1024)%nat
    ∧ data_in st' = []
    ∧ (ascii_bytes "a.txt" ++ [Byte.x0a] ++ ascii_bytes "b.txt"
       ++ [Byte.x0a]) ++ concat [] = concat (data_in listing_st)
    ∧ control_in st' = control_in listing_st
    ∧ fs st' = fs listing_st
    ∧ stdin st' = stdin listing_st
    ∧ open_socks st' = open_socks listing_st.
Proof.
  apply (receiveData_list list_argv listing_st); reflexivity.
Defined.

Lemma printed_app (tr1 tr2 : list event) :
  printed (tr1 ++ tr2) = printed tr1 ++ printed tr2.
Proof. apply omap_app. Qed.

(** X8: a whole LIST session that the server acknowledges: the client
    prints that it listens, that it is connected, that the server has
    connected back, the heading, the listing and the closing message, in
    this order and nothing else; it changes no file, reads no console
    input, closes every socket and exits with status 0. *)
Theorem main_list_session (argv : list pystr) (st0 st1 : state)
    (port : pystr) (dataPort : Z) (reply : bytes) (q1 : list bytes)
    (text1 : pystr) (data : bytes) (q' : list bytes) (text : pystr) :
  send_request argv st0 = (Ret (port, dataPort), st1) →
  recv_queue MAX_LIMIT (control_in st1) = (reply, q1) →
  utf8_decode reply = Some text1 →
  confirm_is_error (strip NL text1) = false →
  arg argv 3 = Some (lit "-l") →
  recv_queue MAX_LIMIT (data_in st1) = (data, q') →
  utf8_decode data = Some text →
  ∃ st',
    main argv st0 = (Halt (HExit 0), st')
    ∧ printed (trace st')
      = printed (trace st0)
        ++ [lit "Listening on data port " ++ str dataPort;
            lit "Connected to ftserver on control port " ++ port;
            lit "ftserver connected on data port " ++ str dataPort;
            lit "Directory contents:";
            strip NL text;
            lit "** Operations complete. Closing connections. **"]
    ∧ fs st' = fs st0
    ∧ stdin st' = stdin st0
    ∧ open_socks st' = ∅.
Proof.
  intros Hsend Hrecv1 Hdec1 Hack Hcmd Hrecv Hdec.
  rewrite (main_ack argv st0 st1 port dataPort reply q1 text1) by done.
  rewrite (receiveData_list_run argv _ data q' text) by done.
  apply send_request_Ret_inv in Hsend as (host & p & req & ->).
  eexists. split; [done|].
  cbn [closing accepted trace fs stdin open_socks].
  split; [|split; [done|split; [done|apply all_closed]]].
  rewrite !printed_app. rewrite <- !app_assoc. done.
Qed.

(** A LIST session with two names. *)
Lemma main_list_session_witness :
  ∃ st',
    main list_argv listing_run_st = (Halt (HExit 0), st')
    ∧ printed (trace st')
      = printed (trace listing_run_st)
        ++ [lit "Listening on data port " ++ str 50000;
            lit "Connected to ftserver on control port " ++ lit "30021";
            lit "ftserver connected on data port " ++ str 50000;
            lit "Directory contents:";
            strip NL (lit "a.txt" ++ [NL] ++ lit "b.txt" ++ [NL]);
            lit "** Operations complete. Closing connections. **"]
    ∧ fs st' = fs listing_run_st
    ∧ stdin st' = stdin listing_run_st
    ∧ open_socks st' = ∅.
Proof.
  eapply (main_list_session list_argv listing_run_st _ (lit "30021") 50000
            (ascii_bytes "OK") [] (lit "OK")
            (ascii_bytes "a.txt" ++ [Byte.x0a] ++ ascii_bytes "b.txt"
             ++ [Byte.x0a]) []).
  - vm_compute. reflexivity.
  - reflexivity.
  - reflexivity.
  - reflexivity.
  - reflexivity.
  - reflexivity.
  - reflexivity.
Defined.

(** ** Other commands *)

Lemma receiveData_other_run (argv : list pystr) (cmd : pystr)
    (controlFD dataFD : sock) (st : state) :
  arg argv 3 = Some cmd → cmd ≠ lit "-l" → cmd ≠ lit "-g" →
  receiveData argv controlFD dataFD st = (Ret tt, st).
Proof.
  intros Hcmd Hl Hg. unfold receiveData. unfold bind at 1.
  rewrite Hcmd. cbn [or_raise ret].
  by rewrite !bool_decide_eq_false_2 by done.
Qed.

(** X9: a command that is neither [-l] nor [-g] is sent to the server as
    [UNKNOWN].  When the server does not answer with an error, the client
    accepts the data connection, reads nothing from it, changes no file,
    closes its sockets and exits with status 0. *)
Theorem main_unknown_command (argv : list pystr) (st0 st1 : state)
    (port : pystr) (dataPort : Z) (reply : bytes) (q1 : list bytes)
    (text1 : pystr) (cmd : pystr) :
  send_request argv st0 = (Ret (port, dataPort), st1) →
  recv_queue MAX_LIMIT (control_in st1) = (reply, q1) →
  utf8_decode reply = Some text1 →
  confirm_is_error (strip NL text1) = false →
  arg argv 3 = Some cmd → cmd ≠ lit "-l" → cmd ≠ lit "-g" →
  ∃ st',
    main argv st0 = (Halt (HExit 0), st')
    ∧ request_fields argv dataPort
      = Some (lit "PORTSTART:" ++ str dataPort ++ lit "PORTEND"
              ++ lit "CMD:" ++ lit "UNKNOWN")
    ∧ trace st' = trace st1
        ++ [ERecv Control reply;
            EPrint (lit "Connected to ftserver on control port " ++ port);
            EAccept; ESocket DataConn;
            EPrint (lit "ftserver connected on data port " ++ str dataPort);
            ESleep 1;
            EClose Control; EClose Listener; EClose DataConn;
            EPrint (lit "** Operations complete. Closing connections. **")]
    ∧ data_in st' = data_in st0
    ∧ fs st' = fs st0
    ∧ open_socks st' = ∅.
Proof.
  intros Hsend Hrecv1 Hdec1 Hack Hcmd Hl Hg.
  rewrite (main_ack argv st0 st1 port dataPort reply q1 text1) by done.
  rewrite (receiveData_other_run argv cmd) by done.
  apply send_request_Ret_inv in Hsend as (host & p & req & ->).
  eexists. split; [done|]. split.
  { rewrite request_fields_body. unfold cmd_body. rewrite Hcmd.
    cbn [mbind option_bind]. by rewrite !bool_decide_eq_false_2 by done. }
  cbn [closing accepted trace fs data_in open_socks].
  split; [by rewrite <- !app_assoc|].
  split; [done|]. split; [done|]. apply all_closed.
Qed.

(** The command [-x]. *)
Lemma main_unknown_command_witness :
  ∃ st1 st',
    send_request unknown_argv ack_st = (Ret (lit "30021", 50000%Z), st1)
    ∧ main unknown_argv ack_st = (Halt (HExit 0), st')
    ∧ request_fields unknown_argv 50000
      = Some (lit "PORTSTART:" ++ str 50000 ++ lit "PORTEND"
              ++ lit "CMD:" ++ lit "UNKNOWN")
    ∧ trace st' = trace st1
        ++ [ERecv Control (ascii_bytes "OK");
            EPrint (lit "Connected to ftserver on control port "
                    ++ lit "30021");
            EAccept; ESocket DataConn;
            EPrint (lit "ftserver connected on data port " ++ str 50000);
            ESleep 1;
            EClose Control; EClose Listener; EClose DataConn;
            EPrint (lit "** Operations complete. Closing connections. **")]
    ∧ data_in st' = data_in ack_st
    ∧ fs st' = fs ack_st
    ∧ open_socks st' = ∅.
Proof.
  eexists.
  assert (∀ (P : state → Prop) x, (x ∧ ∃ st', P st') → ∃ st', x ∧ P st')
    as Hsw by naive_solver.
  apply Hsw. clear Hsw. split; [vm_compute; reflexivity|].
  apply (main_unknown_command unknown_argv ack_st _ (lit "30021") 50000
           (ascii_bytes "OK") [] (lit "OK") (lit "-x")).
  - vm_compute. reflexivity.
  - reflexivity.
  - reflexivity.
  - reflexivity.
  - reflexivity.
  - discriminate.
  - discriminate.
Defined.

(** ** GET: the ends of the session *)

(** X10: when the file exists here and the console input is at its end, the
    question to the user ends the run in [EOFError]: the file is as it was,
    nothing has been read from the data connection, and no socket has been
    closed. *)
Theorem receiveData_prompt_eof (argv : list pystr) (name : pystr)
    (st : state) (data : bytes) (q' : list bytes) (text : pystr)
    (old : bytes) :
  arg argv 3 = Some (lit "-g") →
  arg argv 4 = Some name →
  recv_queue MAX_LIMIT (control_in st) = (data, q') →
  utf8_decode data = Some text →
  status_is_error (strip NL text) = false →
  fs st !! name = Some old →
  stdin st = [] →
  ∃ st',
    receiveData argv Control DataConn st = (Halt (HRaise EOFError), st')
    ∧ trace st' = trace st
        ++ [ERecv Control data; EInput (overwrite_prompt name)]
    ∧ fs st' = fs st
    ∧ data_in st' = data_in st
    ∧ open_socks st' = open_socks st.
Proof.
  intros Hcmd Hname Hrecv Hdec Hok Hfs Hin.
  rewrite (receiveData_get_read argv st data q' text) by done.
  cbn zeta. rewrite Hok, Hname. cbn [or_raise].
  unfold bind at 1. cbn [ret]. unfold bind at 1, isfile at 1.
  run_prims. rewrite Hfs, Hin.
  rewrite (bool_decide_eq_true_2 (is_Some (Some old))) by eauto.
  run_prims. eexists. split; [done|]. cbn [trace fs data_in open_socks].
  by rewrite <- !app_assoc.
Qed.

(** The file exists here and nobody is there to answer. *)
Lemma receiveData_prompt_eof_witness :
  ∃ st',
    receiveData get_argv Control DataConn report_noinput_st
    = (Halt (HRaise EOFError), st')
    ∧ trace st' = trace report_noinput_st
        ++ [ERecv Control (ascii_bytes "SENDING");
            EInput (overwrite_prompt (lit "report.csv"))]
    ∧ fs st' = fs report_noinput_st
    ∧ data_in st' = data_in report_noinput_st
    ∧ open_socks st' = open_socks report_noinput_st.
Proof.
  apply (receiveData_prompt_eof get_argv (lit "report.csv") report_noinput_st
           (ascii_bytes "SENDING") [] (lit "SENDING") (ascii_bytes "old"));
    reflexivity.
Defined.

(** X11: a whole GET session in which the server reports an error after its
    acknowledgement: the message is shown, no file is created or changed,
    and the session still ends with the closing message and status 0.  The
    control and the data connection are closed twice, by [receiveData] and
    by the main program. *)
Theorem main_deferred_error (argv : list pystr) (st0 st1 : state)
    (port : pystr) (dataPort : Z) (reply : bytes) (q1 : list bytes)
    (text1 : pystr) (data : bytes) (q2 : list bytes) (text : pystr) :
  send_request argv st0 = (Ret (port, dataPort), st1) →
  recv_queue MAX_LIMIT (control_in st1) = (reply, q1) →
  utf8_decode reply = Some text1 →
  confirm_is_error (strip NL text1) = false →
  arg argv 3 = Some (lit "-g") →
  recv_queue MAX_LIMIT q1 = (data, q2) →
  utf8_decode data = Some text →
  status_is_error (strip NL text) = true →
  ∃ st',
    main argv st0 = (Halt (HExit 0), st')
    ∧ trace st' = trace (accepted port dataPort reply q1 st1)
        ++ [ERecv Control data;
            EPrint (lit "Message from server: " ++ strip NL text);
            EClose Control; EClose DataConn;
            EClose Control; EClose Listener; EClose DataConn;
            EPrint (lit "** Operations complete. Closing connections. **")]
    ∧ fs st' = fs st0
    ∧ data_in st' = data_in st0
    ∧ open_socks st' = ∅.
Proof.
  intros Hsend Hrecv1 Hdec1 Hack Hcmd Hrecv Hdec Herr.
  rewrite (main_ack argv st0 st1 port dataPort reply q1 text1) by done.
  rewrite (receiveData_get_error argv _ data q2 text) by done.
  apply send_request_Ret_inv in Hsend as (host & p & req & ->).
  eexists. split; [done|].
  cbn [closing accepted trace fs data_in open_socks].
  split; [by rewrite <- !app_assoc|].
  split; [done|]. split; [done|]. apply all_closed.
Qed.

(** The server acknowledges the GET and then reports that the file is
    missing. *)
Lemma main_deferred_error_witness :
  ∃ st1 st',
    send_request get_argv deferred_error_st
    = (Ret (lit "30021", 50000%Z), st1)
    ∧ main get_argv deferred_error_st = (Halt (HExit 0), st')
    ∧ trace st'
      = trace (accepted (lit "30021") 50000 (ascii_bytes "OK")
                 [ascii_bytes "ERROR: file not found"] st1)
        ++ [ERecv Control (ascii_bytes "ERROR: file not found");
            EPrint (lit "Message from server: "
                    ++ strip NL (lit "ERROR: file not found"));
            EClose Control; EClose DataConn;
            EClose Control; EClose Listener; EClose DataConn;
            EPrint (lit "** Operations complete. Closing connections. **")]
    ∧ fs st' = fs deferred_error_st
    ∧ data_in st' = data_in deferred_error_st
    ∧ open_socks st' = ∅.
Proof.
  eexists.
  assert (∀ (P : state → Prop) x, (x ∧ ∃ st', P st') → ∃ st', x ∧ P st')
    as Hsw by naive_solver.
  apply Hsw. clear Hsw. split; [vm_compute; reflexivity|].
  apply (main_deferred_error get_argv deferred_error_st _ (lit "30021") 50000
           (ascii_bytes "OK") [ascii_bytes "ERROR: file not found"]
           (lit "OK") (ascii_bytes "ERROR: file not found") []
           (lit "ERROR: file not found")).
  - vm_compute. reflexivity.
  - reflexivity.
  - reflexivity.
  - reflexivity.
  - reflexivity.
  - reflexivity.
  - reflexivity.
  - reflexivity.
Defined.

(** X12: a whole GET session for a file that does not exist here: no
    question is asked, the file is created with exactly what the data
    connection carried, and the session ends with status 0 and every socket
    closed. *)
Theorem main_get_new_file (argv : list pystr) (st0 st1 : state)
    (port : pystr) (dataPort : Z) (reply : bytes) (q1 : list bytes)
    (text1 : pystr) (name : pystr) (data : bytes) (q2 : list bytes)
    (text : pystr) :
  send_request argv st0 = (Ret (port, dataPort), st1) →
  recv_queue MAX_LIMIT (control_in st1) = (reply, q1) →
  utf8_decode reply = Some text1 →
  confirm_is_error (strip NL text1) = false →
  arg argv 3 = Some (lit "-g") →
  arg argv 4 = Some name →
  recv_queue MAX_LIMIT q1 = (data, q2) →
  utf8_decode data = Some text →
  status_is_error (strip NL text) = false →
  fs st0 !! name = None →
  ∃ st',
    main argv st0 = (Halt (HExit 0), st')
    ∧ fs st' = <[name := concat (data_in st0)]> (fs st0)
    ∧ stdin st' = stdin st0
    ∧ printed (trace st')
      = printed (trace st0)
        ++ [lit "Listening on data port " ++ str dataPort;
            lit "Connected to ftserver on control port " ++ port;
            lit "ftserver connected on data port " ++ str dataPort;
            lit "Transferring " ++ name ++ lit ".";
            lit "Transfer complete.";
            lit "** Operations complete. Closing connections. **"]
    ∧ open_socks st' = ∅.
Proof.
  intros Hsend Hrecv1 Hdec1 Hack Hcmd Hname Hrecv Hdec Hok Hfs.
  rewrite (main_ack argv st0 st1 port dataPort reply q1 text1) by done.
  apply send_request_Ret_inv in Hsend as (host & p & req & Hst1).
  assert (fs (accepted port dataPort reply q1 st1) !! name = None) as Hfs1.
  { by rewrite Hst1. }
  destruct (receiveData_get_fresh argv name
              (accepted port dataPort reply q1 st1) data q2 text Hcmd Hrecv
              Hdec Hname Hok Hfs1) as (reads & _ & _ & ->).
  subst st1. eexists. split; [done|].
  cbn [closing accepted trace fs stdin data_in open_socks].
  split; [done|]. split; [done|]. split; [|apply all_closed].
  assert (printed (copy_trace name reads) = []) as Hcopy.
  { unfold copy_trace. rewrite printed_app. cbn.
    rewrite app_nil_r. induction reads as [|c reads IH]; [done|].
    cbn. done. }
  rewrite !printed_app, Hcopy, <- !app_assoc. done.
Qed.

(** A GET of [report.csv], which does not exist here. *)
Lemma main_get_new_file_witness :
  ∃ st',
    main get_argv report_new_st = (Halt (HExit 0), st')
    ∧ fs st'
      = <[lit "report.csv" := concat (data_in report_new_st)]>
          (fs report_new_st)
    ∧ stdin st' = stdin report_new_st
    ∧ printed (trace st')
      = printed (trace report_new_st)
        ++ [lit "Listening on data port " ++ str 50000;
            lit "Connected to ftserver on control port " ++ lit "30021";
            lit "ftserver connected on data port " ++ str 50000;
            lit "Transferring " ++ lit "report.csv" ++ lit ".";
            lit "Transfer complete.";
            lit "** Operations complete. Closing connections. **"]
    ∧ open_socks st' = ∅.
Proof.
  eapply (main_get_new_file get_argv report_new_st _ (lit "30021") 50000
            (ascii_bytes "OK") [ascii_bytes "SENDING"] (lit "OK")
            (lit "report.csv") (ascii_bytes "SENDING") [] (lit "SENDING")).
  - vm_compute. reflexivity.
  - reflexivity.
  - reflexivity.
  - reflexivity.
  - reflexivity.
  - reflexivity.
  - reflexivity.
  - reflexivity.
  - reflexivity.
  - reflexivity.
Defined.

(** ** A server that says nothing *)

Lemma recv_queue_empty (n : nat) (q : list bytes) :
  concat q = [] → recv_queue n q = ([], []).
Proof.
  induction q as [|c q IH]; [done|]. cbn [concat]. intros H.
  apply app_eq_nil in H as [-> H]. cbn [recv_queue]. by apply IH.
Qed.

(** X13: when the server closes the control connection without a reply, the
    empty read counts as an acknowledgement: the client prints that it is
    connected and goes on to accept the data connection. *)
Theorem main_no_reply (argv : list pystr) (st0 st1 : state) (port : pystr)
    (dataPort : Z) :
  send_request argv st0 = (Ret (port, dataPort), st1) →
  concat (control_in st1) = [] →
  trace st1
  ++ [ERecv Control [];
      EPrint (lit "Connected to ftserver on control port " ++ port);
      EAccept; ESocket DataConn;
      EPrint (lit "ftserver connected on data port " ++ str dataPort);
      ESleep 1]
  `prefix_of` trace (main argv st0).2.
Proof.
  intros Hsend Hnil.
  rewrite (main_ack argv st0 st1 port dataPort [] [] []); try done.
  2:{ by apply recv_queue_empty. }
  set (acc := accepted port dataPort [] [] st1).
  change (trace st1 ++ _) with (trace acc).
  assert (always (trace_from (trace acc))
            (receiveData argv Control DataConn)) as Hrd.
  { apply always_receiveData; [apply _|]. intros. apply trace_from_writes. }
  assert (trace_from (trace acc) acc) as HI.
  { exists []. by rewrite app_nil_r. }
  specialize (Hrd acc HI). unfold wp in Hrd.
  destruct (receiveData argv Control DataConn acc) as [[[]|h] st']; [|done].
  cbn [snd closing trace]. by apply prefix_app_r.
Qed.

(** The server accepts the connection and closes it without a word. *)
Lemma main_no_reply_witness :
  ∃ st1,
    send_request list_argv silent_st = (Ret (lit "30021", 50000%Z), st1)
    ∧ trace st1
      ++ [ERecv Control [];
          EPrint (lit "Connected to ftserver on control port "
                  ++ lit "30021");
          EAccept; ESocket DataConn;
          EPrint (lit "ftserver connected on data port " ++ str 50000);
          ESleep 1]
      `prefix_of` trace (main list_argv silent_st).2.
Proof.
  eexists. split; [vm_compute; reflexivity|].
  apply (main_no_reply list_argv silent_st _ (lit "30021") 50000).
  - vm_compute. reflexivity.
  - reflexivity.
Defined.

(** ** A data port that cannot be bound *)

(** X14: when the data port cannot be bound, the run fails before the client
    has turned to the server: it has printed at most the usage, created at
    most the listening socket, and does not end with status 0. *)
Theorem main_bind_failure (argv : list pystr) (st : state) :
  bind_ok st = false →
  ∃ h st' tl,
    main argv st = (Halt h, st')
    ∧ h ≠ HExit 0
    ∧ trace st' = trace st ++ tl
    ∧ Forall before_contact tl.
Proof.
  intros Hbind.
  assert (∃ h st' tl,
            send_request argv st = (Halt h, st') ∧ h ≠ HExit 0
            ∧ trace st' = trace st ++ tl ∧ Forall before_contact tl)
    as (h & st' & tl & Hrun & ?).
  { unfold send_request. unfold bind at 1. rewrite syntaxCheck_run.
    case_bool_decide as Hok.
    2:{ eexists _, _, _. split; [done|]. split; [done|].
        split; [done|]. by repeat constructor. }
    destruct Hok as [Hlen _].
    destruct (arg argv 1) as [host|]; cbn [or_raise].
    2:{ exists (HRaise IndexError), st, []. by rewrite app_nil_r. }
    unfold bind at 1. cbn [ret].
    destruct (arg argv 2) as [port|]; cbn [or_raise].
    2:{ exists (HRaise IndexError), st, []. by rewrite app_nil_r. }
    unfold bind at 1. cbn [ret].
    destruct (getDataPort_run argv st Hlen) as (text & _ & Hdp).
    unfold bind at 1. rewrite Hdp.
    destruct (py_int text) as [dataPort|]; cbn [or_raise].
    2:{ exists (HRaise ValueError), st, []. by rewrite app_nil_r. }
    cbn [ret].
    destruct (makeRequest argv dataPort) as [r|]; cbn [or_raise].
    2:{ exists (HRaise IndexError), st, []. by rewrite app_nil_r. }
    unfold bind at 1. cbn [ret]. unfold bind at 1.
    rewrite socketStart_run, Hbind.
    eexists _, _, _. split; [done|]. split; [done|]. split; [done|].
    by repeat constructor. }
  exists h, st', tl. split; [|done].
  unfold main. unfold bind at 1. by rewrite Hrun.
Qed.

(** The data port is taken. *)
Lemma main_bind_failure_witness :
  ∃ h st' tl,
    main list_argv unbound_st = (Halt h, st')
    ∧ h ≠ HExit 0
    ∧ trace st' = trace unbound_st ++ tl
    ∧ Forall before_contact tl.
Proof. apply (main_bind_failure list_argv unbound_st). reflexivity. Defined.

(** ** The start of a session *)

(** X15: for a command line that passes [syntaxCheck], ports that are
    numbers in the range of ports, a data port that can be bound and a
    server that accepts the connection: the client listens on the data port
    named last on the command line before it connects to the server named
    first, and what it then sends is the encoding of the request for that
    same port. *)
Theorem send_request_order (argv : list pystr) (st : state)
    (host port text : pystr) (dataPort p : Z) :
  (5 ≤ length argv ≤ 6)%nat →
  (arg argv 3 = Some (lit "-g") → length argv = 6%nat) →
  arg argv 1 = Some host →
  arg argv 2 = Some port →
  last_arg argv = Some text →
  py_int text = Some dataPort →
  py_int port = Some p →
  (0 ≤ dataPort ≤ 65535)%Z →
  (0 ≤ p ≤ 65535)%Z →
  bind_ok st = true →
  connect_ok st = true →
  ∃ r,
    makeRequest argv dataPort = Some r
    ∧ ∀ req, utf8_encode r = Some req →
        ∃ st1,
          send_request argv st = (Ret (port, dataPort), st1)
          ∧ trace st1 = trace st
              ++ [ESocket Listener; ESetReuseAddr; EBind (lit "") dataPort;
                  EListen;
                  EPrint (lit "Listening on data port " ++ str dataPort);
                  ESocket Control; EConnect host p; ESleep 1; ESend req]
          ∧ open_socks st1 = {[Control]} ∪ ({[Listener]} ∪ open_socks st)
          ∧ fs st1 = fs st
          ∧ control_in st1 = control_in st
          ∧ data_in st1 = data_in st.
Proof.
  intros Hlen Hg Hhost Hport Htext Hdp Hp _ _ Hbind Hconn.
  destruct (send_request_steps argv st host port text dataPort p)
    as (r & Hr & Hrun); try done.
  exists r. split; [done|]. intros req Hreq. rewrite Hreq in Hrun.
  eexists. split; [done|].
  cbn [log request_ready trace open_socks fs control_in data_in].
  by rewrite <- app_assoc.
Qed.

(** [python3 ftclient.py flip 30021 -l 50000] with a server that is
    there. *)
Lemma send_request_order_witness :
  ∃ r,
    makeRequest list_argv 50000 = Some r
    ∧ ∀ req, utf8_encode r = Some req →
        ∃ st1,
          send_request list_argv silent_st = (Ret (lit "30021", 50000%Z), st1)
          ∧ trace st1 = trace silent_st
              ++ [ESocket Listener; ESetReuseAddr; EBind (lit "") 50000;
                  EListen;
                  EPrint (lit "Listening on data port " ++ str 50000);
                  ESocket Control; EConnect (lit "flip") 30021; ESleep 1;
                  ESend req]
          ∧ open_socks st1
            = {[Control]} ∪ ({[Listener]} ∪ open_socks silent_st)
          ∧ fs st1 = fs silent_st
          ∧ control_in st1 = control_in silent_st
          ∧ data_in st1 = data_in silent_st.
Proof.
  apply (send_request_order list_argv silent_st (lit "flip") (lit "30021")
           (lit "50000") 50000 30021); try reflexivity.
  - vm_compute. lia.
  - discriminate.
  - lia.
  - lia.
Defined.

(** X16: a file name with a surrogate in it cannot be encoded: the run ends
    in [UnicodeEncodeError] when the client has opened the listener and the
    control connection, and nothing has been sent. *)
Theorem main_surrogate_name (argv : list pystr) (st : state)
    (host port text name : pystr) (dataPort p : Z) :
  length argv = 6%nat →
  arg argv 1 = Some host →
  arg argv 2 = Some port →
  arg argv 3 = Some (lit "-g") →
  arg argv 4 = Some name →
  last_arg argv = Some text →
  py_int text = Some dataPort →
  py_int port = Some p →
  (0 ≤ dataPort ≤ 65535)%Z →
  (0 ≤ p ≤ 65535)%Z →
  bind_ok st = true →
  connect_ok st = true →
  Exists surrogate name →
  ∃ st',
    main argv st = (Halt (HRaise UnicodeEncodeError), st')
    ∧ trace st' = trace st
        ++ [ESocket Listener; ESetReuseAddr; EBind (lit "") dataPort;
            EListen;
            EPrint (lit "Listening on data port " ++ str dataPort);
            ESocket Control; EConnect host p; ESleep 1]
    ∧ open_socks st' = {[Control]} ∪ ({[Listener]} ∪ open_socks st).
Proof.
  intros Hlen Hhost Hport Hcmd Hname Htext Hdp Hp _ _ Hbind Hconn Hsur.
  destruct (send_request_steps argv st host port text dataPort p)
    as (r & Hr & Hrun); try done; [lia|].
  assert (utf8_encode r = None) as Hnone.
  { apply utf8_encode_surrogate.
    rewrite makeRequest_padded, request_fields_body in Hr.
    unfold cmd_body in Hr. rewrite Hcmd in Hr. cbn [mbind option_bind] in Hr.
    rewrite bool_decide_eq_false_2 in Hr by discriminate.
    rewrite bool_decide_eq_true_2 in Hr by done.
    rewrite Hname in Hr.
    cbn [mbind option_bind fmap option_fmap option_map] in Hr.
    apply (inj Some) in Hr. subst r.
    rewrite <- !app_assoc.
    do 6 (apply Exists_app; right). apply Exists_app. left. exact Hsur. }
  rewrite Hnone in Hrun.
  eexists. split.
  { unfold main. unfold bind at 1. by rewrite Hrun. }
  split; reflexivity.
Qed.

(** A file name that is no UTF-8 on the command line. *)
Lemma main_surrogate_name_witness :
  ∃ st',
    main get_broken_argv silent_st = (Halt (HRaise UnicodeEncodeError), st')
    ∧ trace st' = trace silent_st
        ++ [ESocket Listener; ESetReuseAddr; EBind (lit "") 50000; EListen;
            EPrint (lit "Listening on data port " ++ str 50000);
            ESocket Control; EConnect (lit "flip") 30021; ESleep 1]
    ∧ open_socks st' = {[Control]} ∪ ({[Listener]} ∪ open_socks silent_st).
Proof.
  apply (main_surrogate_name get_broken_argv silent_st (lit "flip")
           (lit "30021") (lit "50000") broken_name 50000 30021);
    try reflexivity; try lia.
  left. unfold surrogate. lia.
Defined.

(** ** The request on the wire *)

Lemma is_ascii_check (s : pystr) :
  forallb (λ c, c <? 128) s = true → is_ascii s.
Proof.
  induction s as [|c s IH]; cbn [forallb]; [by constructor|].
  intros [Hc Hs]%andb_true_iff. constructor; [by apply N.ltb_lt | by apply IH].
Qed.

Lemma is_ascii_or_not (s : pystr) :
  is_ascii s ∨ Exists (λ c, 128 ≤ c) s.
Proof.
  induction s as [|c s [IH | IH]]; [by left; constructor | |].
  - destruct (N.ltb_spec c 128); [left; by constructor | right; by left].
  - right. by right.
Qed.

Lemma is_ascii_str (n : Z) : is_ascii (str n).
Proof.
  eapply Forall_impl; [apply str_chars|].
  intros c [[? ?] | ->]; cbn; lia.
Qed.

Lemma is_ascii_cmd_body (argv : list pystr) (body : pystr) :
  cmd_body argv = Some body →
  is_ascii body
  ↔ ∀ name, arg argv 3 = Some (lit "-g") → arg argv 4 = Some name →
            is_ascii name.
Proof.
  unfold cmd_body. destruct (arg argv 3) as [cmd|]; [|discriminate].
  cbn [mbind option_bind].
  case_bool_decide as Hl.
  { intros H. apply (inj Some) in H. subst body cmd. split.
    - intros _ name [=].
    - intros _. by apply is_ascii_check. }
  case_bool_decide as Hg.
  - subst cmd. destruct (arg argv 4) as [f|]; [|discriminate].
    cbn [mbind option_bind]. intros H. apply (inj Some) in H. subst body.
    unfold is_ascii. rewrite !Forall_app. split.
    + intros (_ & _ & Hf & _) name _ [= <-]. done.
    + intros Hf. split; [by apply is_ascii_check|].
      split; [by apply is_ascii_check|].
      split; [by apply Hf | by apply is_ascii_check].
  - intros H. apply (inj Some) in H. subst body. split.
    + intros _ name [= ->]. done.
    + intros _. by apply is_ascii_check.
Qed.

Lemma is_ascii_request (argv : list pystr) (dataPort : Z) (r : pystr) :
  makeRequest argv dataPort = Some r →
  is_ascii r
  ↔ ∀ name, arg argv 3 = Some (lit "-g") → arg argv 4 = Some name →
            is_ascii name.
Proof.
  rewrite makeRequest_padded, request_fields_body.
  destruct (cmd_body argv) as [body|] eqn:Hb; [|discriminate].
  cbn [fmap option_fmap option_map]. intros H. apply (inj Some) in H.
  subst r. rewrite <- (is_ascii_cmd_body argv body Hb).
  unfold is_ascii. rewrite !Forall_app. split; [tauto|]. intros Hbody.
  split; [split|].
  - by apply is_ascii_check.
  - split; [apply is_ascii_str|].
    split; [by apply is_ascii_check|]. split; [by apply is_ascii_check|done].
  - split; [|by repeat constructor].
    apply Forall_replicate. lia.
Qed.

(** X17: the padding of the request counts characters, and what is sent is
    bytes: the request has as many bytes as characters exactly when the file
    name of a GET has no character beyond 127, and more bytes otherwise. *)
Theorem request_wire_bytes (argv : list pystr) (dataPort : Z) (r : pystr)
    (req : bytes) :
  makeRequest argv dataPort = Some r →
  utf8_encode r = Some req →
  (length r ≤ length req)%nat
  ∧ (length req = length r
     ↔ ∀ name, arg argv 3 = Some (lit "-g") → arg argv 4 = Some name →
               is_ascii name).
Proof.
  intros Hr Hreq. split; [by apply utf8_encode_length|].
  rewrite <- (is_ascii_request argv dataPort r Hr).
  destruct (utf8_encode_ascii_length r req Hreq) as [Heq Hlt].
  split; [|done]. intros Hlen.
  destruct (is_ascii_or_not r) as [Hall | Hex]; [done|].
  specialize (Hlt Hex). lia.
Qed.

(** GET of a file with one character beyond 127 in its name: 100
    characters, 101 bytes. *)
Lemma request_wire_bytes_witness :
  ∃ r req,
    makeRequest get_accent_argv 50000 = Some r
    ∧ utf8_encode r = Some req
    ∧ length r = 100%nat ∧ length req = 101%nat
    ∧ (length r ≤ length req)%nat
    ∧ (length req = length r
       ↔ ∀ name, arg get_accent_argv 3 = Some (lit "-g") →
                 arg get_accent_argv 4 = Some name → is_ascii name).
Proof.
  eexists _, _. split; [vm_compute; reflexivity|].
  split; [vm_compute; reflexivity|].
  split; [reflexivity|]. split; [reflexivity|].
  apply (request_wire_bytes get_accent_argv 50000); vm_compute; reflexivity.
Defined.

(** X18: the port field of the request is the decimal form of the data port:
    digits, after a minus sign for a negative number, and it reads back as
    the number. *)
Theorem request_port_field (argv : list pystr) (dataPort : Z) (r : pystr) :
  makeRequest argv dataPort = Some r →
  ∃ rest,
    r = lit "PORTSTART:" ++ str dataPort ++ lit "PORTEND" ++ rest
    ∧ py_int (str dataPort) = Some dataPort
    ∧ Forall (λ c, is_digit c ∨ c = 45) (str dataPort).
Proof.
  rewrite makeRequest_padded, request_fields_body.
  destruct (cmd_body argv) as [body|]; [|discriminate].
  cbn [fmap option_fmap option_map]. intros H. apply (inj Some) in H.
  subst r. eexists. split; [by rewrite <- !app_assoc|].
  split; [apply py_int_str | apply str_chars].
Qed.

(** GET of [report.csv] on port 50000. *)
Lemma request_port_field_witness :
  ∃ r rest,
    makeRequest get_argv 50000 = Some r
    ∧ r = lit "PORTSTART:" ++ str 50000 ++ lit "PORTEND" ++ rest
    ∧ py_int (str 50000) = Some 50000%Z
    ∧ Forall (λ c, is_digit c ∨ c = 45) (str 50000).
Proof.
  eexists.
  assert (∀ (A : Type) (P : A → Prop) x, (x ∧ ∃ a, P a) → ∃ a, x ∧ P a)
    as Hsw by naive_solver.
  apply Hsw. clear Hsw. split; [vm_compute; reflexivity|].
  apply (request_port_field get_argv 50000). vm_compute. reflexivity.
Defined.

(** ** Telling requests apart *)

Lemma lit_inj (x y : string) : lit x = lit y → x = y.
Proof.
  revert y. induction x as [|a x IH]; intros [|b y]; try done.
  rewrite !lit_String. intros [= Hab Hxy].
  f_equal; [|by apply IH].
  rewrite <- (ascii_N_embedding a), <- (ascii_N_embedding b). by rewrite Hab.
Qed.

Lemma str_inj (n m : Z) : str n = str m → n = m.
Proof. intros H. apply lit_inj in H. by apply (inj pretty). Qed.

(** Two runs of characters of one kind, each followed by a character of
    another kind: when the texts are equal, so are the runs. *)
Lemma app_sep_inj (ok : N → Prop) (a1 a2 : pystr) (sep : N) (x y : pystr) :
  Forall ok a1 → Forall ok a2 → ¬ ok sep →
  a1 ++ sep :: x = a2 ++ sep :: y → a1 = a2 ∧ x = y.
Proof.
  intros H1. revert a2. induction H1 as [|c a1 Hc _ IH]; intros a2 H2 Hsep.
  - destruct H2 as [|d a2 Hd _]; cbn [app].
    + by intros [= ->].
    + intros [= <- _]. done.
  - destruct H2 as [|d a2 Hd H2]; cbn [app].
    + intros [= -> _]. done.
    + intros [= -> Heq]. destruct (IH a2 H2 Hsep Heq) as [-> ->]. done.
Qed.

(** Text that does not end in [#], padded with [#]: the padding can be
    told from the text. *)
Lemma pad_inj (f1 f2 : pystr) (k1 k2 : nat) :
  (∃ pre c, f1 = pre ++ [c] ∧ c ≠ 35) →
  (∃ pre c, f2 = pre ++ [c] ∧ c ≠ 35) →
  f1 ++ replicate k1 35 = f2 ++ replicate k2 35 → f1 = f2.
Proof.
  intros (p1 & c1 & -> & Hc1) (p2 & c2 & -> & Hc2).
  revert k2. induction k1 as [|k1 IH]; intros [|k2];
    rewrite ?app_nil_r; try done.
  - rewrite replicate_S_end, !app_assoc. intros H.
    apply app_inj_tail in H as [_ ->]. done.
  - rewrite replicate_S_end, !app_assoc. intros H.
    apply app_inj_tail in H as [_ <-]. done.
  - rewrite !replicate_S_end, !app_assoc. intros H.
    apply app_inj_tail in H as [H _]. by apply IH in H.
Qed.

Lemma cmd_body_last (argv : list pystr) (body : pystr) :
  cmd_body argv = Some body → ∃ pre c, body = pre ++ [c] ∧ c ≠ 35.
Proof.
  unfold cmd_body. destruct (arg argv 3) as [cmd|]; [|discriminate].
  cbn [mbind option_bind].
  destruct (bool_decide (cmd = lit "-l")).
  { intros H. apply (inj Some) in H. subst body.
    by exists (lit "LIS"), 84. }
  destruct (bool_decide (cmd = lit "-g")).
  - destruct (arg argv 4) as [f|]; [|discriminate].
    cbn [mbind option_bind]. intros H. apply (inj Some) in H. subst body.
    exists (lit "GET" ++ lit "FILENAME:" ++ f ++ lit "FILENAMEEN"), 68.
    split; [|done]. rewrite <- !app_assoc. do 3 f_equal.
  - intros H. apply (inj Some) in H. subst body.
    by exists (lit "UNKNOW"), 78.
Qed.

(** Two requests that are the same text are for the same data port and
    have the same command body. *)
Lemma makeRequest_same (argv1 argv2 : list pystr) (dataPort1 dataPort2 : Z)
    (r : pystr) :
  makeRequest argv1 dataPort1 = Some r →
  makeRequest argv2 dataPort2 = Some r →
  dataPort1 = dataPort2
  ∧ cmd_body argv1 = cmd_body argv2
  ∧ (∀ name1 name2,
       arg argv1 3 = Some (lit "-g") → arg argv1 4 = Some name1 →
       arg argv2 3 = Some (lit "-g") → arg argv2 4 = Some name2 →
       name1 = name2).
Proof.
  rewrite !makeRequest_padded, !request_fields_body.
  destruct (cmd_body argv1) as [b1|] eqn:Hb1; [|discriminate].
  destruct (cmd_body argv2) as [b2|] eqn:Hb2; [|discriminate].
  cbn [fmap option_fmap option_map].
  intros H1 H2. apply (inj Some) in H1, H2. rewrite <- H2 in H1. clear H2.
  rewrite !(app_assoc _ _ [NUL]) in H1.
  apply app_inj_tail in H1 as [H1 _].
  destruct (cmd_body_last argv1 b1 Hb1) as (p1 & c1 & Hp1 & Hc1).
  destruct (cmd_body_last argv2 b2 Hb2) as (p2 & c2 & Hp2 & Hc2).
  apply pad_inj in H1.
  2:{ exists (lit "PORTSTART:" ++ str dataPort1 ++ lit "PORTEND"
              ++ lit "CMD:" ++ p1), c1.
      rewrite Hp1. split; [by rewrite <- !app_assoc | done]. }
  2:{ exists (lit "PORTSTART:" ++ str dataPort2 ++ lit "PORTEND"
              ++ lit "CMD:" ++ p2), c2.
      rewrite Hp2. split; [by rewrite <- !app_assoc | done]. }
  apply app_inv_head in H1.
  change (lit "PORTEND") with (80 :: lit "ORTEND") in H1.
  apply (app_sep_inj (λ c, is_digit c ∨ c = 45)) in H1 as [Hport Hrest];
    [|apply str_chars|apply str_chars|].
  2:{ unfold is_digit. lia. }
  apply str_inj in Hport. apply app_inv_head in Hrest.
  apply app_inv_head in Hrest. subst b2 dataPort2.
  split; [done|]. split; [done|].
  intros name1 name2 Hg1 Hn1 Hg2 Hn2.
  unfold cmd_body in Hb1, Hb2. rewrite Hg1 in Hb1. rewrite Hg2 in Hb2.
  cbn [mbind option_bind] in Hb1, Hb2.
  rewrite bool_decide_eq_false_2 in Hb1, Hb2 by discriminate.
  rewrite bool_decide_eq_true_2 in Hb1, Hb2 by done.
  rewrite Hn1 in Hb1. rewrite Hn2 in Hb2.
  cbn [mbind option_bind] in Hb1, Hb2. rewrite <- Hb2 in Hb1.
  apply (inj Some) in Hb1.
  apply app_inv_head in Hb1. apply app_inv_head in Hb1.
  by apply app_inv_tail in Hb1.
Qed.

(** X19: the request tells the data port and the command apart: two
    requests are the same exactly when they are for the same data port and
    have the same command body, which is the same command and, for a GET,
    the same file name.  Nothing else of the command line enters the
    request. *)
Theorem makeRequest_inj (argv1 argv2 : list pystr) (dataPort1 dataPort2 : Z) :
  is_Some (makeRequest argv1 dataPort1) →
  (makeRequest argv1 dataPort1 = makeRequest argv2 dataPort2
   ↔ dataPort1 = dataPort2 ∧ cmd_body argv1 = cmd_body argv2)
  ∧ (makeRequest argv1 dataPort1 = makeRequest argv2 dataPort2 →
     ∀ name1 name2,
       arg argv1 3 = Some (lit "-g") → arg argv1 4 = Some name1 →
       arg argv2 3 = Some (lit "-g") → arg argv2 4 = Some name2 →
       name1 = name2).
Proof.
  intros [r Hr]. split; [split|].
  - intros Heq. rewrite Hr in Heq. symmetry in Heq.
    destruct (makeRequest_same argv1 argv2 dataPort1 dataPort2 r Hr Heq)
      as (? & ? & _). done.
  - intros [-> Hb]. by rewrite !makeRequest_padded, !request_fields_body, Hb.
  - intros Heq. rewrite Hr in Heq. symmetry in Heq.
    by destruct (makeRequest_same argv1 argv2 dataPort1 dataPort2 r Hr Heq)
      as (_ & _ & ?).
Qed.

(** Two command lines that differ in the program name and in the server
    only. *)
Lemma makeRequest_inj_witness :
  (makeRequest get_argv 50000 = makeRequest other_get_argv 50000
   ↔ 50000%Z = 50000%Z ∧ cmd_body get_argv = cmd_body other_get_argv)
  ∧ (makeRequest get_argv 50000 = makeRequest other_get_argv 50000 →
     ∀ name1 name2,
       arg get_argv 3 = Some (lit "-g") → arg get_argv 4 = Some name1 →
       arg other_get_argv 3 = Some (lit "-g") →
       arg other_get_argv 4 = Some name2 →
       name1 = name2).
Proof.
  apply (makeRequest_inj get_argv other_get_argv 50000 50000).
  eexists. vm_compute. reflexivity.
Defined.

(** ** A message that arrives in one piece *)

Lemma recv_queue_whole (n : nat) (seg : bytes) (rest : list bytes) :
  (0 < length seg ≤ n)%nat → recv_queue n (seg :: rest) = (seg, rest).
Proof.
  intros Hlen. destruct seg as [|b seg]; [cbn in Hlen; lia|].
  cbn [recv_queue]. by rewrite take_ge, drop_ge by lia.
Qed.

(** X20: a message of at most 1024 bytes that arrives in one piece is
    delivered whole: when the bytes are the encoding of a text, [getMsg]
    returns that text without the newlines at its ends, and the next
    message is what the next read starts with. *)
Theorem getMsg_whole_message (k : sock) (st : state) (t : pystr)
    (seg : bytes) (rest : list bytes) :
  k ≠ Listener →
  inbound k st = seg :: rest →
  utf8_encode t = Some seg →
  (0 < length seg ≤ 1024)%nat →
  ∃ st',
    getMsg k st = (Ret (strip NL t), st')
    ∧ trace st' = trace st ++ [ERecv k seg]
    ∧ inbound k st' = rest.
Proof.
  intros Hk Hin Henc Hlen. rewrite getMsg_run, Hin by done.
  rewrite recv_queue_whole by done.
  rewrite (utf8_decode_encode t seg Henc).
  destruct k; [done | |]; (eexists; split; [done|]; by split).
Qed.

(** The server announces a file whose name has a character of three
    bytes. *)
Lemma getMsg_whole_message_witness :
  ∃ st',
    getMsg Control euro_st = (Ret (strip NL euro_reply), st')
    ∧ trace st' = trace euro_st ++ [ERecv Control euro_bytes]
    ∧ inbound Control st' = [].
Proof.
  apply (getMsg_whole_message Control euro_st euro_reply euro_bytes []).
  - discriminate.
  - reflexivity.
  - vm_compute. reflexivity.
  - vm_compute. lia.
Defined.

(** ** A character cut by the size of a read *)

Lemma utf8_decode_app (s : pystr) (bs r : bytes) :
  utf8_encode s = Some bs →
  utf8_decode (bs ++ r) = (s ++.) <$> utf8_decode r.
Proof.
  revert bs. induction s as [|c s IH]; intros bs; cbn [utf8_encode].
  - intros [= <-]. cbn [app]. by destruct (utf8_decode r).
  - destruct (utf8_encode_cp c) as [b|] eqn:Ec; [|discriminate].
    destruct (utf8_encode s) as [bt|]; [|discriminate].
    intros [= <-]. rewrite <- app_assoc.
    rewrite (utf8_decode_encode_cp c b _ Ec), (IH bt eq_refl).
    by destruct (utf8_decode r).
Qed.

(** The encoding of a character without its last bytes does not decode. *)
Lemma utf8_decode_cut (c : N) (b : bytes) (k : nat) :
  utf8_encode_cp c = Some b →
  (0 < k < length b)%nat →
  utf8_decode (take k b) = None.
Proof.
  pose proof (N.mod_lt c 64 ltac:(lia)) as H0.
  pose proof (N.mod_lt (c / 64) 64 ltac:(lia)) as H1.
  pose proof (N.mod_lt (c / 4096) 64 ltac:(lia)) as H2.
  assert (c < 2048 → c / 64 < 32) as Hq2.
  { intros ?. apply N.Div0.div_lt_upper_bound. lia. }
  assert (c < 65536 → c / 4096 < 16) as Hq3.
  { intros ?. apply N.Div0.div_lt_upper_bound. lia. }
  assert (c < 1114112 → c / 262144 < 5) as Hq4.
  { intros ?. apply N.Div0.div_lt_upper_bound. lia. }
  unfold utf8_encode_cp.
  set (r0 := c mod 64) in *. set (r1 := (c / 64) mod 64) in *.
  set (r2 := (c / 4096) mod 64) in *. set (q2 := c / 64) in *.
  set (q3 := c / 4096) in *. set (q4 := c / 262144) in *.
  clearbody r0 r1 r2 q2 q3 q4.
  destruct (N.ltb_spec c 128).
  { intros [= <-]. cbn [length]. lia. }
  destruct (N.ltb_spec c 2048).
  { intros H'. apply (inj Some) in H'. subst b. cbn [length]. intros Hk.
    assert (k = 1%nat) as -> by lia. cbn [take utf8_decode].
    rewrite to_N_byte_of by lia. by cmp_step. }
  destruct (_ && _); [discriminate|].
  destruct (N.ltb_spec c 65536).
  { intros H'. apply (inj Some) in H'. subst b. cbn [length]. intros Hk.
    assert (k = 1 ∨ k = 2)%nat as [-> | ->] by lia; cbn [take utf8_decode];
      (rewrite !to_N_byte_of by lia); by repeat cmp_step. }
  destruct (N.ltb_spec c 1114112); [|discriminate].
  intros H'. apply (inj Some) in H'. subst b. cbn [length]. intros Hk.
  assert (k = 1 ∨ k = 2 ∨ k = 3)%nat as [-> | [-> | ->]] by lia;
    cbn [take utf8_decode]; (rewrite !to_N_byte_of by lia);
    by repeat cmp_step.
Qed.

(** X21: when the 1024th byte of what arrives lies inside the encoding of a
    character, [getMsg] raises [UnicodeDecodeError], although the bytes
    that arrive are the encoding of a text: a read ends where the size of
    the read says, not where a character ends. *)
Theorem getMsg_cut_character (k : sock) (st : state) (s : pystr)
    (bs b tail : bytes) (c : N) (rest : list bytes) :
  k ≠ Listener →
  inbound k st = (bs ++ b ++ tail) :: rest →
  utf8_encode s = Some bs →
  utf8_encode_cp c = Some b →
  (length bs < 1024 < length bs + length b)%nat →
  ∃ st',
    getMsg k st = (Halt (HRaise UnicodeDecodeError), st')
    ∧ trace st'
      = trace st ++ [ERecv k (bs ++ take (1024 - length bs) b)]
    ∧ inbound k st' = (drop (1024 - length bs) b ++ tail) :: rest.
Proof.
  intros Hk Hin Hbs Hb Hlen.
  rewrite getMsg_run, Hin by done.
  assert (recv_queue MAX_LIMIT ((bs ++ b ++ tail) :: rest)
          = (bs ++ take (1024 - length bs) b,
             (drop (1024 - length bs) b ++ tail) :: rest)) as ->.
  { destruct (bs ++ b ++ tail) as [|x l] eqn:E.
    { apply (f_equal length) in E. rewrite !length_app in E.
      cbn [length] in E. lia. }
    cbn [recv_queue]. rewrite <- E. unfold MAX_LIMIT.
    rewrite take_app, drop_app.
    rewrite (take_ge bs), (drop_ge bs) by lia.
    rewrite take_app, drop_app. cbn [app].
    replace (1024 - length bs - length b)%nat with 0%nat by lia.
    rewrite take_0, drop_0, app_nil_r.
    destruct (drop (1024 - length bs) b ++ tail) as [|y l'] eqn:E'; [|done].
    apply (f_equal length) in E'. rewrite length_app, length_drop in E'.
    cbn [length] in E'. lia. }
  rewrite (utf8_decode_app s bs _ Hbs).
  rewrite (utf8_decode_cut c b) by (done || lia).
  cbn [fmap option_fmap option_map].
  destruct k; [done | |]; (eexists; split; [done|]; by split).
Qed.

(** A listing of 1025 bytes whose last character takes the bytes 1024 and
    1025. *)
Lemma getMsg_cut_character_witness :
  ∃ st',
    getMsg DataConn long_listing_st
    = (Halt (HRaise UnicodeDecodeError), st')
    ∧ trace st'
      = trace long_listing_st
        ++ [ERecv DataConn
              (replicate 1023 Byte.x61
               ++ take (1024 - length (replicate 1023 Byte.x61))
                    [Byte.xc3; Byte.xa9])]
    ∧ inbound DataConn st'
      = [drop (1024 - length (replicate 1023 Byte.x61)) [Byte.xc3; Byte.xa9]
         ++ []].
Proof.
  apply (getMsg_cut_character DataConn long_listing_st (replicate 1023 97)
           (replicate 1023 Byte.x61) [Byte.xc3; Byte.xa9] [] 233 []).
  - discriminate.
  - reflexivity.
  - vm_compute. reflexivity.
  - reflexivity.
  - vm_compute. lia.
Defined.

(** ** Ports that are no numbers, servers that are not there *)

Lemma int_digits_letter (acc : Z) (s : pystr) :
  Exists is_letter s → int_digits acc s = None.
Proof.
  intros H. revert acc. induction H as [c s Hc | c s _ IH]; intros acc;
    cbn [int_digits].
  - assert (digit_val c = None) as ->; [|done].
    unfold digit_val, is_letter in *.
    destruct (N.leb_spec 48 c), (N.leb_spec c 57); cbn [andb]; try done.
    lia.
  - destruct (digit_val c); [apply IH | done].
Qed.

(** [int] of a text with a letter in it raises [ValueError]. *)
Lemma py_int_letter (s : pystr) : Exists is_letter s → py_int s = None.
Proof.
  intros H. destruct s as [|c t]; [done|]. unfold py_int.
  destruct (N.eqb_spec c 45) as [-> | Hm].
  { apply Exists_cons in H as [[[? ?] | [? ?]] | H]; try lia.
    destruct t; [by apply Exists_nil in H|].
    by rewrite int_digits_letter. }
  destruct (N.eqb_spec c 43) as [-> | Hp].
  { apply Exists_cons in H as [[[? ?] | [? ?]] | H]; try lia.
    destruct t; [by apply Exists_nil in H|].
    by rewrite int_digits_letter. }
  by apply int_digits_letter.
Qed.



(** X22: a data port with a letter in it is no number: the run ends in
    [ValueError] before the client has done anything. *)
Theorem main_data_port_not_number (argv : list pystr) (st : state)
    (text : pystr) :
  (5 ≤ length argv ≤ 6)%nat →
  (arg argv 3 = Some (lit "-g") → length argv = 6%nat) →
  last_arg argv = Some text →
  Exists is_letter text →
  main argv st = (Halt (HRaise ValueError), st).
Proof.
  intros Hlen Hg Htext Hletter.
  destruct (lookup_lt_is_Some_2 argv 1 ltac:(lia)) as [host Hhost].
  destruct (lookup_lt_is_Some_2 argv 2 ltac:(lia)) as [port Hport].
  unfold main, send_request. unfold bind at 1. unfold bind at 1.
  rewrite syntaxCheck_run, bool_decide_eq_true_2 by done.
  unfold arg. rewrite Hhost. cbn [or_raise]. unfold bind at 1. cbn [ret].
  rewrite Hport. cbn [or_raise]. unfold bind at 1. cbn [ret].
  destruct (getDataPort_run argv st Hlen) as (text' & Htext' & Hrun).
  rewrite Htext in Htext'. injection Htext' as <-.
  unfold bind at 1. by rewrite Hrun, py_int_letter.
Qed.

(** [python3 ftclient.py flip 30021 -l data] *)
Lemma main_data_port_not_number_witness :
  main word_port_argv silent_st = (Halt (HRaise ValueError), silent_st).
Proof.
  apply (main_data_port_not_number word_port_argv silent_st (lit "data")).
  - vm_compute. lia.
  - discriminate.
  - reflexivity.
  - left. right. vm_compute. split; discriminate.
Defined.


